(** * WhatsApp Analyzer: the ingestion and statistics core of [src/App.js]

    A shallow embedding of [parseDate], the parse-and-sort step of
    [handleFileUpload] and [calculateStats], followed by the properties of
    the specification that concern them.

    Conventions of the embedding.
    - A JavaScript number that the program computes is an integer or NaN:
      it is a [num], that is [option Z], with [None] for NaN.  Integers are
      exact in a double up to 2^53; operands beyond that are outside the
      model.  The weekday averages, the only fractions, are doubles: each
      is held by the rational that it denotes, and every operation on them
      rounds as IEEE 754 does.
    - A string is a [string]: the model covers text whose code units are
      below 256 (ISO 8859-1), classified as Unicode classifies them.
    - A field of a row is a [field]: a string, or [undefined] where the
      line of the file was shorter than the header.
    - An object literal [{}] used as a dictionary is the list of its own
      properties in creation order, read and written through the property
      lookup of an ordinary object, prototype included.
    - The host supplies the time zone, the collation of [localeCompare]
      and the clock; they are parameters. *)

From Stdlib Require Import ZArith NArith List String Ascii Bool Lia.
From Stdlib Require Import QArith Qround Qabs Qpower Lqa.
From Stdlib Require Import Permutation Sorted DecimalString.
Import ListNotations.

Local Open Scope string_scope.
Local Open Scope Z_scope.

(** ** Numbers *)

Definition num := option Z.

Definition NaN : num := None.

Definition num_add (a b : num) : num :=
  match a, b with
  | Some x, Some y => Some (x + y)
  | _, _ => None
  end.

Definition num_sub (a b : num) : num :=
  match a, b with
  | Some x, Some y => Some (x - y)
  | _, _ => None
  end.

(** The relational operators answer [false] as soon as an operand is NaN. *)
Definition num_lt (a b : num) : bool :=
  match a, b with
  | Some x, Some y => x <? y
  | _, _ => false
  end.

Definition num_gt (a b : num) : bool := num_lt b a.

Definition num_ge (a b : num) : bool :=
  match a, b with
  | Some x, Some y => y <=? x
  | _, _ => false
  end.

Definition isNaN (a : num) : bool :=
  match a with
  | Some _ => false
  | None => true
  end.

(** ** Doubles

    A finite double is held by the rational it denotes.  The result of an
    operation is the double nearest to the exact result, the one with the
    even significand of two that are equally near: [binary64] is that
    rounding, to 53 significant bits.  The exponent of a double has a
    range of its own; the quotient of two counts of an array (each below
    2^32) and a decimal of that size are far inside it, so the range is not
    modelled. *)

(** The integer nearest to [p / q] for [0 < q], the even one of two. *)
Definition roundHalfEven (p q : Z) : Z :=
  let k := p / q in
  match 2 * (p mod q) ?= q with
  | Lt => k
  | Gt => k + 1
  | Eq => if Z.even k then k else k + 1
  end.

Definition nearestInteger (x : Q) : Z :=
  roundHalfEven (Qnum x) (Z.pos (Qden x)).

(** The exponent [e] of the last bit of the significand of [0 < x]:
    [2^52 <= x / 2^e < 2^53]. *)
Definition exponentOf (x : Q) : Z :=
  let e := Z.log2 (Qnum x) - Z.log2 (Z.pos (Qden x)) - 52 in
  if Qle_bool (2 ^ 52) (x * 2 ^ (- e)) then e else e - 1.

Definition nearestDouble (x : Q) : Q :=
  let e := exponentOf x in
  (inject_Z (nearestInteger (x * 2 ^ (- e))) * 2 ^ e)%Q.

Definition binary64 (x : Q) : Q :=
  match Qnum x with
  | 0 => 0%Q
  | Z.pos _ => nearestDouble x
  | Z.neg _ => (- nearestDouble (- x))%Q
  end.

(** ** Characters and strings *)

Definition code (c : ascii) : N := N_of_ascii c.

Definition between (lo hi : N) (c : ascii) : bool :=
  ((lo <=? code c) && (code c <=? hi))%N.

(** [\s] of a regular expression, and the white space that [parseInt]
    skips: TAB, LF, VT, FF, CR, SPACE and NO-BREAK SPACE. *)
Definition isWhiteSpace (c : ascii) : bool :=
  between 9 13 c || between 32 32 c || between 160 160 c.

(** [\p{L}] below 256. *)
Definition isLetter (c : ascii) : bool :=
  between 65 90 c || between 97 122 c || between 170 170 c
  || between 181 181 c || between 186 186 c || between 192 214 c
  || between 216 246 c || between 248 255 c.

(** [\p{N}] below 256. *)
Definition isNumber (c : ascii) : bool :=
  between 48 57 c || between 178 179 c || between 185 185 c
  || between 188 190 c.

Definition lowerChar (c : ascii) : ascii :=
  if between 65 90 c || between 192 214 c || between 216 222 c
  then ascii_of_N (code c + 32)
  else c.

Fixpoint toLowerCase (s : string) : string :=
  match s with
  | EmptyString => EmptyString
  | String c s' => String (lowerChar c) (toLowerCase s')
  end.

Fixpoint filterChars (keep : ascii -> bool) (s : string) : string :=
  match s with
  | EmptyString => EmptyString
  | String c s' =>
      if keep c then String c (filterChars keep s') else filterChars keep s'
  end.

(** [s.replace(/[^\p{L}\p{N}\s]/gu, '')] *)
Definition stripPunctuation (s : string) : string :=
  filterChars (fun c => isLetter c || isNumber c || isWhiteSpace c) s.

Fixpoint includes (s : string) (c : ascii) : bool :=
  match s with
  | EmptyString => false
  | String d s' => Ascii.eqb d c || includes s' c
  end.

(** [s.split(sep)] for a separator of one character. *)
Fixpoint split_from (sep : ascii) (cur s : string) : list string :=
  match s with
  | EmptyString => [cur]
  | String c s' =>
      if Ascii.eqb c sep then cur :: split_from sep "" s'
      else split_from sep (cur ++ String c "") s'
  end.

Definition split (sep : ascii) (s : string) : list string :=
  split_from sep "" s.

(** [s.split(/\s+/)]: every maximal run of white space separates; a run at
    either end leaves an empty string there. *)
Fixpoint splitWS_from (cur : string) (inRun : bool) (s : string)
  : list string :=
  match s with
  | EmptyString => [cur]
  | String c s' =>
      if isWhiteSpace c then
        if inRun then splitWS_from cur true s'
        else cur :: splitWS_from "" true s'
      else splitWS_from (cur ++ String c "") false s'
  end.

Definition splitWS (s : string) : list string := splitWS_from "" false s.

Fixpoint join (sep : string) (l : list string) : string :=
  match l with
  | [] => ""
  | [x] => x
  | x :: l' => x ++ sep ++ join sep l'
  end.

(** A string is falsy exactly when it is empty. *)
Definition truthyStr (s : string) : bool :=
  match s with
  | EmptyString => false
  | String _ _ => true
  end.

(** The value of a field of a row: the CSV parser gives every row the
    strings of its line under the names of the header, and a line with
    fewer fields than the header leaves the last names without a
    property; reading one of them gives [undefined]. *)
Inductive field : Type :=
| undefined
| str (s : string).

Coercion str : string >-> field.

(** [undefined] is falsy. *)
Definition truthyField (x : field) : bool :=
  match x with
  | undefined => false
  | str s => truthyStr s
  end.

(** The string that a truthy field is. *)
Definition text (x : field) : string :=
  match x with
  | undefined => ""
  | str s => s
  end.

(** [String(x)]: what [x] is as the name of a property, and as the
    argument of [parseInt]. *)
Definition toString (x : field) : string :=
  match x with
  | undefined => "undefined"
  | str s => s
  end.

(** [x === y] *)
Definition strictEq (x y : field) : bool :=
  match x, y with
  | undefined, undefined => true
  | str s, str t => String.eqb s t
  | _, _ => false
  end.

Definition ofZ (z : Z) : string := NilZero.string_of_int (Z.to_int z).

(** [String(n)] *)
Definition numToString (n : num) : string :=
  match n with
  | Some z => ofZ z
  | None => "NaN"
  end.

(** [s.padStart(2, '0')] *)
Definition padStart2 (s : string) : string :=
  match s with
  | EmptyString => "00"
  | String c EmptyString => String "0" s
  | _ => s
  end.

(** ** [parseInt] *)

Definition digitOf (radix : Z) (c : ascii) : option Z :=
  let d :=
    if between 48 57 c then Z.of_N (code c) - 48
    else if between 97 122 c then Z.of_N (code c) - 87
    else if between 65 90 c then Z.of_N (code c) - 55
    else radix in
  if d <? radix then Some d else None.

(** The value of the longest prefix of digits; NaN when it is empty. *)
Fixpoint digitsValue (radix : Z) (acc : num) (s : string) : num :=
  match s with
  | EmptyString => acc
  | String c s' =>
      match digitOf radix c with
      | Some d =>
          digitsValue radix
            (Some (radix * match acc with Some a => a | None => 0 end + d)) s'
      | None => acc
      end
  end.

Fixpoint trimStart (s : string) : string :=
  match s with
  | EmptyString => s
  | String c s' => if isWhiteSpace c then trimStart s' else s
  end.

(** [parseInt(s, radix)]; radix 0 stands for a call that gives none. *)
Definition parseInt (s : string) (radix : Z) : num :=
  let s1 := trimStart s in
  let '(sign, s2) :=
    match s1 with
    | String "-" r => (-1, r)
    | String "+" r => (1, r)
    | _ => (1, s1)
    end in
  if (radix =? 0) || (radix =? 16) then
    match s2 with
    | String "0" (String "x" r) | String "0" (String "X" r) =>
        match digitsValue 16 NaN r with
        | Some v => Some (sign * v)
        | None => None
        end
    | _ =>
        match digitsValue (if radix =? 0 then 10 else radix) NaN s2 with
        | Some v => Some (sign * v)
        | None => None
        end
    end
  else if (radix <? 2) || (36 <? radix) then NaN
  else
    match digitsValue radix NaN s2 with
    | Some v => Some (sign * v)
    | None => None
    end.

(** ** [parseDate] *)

(** What [parseDate] returns: [null], the date [new Date()] of the moment of
    the call, or [new Date(year, month, day, hours, minutes)]. *)
Inductive dateResult : Type :=
| DNull
| DNow
| DDate (year month day hours minutes : num).

(** The components the date string is cut into, when it has a separator. *)
Definition dateParts (dateStr : string) : option (list string) :=
  if includes dateStr "/" then Some (split "/" dateStr)
  else if includes dateStr "-" then Some (split "-" dateStr)
  else None.

(** The hours and minutes that [parseDate] reads from the time string: 0
    and 0 unless the string is truthy and has two components or more. *)
Definition timeOf (timeStr : field) : num * num :=
  if truthyField timeStr then
    let timeParts := split ":" (text timeStr) in
    if (2 <=? List.length timeParts)%nat then
      (parseInt (nth 0 timeParts "") 10, parseInt (nth 1 timeParts "") 10)
    else (Some 0, Some 0)
  else (Some 0, Some 0).

Definition parseDate (dateStr timeStr : field) : dateResult :=
  if negb (truthyField dateStr) then DNull
  else
    match dateParts (text dateStr) with
    | None => DNow
    | Some parts =>
        if negb (List.length parts =? 3)%nat then DNow
        else
          let p0 := nth 0 parts "" in
          let p1 := nth 1 parts "" in
          let p2 := nth 2 parts "" in
          let '(day, month, year) :=
            if num_gt (parseInt p0 0) (Some 12) then
              (parseInt p0 10, num_sub (parseInt p1 10) (Some 1),
               parseInt p2 10)
            else
              let year := parseInt p2 10 in
              (parseInt p0 10, num_sub (parseInt p1 10) (Some 1),
               if num_lt year (Some 100) then num_add year (Some 2000)
               else year) in
          let '(hours, minutes) := timeOf timeStr in
          DDate year month day hours minutes
    end.

(** ** Dates

    The time value of a [Date] is a [num]: the milliseconds since the
    epoch, or NaN for an invalid date.  The definitions follow the
    abstract operations of ECMAScript (MakeDay, MakeTime, MakeDate, UTC,
    TimeClip). *)

Definition msPerDay : Z := 86400000.

Definition DayFromYear (y : Z) : Z :=
  365 * (y - 1970) + (y - 1969) / 4 - (y - 1901) / 100 + (y - 1601) / 400.

Definition InLeapYear (y : Z) : bool :=
  ((y mod 4 =? 0) && negb (y mod 100 =? 0)) || (y mod 400 =? 0).

(** Days of the year that precede month [m] (0 to 11). *)
Definition monthStart (leap : bool) (m : Z) : Z :=
  nth (Z.to_nat m) [0; 31; 59; 90; 120; 151; 181; 212; 243; 273; 304; 334] 0
  + (if leap && (2 <=? m) then 1 else 0).

Definition MakeDay (year month date : Z) : Z :=
  let ym := year + month / 12 in
  let mn := month mod 12 in
  DayFromYear ym + monthStart (InLeapYear ym) mn + date - 1.

Definition MakeTime (hour min sec ms : Z) : Z :=
  hour * 3600000 + min * 60000 + sec * 1000 + ms.

Definition MakeDate (day time : Z) : Z := day * msPerDay + time.

Definition TimeClip (t : Z) : num :=
  if 8640000000000000 <? Z.abs t then NaN else Some t.

(** A year from 0 to 99 given to the constructor means 1900 to 1999. *)
Definition MakeFullYear (y : Z) : Z :=
  if (0 <=? y) && (y <=? 99) then 1900 + y else y.

Definition Day (t : Z) : Z := t / msPerDay.

Definition YearFromDay (d : Z) : Z :=
  let y := 1970 + (d * 10000) / 3652425 in
  if DayFromYear (y + 1) <=? d then y + 1
  else if d <? DayFromYear y then y - 1
  else y.

Definition MonthFromDay (d : Z) : Z :=
  let y := YearFromDay d in
  let doy := d - DayFromYear y in
  let leap := InLeapYear y in
  Z.of_nat
    (List.length
       (filter (fun m => monthStart leap m <=? doy)
               [1; 2; 3; 4; 5; 6; 7; 8; 9; 10; 11])).

(** ** Ordinary objects used as dictionaries *)

Section Objects.

Context {V : Type}.

(** The own properties, in the order of their creation. *)
Definition obj : Type := list (string * V).

Fixpoint getOwn (o : obj) (k : string) : option V :=
  match o with
  | [] => None
  | (k', v) :: o' => if String.eqb k' k then Some v else getOwn o' k
  end.

Fixpoint setOwn (o : obj) (k : string) (v : V) : obj :=
  match o with
  | [] => [(k, v)]
  | (k', v') :: o' =>
      if String.eqb k' k then (k', v) :: o' else (k', v') :: setOwn o' k v
  end.

Definition hasOwnProperty (o : obj) (k : string) : bool :=
  match getOwn o k with
  | Some _ => true
  | None => false
  end.

(** [o[k] = v] for a [v] that is not an object: the setter of [__proto__]
    that every object inherits ignores such a value, and no own property
    is created. *)
Definition assign (o : obj) (k : string) (v : V) : obj :=
  if String.eqb k "__proto__" then o else setOwn o k v.

Fixpoint insertIndex (e : N * (string * V)) (l : list (N * (string * V)))
  : list (N * (string * V)) :=
  match l with
  | [] => [e]
  | e' :: l' =>
      if (fst e' <? fst e)%N then e' :: insertIndex e l' else e :: l
  end.

End Objects.

Arguments obj : clear implicits.

(** The names that every object inherits from [Object.prototype]. *)
Definition objectPrototype : list string :=
  [ "constructor"; "hasOwnProperty"; "isPrototypeOf"; "propertyIsEnumerable";
    "toLocaleString"; "toString"; "valueOf"; "__proto__";
    "__defineGetter__"; "__defineSetter__";
    "__lookupGetter__"; "__lookupSetter__" ].

Definition inherited (k : string) : bool :=
  existsb (String.eqb k) objectPrototype.

(** What [o[k]] evaluates to in a dictionary of numbers: a number, an
    inherited function or object, or [undefined]. *)
Inductive value : Type :=
| VUndefined
| VNum (n : num)
| VObject.

Definition getProp (o : obj num) (k : string) : value :=
  match getOwn o k with
  | Some n => VNum n
  | None => if inherited k then VObject else VUndefined
  end.

Definition truthy (v : value) : bool :=
  match v with
  | VUndefined => false
  | VNum (Some n) => negb (n =? 0)
  | VNum None => false
  | VObject => true
  end.

(** An inherited function or object converts, through its string, to NaN. *)
Definition toNumber (v : value) : num :=
  match v with
  | VNum n => n
  | VUndefined | VObject => NaN
  end.

(** [if (!o[k]) { o[k] = 0; } o[k]++;] *)
Definition countUp (o : obj num) (k : string) : obj num :=
  let o1 := if negb (truthy (getProp o k)) then assign o k (Some 0) else o in
  assign o1 k (num_add (toNumber (getProp o1 k)) (Some 1)).

(** The array index a property name denotes, if any: such names come first
    in the enumeration of an object, in numeric order. *)
Fixpoint allDigits (s : string) : bool :=
  match s with
  | EmptyString => true
  | String c s' => between 48 57 c && allDigits s'
  end.

Definition arrayIndex (k : string) : option N :=
  match k with
  | EmptyString => None
  | String c r =>
      if allDigits k && (negb (Ascii.eqb c "0") || negb (truthyStr r)) then
        match digitsValue 10 NaN k with
        | Some v => if v <=? 4294967294 then Some (Z.to_N v) else None
        | None => None
        end
      else None
  end.

Section Entries.

Context {V : Type}.

Definition indexed (o : obj V) : list (N * (string * V)) :=
  flat_map (fun e => match arrayIndex (fst e) with
                     | Some n => [(n, e)]
                     | None => []
                     end) o.

(** [Object.entries(o)] *)
Definition entries (o : obj V) : list (string * V) :=
  map snd (fold_right insertIndex [] (indexed o))
  ++ filter (fun e => match arrayIndex (fst e) with
                      | Some _ => false
                      | None => true
                      end) o.

(** [Object.keys(o)] *)
Definition keys (o : obj V) : list string := map fst (entries o).

End Entries.

(** ** Arrays *)

Section Arrays.

Context {A : Type}.

(** [a.sort(cmp)].  ECMAScript asks for a stable sort when the comparison
    is consistent, and leaves the order to the implementation when it is
    not, as with a comparison that is NaN for some pairs (a NaN then counts
    as 0).  The model is what V8 does with an array of fewer than 64
    elements: it finds the run that the array begins with, reverses it
    when it is descending, and puts each element after it into place by
    binary insertion.  V8 sorts a longer array by merging runs of that
    kind: the result is the same when the comparison is consistent, and
    is not modelled when it is not. *)

(** Whether [cmp x y] is negative: all that the sort asks of a comparison.
    A comparison that is NaN counts as 0. *)
Definition precedes (cmp : A -> A -> num) (x y : A) : bool :=
  num_lt (cmp x y) (Some 0).

(** The number of elements of [l] that continue the run which [prev]
    ends: an element continues an ascending run when it does not precede
    the one before it, and a descending run when it does. *)
Fixpoint runLength (cmp : A -> A -> num) (desc : bool) (prev : A)
  (l : list A) : nat :=
  match l with
  | [] => O
  | cur :: l' =>
      if Bool.eqb (precedes cmp cur prev) desc
      then S (runLength cmp desc cur l')
      else O
  end.

(** The run that the array begins with, reversed when it is descending,
    and the elements after it. *)
Definition countAndMakeRun (cmp : A -> A -> num) (l : list A)
  : list A * list A :=
  match l with
  | a0 :: a1 :: l' =>
      let desc := precedes cmp a1 a0 in
      let n := S (S (runLength cmp desc a1 l')) in
      (if desc then rev (firstn n l) else firstn n l, skipn n l)
  | _ => (l, [])
  end.

(** The binary search of the place of [pivot] in [pre], and its insertion
    there: [pivot] is compared with the element in the middle of the range
    and the search goes on in the lower half when it precedes that element,
    and in the upper half otherwise.  [fuel] bounds the number of
    halvings; the length of [pre] is enough. *)
Fixpoint binaryInsert (cmp : A -> A -> num) (fuel : nat) (pivot : A)
  (pre : list A) : list A :=
  match fuel, pre with
  | _, [] => [pivot]
  | O, _ => (pre ++ [pivot])%list
  | S fuel', _ =>
      let mid := (List.length pre / 2)%nat in
      match skipn mid pre with
      | [] => (pre ++ [pivot])%list
      | y :: upper =>
          if precedes cmp pivot y then
            (binaryInsert cmp fuel' pivot (firstn mid pre) ++ y :: upper)%list
          else (firstn mid pre ++ y :: binaryInsert cmp fuel' pivot upper)%list
      end
  end.

Definition binaryInsertionSort (cmp : A -> A -> num) (run rest : list A)
  : list A :=
  fold_left (fun pre pivot => binaryInsert cmp (List.length pre) pivot pre)
            rest run.

Definition arraySort (cmp : A -> A -> num) (l : list A) : list A :=
  let '(run, rest) := countAndMakeRun cmp l in
  binaryInsertionSort cmp run rest.

(** [a.slice(-n)] *)
Definition sliceLast (n : nat) (l : list A) : list A :=
  skipn (List.length l - n) l.

(** [a.slice(0, n)] *)
Definition sliceFirst (n : nat) (l : list A) : list A := firstn n l.

End Arrays.

(** [new Set(l)] of fields, as the list of its elements in insertion
    order: [undefined] is an element like another, and is not the string
    that spells it. *)
Definition setAdd (s : list field) (x : field) : list field :=
  if existsb (strictEq x) s then s else (s ++ [x])%list.

Definition newSet (l : list field) : list field := fold_left setAdd l [].

(** ** Rows *)

(** A row as the CSV parser delivers it, read at the seven required
    names (further columns are carried along and never read). *)
Record csvRow : Type := mkCsvRow {
  csv_datetime : field;
  csv_date : field;
  csv_time : field;
  csv_hour : field;
  csv_weekday : field;
  csv_sender : field;
  csv_message : field
}.

(** A row of [chatData]: [datetime] is now a [Date], held by its time
    value. *)
Record chatRow : Type := mkChatRow {
  datetime : num;
  date : field;
  time : field;
  hour : field;
  weekday : field;
  sender : field;
  message : field
}.

Record dailyEntry : Type := mkDailyEntry {
  de_date : string;
  de_count : num;
  sortDate : num
}.

Record senderEntry : Type := mkSenderEntry {
  name : field;
  messages : value;
  words : value
}.

Record statsBundle : Type := mkStats {
  timelineData : list (string * num);
  dailyTimelineData : list dailyEntry;
  weekdayData : list (string * Q);
  hourData : list (string * Z);
  senderData : list senderEntry;
  topWords : list (string * num);
  topPhrases : list (string * num);
  mostActiveDay : string * num
}.

Record appState : Type := mkState {
  activeTab : string;
  chatData : list chatRow;
  stats : option statsBundle;
  searchTerm : string;
  loading : bool;
  fileUploaded : bool;
  error : string
}.

Definition setActiveTab (v : string) (st : appState) : appState :=
  mkState v (chatData st) (stats st) (searchTerm st) (loading st)
          (fileUploaded st) (error st).

Definition setChatData (v : list chatRow) (st : appState) : appState :=
  mkState (activeTab st) v (stats st) (searchTerm st) (loading st)
          (fileUploaded st) (error st).

Definition setStats (v : statsBundle) (st : appState) : appState :=
  mkState (activeTab st) (chatData st) (Some v) (searchTerm st) (loading st)
          (fileUploaded st) (error st).

Definition setLoading (v : bool) (st : appState) : appState :=
  mkState (activeTab st) (chatData st) (stats st) (searchTerm st) v
          (fileUploaded st) (error st).

Definition setFileUploaded (v : bool) (st : appState) : appState :=
  mkState (activeTab st) (chatData st) (stats st) (searchTerm st) (loading st)
          v (error st).

Definition setError (v : string) (st : appState) : appState :=
  mkState (activeTab st) (chatData st) (stats st) (searchTerm st) (loading st)
          (fileUploaded st) v.

(** The state of the component when it is mounted. *)
Definition initialState : appState :=
  mkState "upload" [] None "" false false "".

(** What becomes of an upload once a file is chosen. *)
Inductive upload : Type :=
| NoFile
| NotCsv
| ReadFailed
| ParseThrew (msg : string)
| ParseFailed (msg : string)
| ParseComplete (fields : list string) (data : list csvRow).

Definition requiredColumns : list string :=
  ["datetime"; "date"; "time"; "hour"; "weekday"; "sender"; "message"].

Definition weekdays : list string :=
  ["Sunday"; "Monday"; "Tuesday"; "Wednesday"; "Thursday"; "Friday";
   "Saturday"].

(** ** Words and phrases *)

Definition longerThan (n : nat) (w : string) : bool :=
  (n <? String.length w)%nat.

(** The tokens of a message that are longer than [n] characters. *)
Definition tokens (n : nat) (msg : string) : list string :=
  filter (longerThan n) (splitWS (stripPunctuation (toLowerCase msg))).

(** The phrases of two, then of three, consecutive words. *)
Fixpoint phrases2 (ws : list string) : list string :=
  match ws with
  | a :: ((b :: _) as t) => (a ++ " " ++ b) :: phrases2 t
  | _ => []
  end.

Fixpoint phrases3 (ws : list string) : list string :=
  match ws with
  | a :: ((b :: c :: _) as t) => (a ++ " " ++ b ++ " " ++ c) :: phrases3 t
  | _ => []
  end.

Definition wordsOf (msg : field) : list string :=
  if truthyField msg then tokens 2 (text msg) else [].

Definition phrasesOf (msg : field) : list string :=
  if truthyField msg then
    (phrases2 (tokens 1 (text msg)) ++ phrases3 (tokens 1 (text msg)))%list
  else [].

Definition wordCounts (data : list chatRow) : obj num :=
  fold_left (fun o row => fold_left countUp (wordsOf (message row)) o)
            data [].

Definition phraseCounts (data : list chatRow) : obj num :=
  fold_left (fun o row => fold_left countUp (phrasesOf (message row)) o)
            data [].

(** The comparison [(a, b) => b[1] - a[1]]. *)
Definition byCountDesc (a b : string * num) : num :=
  num_sub (snd b) (snd a).

Definition topWordsOf (data : list chatRow) : list (string * num) :=
  sliceFirst 30 (arraySort byCountDesc (entries (wordCounts data))).

Definition topPhrasesOf (data : list chatRow) : list (string * num) :=
  sliceFirst 30
    (arraySort byCountDesc
       (filter (fun e => num_ge (snd e) (Some 3))
               (entries (phraseCounts data)))).

(** ** Senders *)

Definition uniqueSenders (data : list chatRow) : list field :=
  newSet (map sender data).

Definition rowsOf (s : field) (data : list chatRow) : list chatRow :=
  filter (fun row => strictEq (sender row) s) data.

(** The senders are compared as values and the tables are keyed by their
    names: the key of a sender is [toString] of it. *)
Definition messageCountBySender (data : list chatRow) : obj num :=
  fold_left
    (fun o s =>
       assign o (toString s) (Some (Z.of_nat (List.length (rowsOf s data)))))
    (uniqueSenders data) [].

Definition wordCount (msgs : list field) : Z :=
  fold_left
    (fun total msg =>
       if negb (truthyField msg) then total
       else total
            + Z.of_nat
                (List.length (filter (longerThan 0) (splitWS (text msg)))))
    msgs 0.

Definition wordCountBySender (data : list chatRow) : obj num :=
  fold_left
    (fun o s =>
       assign o (toString s)
              (Some (wordCount (map message (rowsOf s data)))))
    (uniqueSenders data) [].

Definition senderDataOf (data : list chatRow) : list senderEntry :=
  map (fun s => mkSenderEntry s
                  (getProp (messageCountBySender data) (toString s))
                  (getProp (wordCountBySender data) (toString s)))
      (uniqueSenders data).

(** ** Weekdays *)

Definition messagesByWeekday0 : obj Z := map (fun d => (d, 0)) weekdays.

Definition daysByWeekday0 : obj (list field) :=
  map (fun d => (d, [])) weekdays.

(** One turn of the loop over the rows: a weekday that is an own property
    of the table has its counter incremented and the date of the row added
    to its set. *)
Definition weekdayStep (acc : obj Z * obj (list field)) (row : chatRow)
  : obj Z * obj (list field) :=
  let day := toString (weekday row) in
  if hasOwnProperty (fst acc) day then
    match getOwn (fst acc) day, getOwn (snd acc) day with
    | Some n, Some s =>
        (setOwn (fst acc) day (n + 1),
         setOwn (snd acc) day (setAdd s (date row)))
    | _, _ => acc
    end
  else acc.

Definition weekdayTables (data : list chatRow) : obj Z * obj (list field) :=
  fold_left weekdayStep data (messagesByWeekday0, daysByWeekday0).

(** [daysCount > 0 ? n / daysCount : 0], a division of doubles. *)
Definition average (n : Z) (daysCount : nat) : Q :=
  if (0 <? daysCount)%nat then
    binary64 (inject_Z n / inject_Z (Z.of_nat daysCount))
  else 0%Q.

Definition avgMessagesByWeekday (data : list chatRow) : obj Q :=
  let '(byDay, days) := weekdayTables data in
  fold_left
    (fun o day =>
       match getOwn byDay day, getOwn days day with
       | Some n, Some s => assign o day (average n (List.length s))
       | _, _ => o
       end)
    (keys byDay) [].

(** [x.toFixed(1)] for a double [x] that is not negative and is below
    10^21, as the decimal that the string spells: [n / 10] for the integer
    [n] that makes [n / 10 - x] as close to zero as possible, the larger
    one of two.  The [x] of this rule is the exact value of the double. *)
Definition toFixed1 (x : Q) : Q :=
  Qmake (Qfloor (x * inject_Z 10 + (1 # 2))%Q) 10.

(** [parseFloat] of a decimal: the double nearest to it. *)
Definition parseFloat (decimal : Q) : Q := binary64 decimal.

Definition weekdayDataOf (data : list chatRow) : list (string * Q) :=
  map (fun e => (fst e, parseFloat (toFixed1 (snd e))))
      (entries (avgMessagesByWeekday data)).

(** ** Hours *)

Fixpoint incrAt (l : list Z) (i : nat) : list Z :=
  match l, i with
  | [], _ => []
  | x :: l', O => (x + 1) :: l'
  | x :: l', S i' => x :: incrAt l' i'
  end.

Definition messagesByHour (data : list chatRow) : list Z :=
  fold_left
    (fun a row =>
       let h := parseInt (toString (hour row)) 10 in
       if negb (isNaN h) && num_ge h (Some 0) && num_lt h (Some 24) then
         match h with
         | Some i => incrAt a (Z.to_nat i)
         | None => a
         end
       else a)
    data (repeat 0 24).

Definition hourDataOf (data : list chatRow) : list (string * Z) :=
  let a := messagesByHour data in
  map (fun e => (ofZ (Z.of_nat (fst e)) ++ ":00", snd e))
      (combine (seq 0 (List.length a)) a).

(** ** Days *)

Definition messagesByDate (data : list chatRow) : obj num :=
  fold_left (fun o row => countUp o (toString (date row))) data [].

Definition mostActiveDayOf (data : list chatRow) : string * num :=
  fold_left
    (fun max e => if num_gt (snd e) (snd max) then e else max)
    (entries (messagesByDate data)) ("", Some 0).

(** ** The part that depends on the host *)

Section Host.

(** The offset of local time: [LocalTZA t true] at the time value [t],
    [LocalTZA t false] at the local time [t]. *)
Variable LocalTZA : Z -> bool -> Z.

(** The collation of [localeCompare]: negative, zero or positive. *)
Variable localeCompare : string -> string -> Z.

Definition UTC (t : Z) : Z := t - LocalTZA t false.

Definition LocalTime (t : Z) : Z := t + LocalTZA t true.

(** [new Date(year, month, day, hours, minutes)] *)
Definition newDate (year month day hours minutes : num) : num :=
  match year, month, day, hours, minutes with
  | Some y, Some m, Some d, Some h, Some mi =>
      TimeClip
        (UTC (MakeDate (MakeDay (MakeFullYear y) m d) (MakeTime h mi 0 0)))
  | _, _, _, _, _ => NaN
  end.

(** [new Date(r)] for a result [r] of [parseDate]; [now] is what the clock
    showed during that call.  [new Date(null)] is the epoch. *)
Definition dateOf (now : Z) (r : dateResult) : num :=
  match r with
  | DNull => Some 0
  | DNow => Some now
  | DDate y m d h mi => newDate y m d h mi
  end.

Definition getFullYear (d : num) : num :=
  match d with
  | Some t => Some (YearFromDay (Day (LocalTime t)))
  | None => NaN
  end.

Definition getMonth (d : num) : num :=
  match d with
  | Some t => Some (MonthFromDay (Day (LocalTime t)))
  | None => NaN
  end.

(** *** The parse-and-sort step of [handleFileUpload] *)

Definition parseRow (now : Z) (row : csvRow) : chatRow :=
  mkChatRow (dateOf now (parseDate (csv_date row) (csv_time row)))
            (csv_date row) (csv_time row) (csv_hour row) (csv_weekday row)
            (csv_sender row) (csv_message row).

(** [clock i] is the reading of the clock while row [i] is converted. *)
Fixpoint parseRows (clock : nat -> Z) (i : nat) (rows : list csvRow)
  : list chatRow :=
  match rows with
  | [] => []
  | row :: rows' => parseRow (clock i) row :: parseRows clock (S i) rows'
  end.

(** The comparison [(a, b) => a.datetime - b.datetime]. *)
Definition byDatetime (a b : chatRow) : num :=
  num_sub (datetime a) (datetime b).

Definition parsedData (clock : nat -> Z) (rows : list csvRow)
  : list chatRow :=
  arraySort byDatetime (parseRows clock 0 rows).

(** *** [calculateStats] *)

Definition monthKey (d : num) : string :=
  numToString (getFullYear d) ++ "-"
  ++ padStart2 (numToString (num_add (getMonth d) (Some 1))).

Definition messagesByMonth (data : list chatRow) : obj num :=
  fold_left (fun o row => countUp o (monthKey (datetime row))) data [].

Definition timelineDataOf (data : list chatRow) : list (string * num) :=
  arraySort (fun a b => Some (localeCompare (fst a) (fst b)))
            (entries (messagesByMonth data)).

Definition dailyEntryOf (e : string * num) : dailyEntry :=
  let dateParts := split "/" (fst e) in
  if (List.length dateParts =? 3)%nat then
    let day := parseInt (nth 0 dateParts "") 10 in
    let month := num_sub (parseInt (nth 1 dateParts "") 10) (Some 1) in
    let year := parseInt (nth 2 dateParts "") 10 in
    mkDailyEntry (fst e) (snd e) (newDate year month day (Some 0) (Some 0))
  else mkDailyEntry (fst e) (snd e) (Some 0).

(** The comparison [(a, b) => a.sortDate - b.sortDate]. *)
Definition bySortDate (a b : dailyEntry) : num :=
  num_sub (sortDate a) (sortDate b).

Definition dailyTimelineDataOf (data : list chatRow) : list dailyEntry :=
  sliceLast 30
    (arraySort bySortDate (map dailyEntryOf (entries (messagesByDate data)))).

(** The object that [calculateStats] hands to [setStats]. *)
Definition statsOf (data : list chatRow) : statsBundle :=
  mkStats (timelineDataOf data) (dailyTimelineDataOf data)
          (weekdayDataOf data) (hourDataOf data) (senderDataOf data)
          (topWordsOf data) (topPhrasesOf data) (mostActiveDayOf data).

(** [calculateStats] returns at once on an empty array; otherwise it
    replaces the statistics. *)
Definition calculateStats (data : list chatRow) (st : appState) : appState :=
  match data with
  | [] => st
  | _ :: _ => setStats (statsOf data) st
  end.

(** *** [handleFileUpload] *)

Definition missingColumns (headers : list string) : list string :=
  filter (fun col => negb (existsb (String.eqb col) headers))
         requiredColumns.

(** The [complete] callback of the CSV parser. *)
Definition complete (clock : nat -> Z) (headers : list string)
           (data : list csvRow) (st : appState) : appState :=
  if (0 <? List.length (missingColumns headers))%nat then
    setLoading false
      (setError ("CSV is missing required columns: "
                 ++ join ", " (missingColumns headers)) st)
  else
    let parsed := parsedData clock data in
    setActiveTab "chat"
      (setLoading false
         (setFileUploaded true
            (calculateStats parsed (setChatData parsed st)))).

Definition handleFileUpload (clock : nat -> Z) (ev : upload)
           (st : appState) : appState :=
  match ev with
  | NoFile => st
  | _ =>
      let st1 := setError "" (setLoading true st) in
      match ev with
      | NoFile => st
      | NotCsv => setLoading false (setError "Please upload a CSV file." st1)
      | ReadFailed =>
          setLoading false (setError "Failed to read the file." st1)
      | ParseThrew msg =>
          setLoading false
            (setError ("Failed to process the file: " ++ msg) st1)
      | ParseFailed msg =>
          setLoading false (setError ("Error parsing CSV: " ++ msg) st1)
      | ParseComplete fields data => complete clock fields data st1
      end
  end.

End Host.

(** A host in the UTC zone that collates by code unit. *)
Definition utcZone (t : Z) (isUTC : bool) : Z := 0.

Definition byCodeUnit (a b : string) : Z :=
  match String.compare a b with
  | Lt => -1
  | Eq => 0
  | Gt => 1
  end.

(** ** The chat view *)

Definition setSearchTerm (v : string) (st : appState) : appState :=
  mkState (activeTab st) (chatData st) (stats st) v (loading st)
          (fileUploaded st) (error st).

(** [s.startsWith(t)] and [s.includes(t)] for a string [t]. *)
Fixpoint startsWith (s t : string) : bool :=
  match t, s with
  | EmptyString, _ => true
  | String _ _, EmptyString => false
  | String c t', String d s' => Ascii.eqb d c && startsWith s' t'
  end.

Fixpoint includesStr (s t : string) : bool :=
  startsWith s t
  || match s with
     | EmptyString => false
     | String _ s' => includesStr s' t
     end.

(** [s.endsWith(t)] *)
Fixpoint endsWith (s t : string) : bool :=
  String.eqb s t
  || match s with
     | EmptyString => false
     | String _ s' => endsWith s' t
     end.

(** The test of the filter: [msg.message &&
    msg.message.toLowerCase().includes(searchTerm.toLowerCase())]. *)
Definition matches (term : string) (msg : chatRow) : bool :=
  truthyField (message msg)
  && includesStr (toLowerCase (text (message msg))) (toLowerCase term).

Definition filteredChatData (st : appState) : list chatRow :=
  if truthyStr (searchTerm st) && (0 <? List.length (chatData st))%nat then
    filter (matches (searchTerm st)) (chatData st)
  else chatData st.

(** [_.groupBy(rows, 'date')] of lodash: a row joins the array that is the
    own property of its date, or founds it; lodash defines the property,
    so that every date, [__proto__] too, is a name like another. *)
Definition groupStep (o : obj (list chatRow)) (row : chatRow)
  : obj (list chatRow) :=
  let key := toString (date row) in
  match getOwn o key with
  | Some g => setOwn o key (g ++ [row])%list
  | None => setOwn o key [row]
  end.

Definition groupBy_date (rows : list chatRow) : obj (list chatRow) :=
  fold_left groupStep rows [].

Definition groupedByDate (st : appState) : obj (list chatRow) :=
  groupBy_date (filteredChatData st).

(** The view shows "No messages found" when the groups have no name, and
    otherwise one block for each entry of the groups. *)
Definition noMessagesFound (st : appState) : bool :=
  (List.length (keys (groupedByDate st)) =? 0)%nat.

Definition chatGroups (st : appState) : list (string * list chatRow) :=
  entries (groupedByDate st).

(** [chatData.length > 0 ? chatData[0].sender : ''] *)
Definition firstSender (st : appState) : field :=
  match chatData st with
  | [] => str ""
  | row :: _ => sender row
  end.

(** [msg.sender !== firstSender] *)
Definition isSentByMe (st : appState) (msg : chatRow) : bool :=
  negb (strictEq (sender msg) (firstSender st)).

(** The time under a message:
    [msg.time ? msg.time.split(':').slice(0, 2).join(':') : '']. *)
Definition displayTime (t : field) : string :=
  if truthyField t then join ":" (sliceFirst 2 (split ":" (text t))) else "".

(** ** Files *)

(** What reading and parsing a file leads to. *)
Inductive reading : Type :=
| ReadError
| Threw (msg : string)
| ParseErr (msg : string)
| Parsed (fields : list string) (data : list csvRow).

Record file : Type := mkFile {
  file_type : string;
  file_name : string;
  file_reading : reading
}.

(** [file.type === 'text/csv' || file.name.endsWith('.csv')] *)
Definition isCsv (f : file) : bool :=
  String.eqb (file_type f) "text/csv" || endsWith (file_name f) ".csv".

(** What becomes of the upload of [event.target.files]. *)
Definition uploadOf (files : list file) : upload :=
  match files with
  | [] => NoFile
  | f :: _ =>
      if negb (String.eqb (file_type f) "text/csv")
         && negb (endsWith (file_name f) ".csv")
      then NotCsv
      else
        match file_reading f with
        | ReadError => ReadFailed
        | Threw msg => ParseThrew msg
        | ParseErr msg => ParseFailed msg
        | Parsed fields data => ParseComplete fields data
        end
  end.

(** An item of a drop: a file, or something else. *)
Inductive dropItem : Type :=
| FileItem (f : file)
| OtherItem.

Section Drop.

Variable LocalTZA : Z -> bool -> Z.
Variable localeCompare : string -> string -> Z.

(** [handleDrop]: the items are gone through in order; a file that is not
    a CSV sets the error and the loop goes on; the first CSV file is
    uploaded and ends the loop. *)
Fixpoint handleDrop (clock : nat -> Z) (items : list dropItem)
  (st : appState) : appState :=
  match items with
  | [] => st
  | OtherItem :: rest => handleDrop clock rest st
  | FileItem f :: rest =>
      if isCsv f then
        handleFileUpload LocalTZA localeCompare clock (uploadOf [f]) st
      else handleDrop clock rest (setError "Please upload a CSV file." st)
  end.

End Drop.

(** * The vocabulary of the properties *)

(** The date string is cut, on its separator, into exactly three parts. *)
Definition splitsInThree (dateStr : string) : Prop :=
  exists parts, dateParts dateStr = Some parts /\ List.length parts = 3%nat.

Definition hoursMinutes (r : dateResult) : option (num * num) :=
  match r with
  | DDate _ _ _ h mi => Some (h, mi)
  | _ => None
  end.

Definition num_le (a b : num) : bool :=
  match a, b with
  | Some x, Some y => x <=? y
  | _, _ => false
  end.

Definition num_eqb (a b : num) : bool :=
  match a, b with
  | Some x, Some y => x =? y
  | None, None => true
  | _, _ => false
  end.

Definition num_opp (a : num) : num :=
  match a with
  | Some x => Some (- x)
  | None => NaN
  end.

(** Order and validity of the keys that a sort compares. *)
Definition keyLe {A : Type} (key : A -> num) (a b : A) : Prop :=
  num_le (key a) (key b) = true.

Definition valid {A : Type} (key : A -> num) (a : A) : Prop :=
  key a <> NaN.

(** The rows are in the order of their timestamps. *)
Definition sortedByTimestamp (l : list chatRow) : Prop :=
  Sorted (keyLe datetime) l.

(** The rows whose timestamp is [t], in the order they have in [l]. *)
Definition rowsAt (t : num) (l : list chatRow) : list chatRow :=
  filter (fun r => num_eqb (datetime r) t) l.

Definition table3 : list csvRow :=
  [ mkCsvRow "" "3/1/2023" "10:00" "10" "Tuesday" "Ann" "third";
    mkCsvRow "" "x/y/z" "10:00" "10" "Monday" "Bob" "no date";
    mkCsvRow "" "1/1/2023" "10:00" "10" "Sunday" "Ann" "first" ].

Definition table4 : list csvRow :=
  [ mkCsvRow "" "3/1/2023" "10:00" "10" "Tuesday" "Ann" "c";
    mkCsvRow "" "1/1/2023" "09:00" "9" "Sunday" "Bob" "a1";
    mkCsvRow "" "" "" "0" "" "Bob" "epoch";
    mkCsvRow "" "1/1/2023" "09:00" "9" "Sunday" "Ann" "a2" ].

(** The rows of [data] whose weekday field is [day]. *)
Definition rowsOn (day : string) (data : list chatRow) : list chatRow :=
  filter (fun row => strictEq (weekday row) (str day)) data.

Definition field_dec (x y : field) : {x = y} + {x <> y}.
Proof. decide equality. apply string_dec. Defined.

(** The number of messages of a weekday, and the number of distinct
    dates among them (a date that is missing is a date of its own). *)
Definition messagesOn (day : string) (data : list chatRow) : Z :=
  Z.of_nat (List.length (rowsOn day data)).

Definition datesOn (day : string) (data : list chatRow) : nat :=
  List.length (nodup field_dec (map date (rowsOn day data))).

(** The row [r] with its weekday field replaced by [w r]. *)
Definition withWeekday (w : chatRow -> field) (r : chatRow) : chatRow :=
  mkChatRow (datetime r) (date r) (time r) (hour r) (w r) (sender r)
            (message r).

Definition monday (d : string) : chatRow :=
  mkChatRow (Some 0) d "10:00" "10" "Monday" "Ann" "hello".

Definition fourMondays : list chatRow :=
  [monday "2/1/2023"; monday "2/1/2023"; monday "9/1/2023";
   monday "16/1/2023"].

(** The four rows and one more, of a line of the file that ended before
    the sender and the message. *)
Definition withShortLine : list chatRow :=
  (fourMondays
   ++ [mkChatRow (Some 0) "23/1/2023" "10:00" "10" "Monday" undefined
                 undefined])%list.

(** Three rows: two of a sender whose name is the text [undefined], and
    between them one of a line of the file that ended before the
    sender. *)
Definition tableUndefined : list chatRow :=
  [ mkChatRow (Some 0) "2/1/2023" "10:00" "10" "Monday" "undefined"
              "one two";
    mkChatRow (Some 0) "2/1/2023" "10:01" "10" "Monday" undefined undefined;
    mkChatRow (Some 0) "2/1/2023" "10:02" "10" "Monday" "undefined"
              "three" ].

(** Twenty-three messages marked Monday on twenty distinct dates. *)
Definition mondays23 : list chatRow :=
  (map (fun d => monday (ofZ (Z.of_nat d) ++ "/1/2023")) (seq 1 20)
   ++ [monday "1/1/2023"; monday "1/1/2023"; monday "1/1/2023"])%list.

(** The doubles, whatever their exponent: a significand of at most 53 bits
    times a power of two. *)
Definition isDouble (y : Q) : Prop :=
  exists m e : Z, Z.abs m <= 2 ^ 53 /\ (y == inject_Z m * 2 ^ e)%Q.

(** The buckets of the daily timeline before they are sorted: one for each
    date string that is a property of [messagesByDate]. *)
Definition dailyBuckets (LocalTZA : Z -> bool -> Z) (data : list chatRow)
  : list dailyEntry :=
  map (dailyEntryOf LocalTZA) (entries (messagesByDate data)).

(** A table of 32 rows: the last day of the year, a row whose date is not
    a date, and the thirty days of January in order. *)
Definition januaryRow (d : nat) : csvRow :=
  mkCsvRow "" (ofZ (Z.of_nat d) ++ "/1/2023") "10:00" "10" "Monday" "Ann"
           "hello".

Definition table32 : list csvRow :=
  mkCsvRow "" "31/12/2023" "10:00" "10" "Sunday" "Ann" "happy new year"
  :: mkCsvRow "" "x/y/z" "10:00" "10" "Monday" "Bob" "no date"
  :: map januaryRow (seq 1 30).

(** The counts go down, or stay, from each entry to the next. *)
Definition countsDescending (l : list (string * num)) : Prop :=
  Sorted (fun a b => num_ge (snd a) (snd b) = true) l.

Definition negCount (e : string * num) : num := num_opp (snd e).

Definition says (d t msg : string) : csvRow :=
  mkCsvRow "" d t "10" "Monday" "Ann" msg.

(** Three messages, the second of which is the word [constructor]. *)
Definition tableConstructor : list csvRow :=
  [ says "2/1/2023" "10:00" "aaa";
    says "2/1/2023" "10:01" "constructor";
    says "2/1/2023" "10:02" "bbb bbb" ].

(** The example of the specification: two messages [a bb ccc]. *)
Definition tableExample : list csvRow :=
  [ says "2/1/2023" "10:00" "a bb ccc";
    says "2/1/2023" "10:01" "a bb ccc" ].

(** A table with one message, from a sender whose name is [__proto__]. *)
Definition tableProto : list csvRow :=
  [ mkCsvRow "" "2/1/2023" "10:00" "10" "Monday" "__proto__" "hello there" ].

Definition sumNum (l : list num) : num := fold_right num_add (Some 0) l.

(** The count a table holds for a name: 0 when it holds none, or NaN. *)
Definition tally (o : obj num) (k : string) : Z :=
  match getOwn o k with
  | Some (Some n) => n
  | _ => 0
  end.

Definition allWords (data : list chatRow) : list string :=
  flat_map (fun row => wordsOf (message row)) data.

Definition allPhrases (data : list chatRow) : list string :=
  flat_map (fun row => phrasesOf (message row)) data.

(** How many times [k] is in the list [l]. *)
Definition occurrences (l : list string) (k : string) : Z :=
  Z.of_nat (count_occ string_dec l k).

(** The entries that qualify as phrases: counted three times or more. *)
Definition frequentPhrases (data : list chatRow) : list (string * num) :=
  filter (fun e => num_ge (snd e) (Some 3)) (entries (phraseCounts data)).

(** An upload succeeds when the file is parsed and its header has all the
    required columns. *)
Definition succeeds (ev : upload) : bool :=
  match ev with
  | ParseComplete fields _ =>
      match missingColumns fields with
      | [] => true
      | _ :: _ => false
      end
  | _ => false
  end.

(** The fields that a row carries from the file to the chat. *)
Definition csvFieldsOf (r : csvRow)
  : field * field * field * field * field * field :=
  (csv_date r, csv_time r, csv_hour r, csv_weekday r, csv_sender r,
   csv_message r).

Definition fieldsOf (r : chatRow)
  : field * field * field * field * field * field :=
  (date r, time r, hour r, weekday r, sender r, message r).

(** The row [r] with its [datetime] column replaced by [f r]. *)
Definition withCsvDatetime (f : csvRow -> field) (r : csvRow) : csvRow :=
  mkCsvRow (f r) (csv_date r) (csv_time r) (csv_hour r) (csv_weekday r)
           (csv_sender r) (csv_message r).

(** The row has the hour [h]: [parseInt] of its hour field is [h]. *)
Definition hourIs (h : nat) (row : chatRow) : bool :=
  num_eqb (parseInt (toString (hour row)) 10) (Some (Z.of_nat h)).

Definition messagesAt (h : nat) (data : list chatRow) : Z :=
  Z.of_nat (List.length (filter (hourIs h) data)).

(** The month of a row, as the name of its bucket. *)
Definition monthOf (LocalTZA : Z -> bool -> Z) (row : chatRow) : string :=
  monthKey LocalTZA (datetime row).

(** Every count of the table is a positive number. *)
Definition wellCounted (o : obj num) : Prop :=
  Forall (fun e => exists n, snd e = Some n /\ 0 < n) o.

Definition sumZ (l : list Z) : Z := fold_right Z.add 0 l.

(** The sum of the counts of a table. *)
Definition totalOf (o : obj num) : Z :=
  sumZ (map (fun e => match snd e with
                      | Some n => n
                      | None => 0
                      end) o).

(** The words of a message, as [wordCountBySender] counts them: the
    pieces between white space that are not empty. *)
Definition wordsIn (msg : field) : Z :=
  if truthyField msg
  then Z.of_nat (List.length (filter (longerThan 0) (splitWS (text msg))))
  else 0.

(** The date of a row as the name of its bucket: a date that is missing
    is under the name [undefined]. *)
Definition dateName (row : chatRow) : string := toString (date row).

(** The rows of one date, in the order they have in [rows]. *)
Definition rowsDated (d : string) (rows : list chatRow) : list chatRow :=
  filter (fun r => String.eqb (dateName r) d) rows.

(** The first CSV file among the items of a drop, and whether the items
    have a file at all. *)
Fixpoint firstCsv (items : list dropItem) : option file :=
  match items with
  | [] => None
  | FileItem f :: rest => if isCsv f then Some f else firstCsv rest
  | OtherItem :: rest => firstCsv rest
  end.

Definition isFileItem (i : dropItem) : bool :=
  match i with
  | FileItem _ => true
  | OtherItem => false
  end.

(** Every character of the string passes the test. *)
Fixpoint allChars (p : ascii -> bool) (s : string) : bool :=
  match s with
  | EmptyString => true
  | String c s' => p c && allChars p s'
  end.


(** A component of a date or of a time in the format of the
    specification: one to four decimal digits. *)
Definition isDigit (c : ascii) : bool := between 48 57 c.

Definition digits (s : string) : bool :=
  allChars isDigit s && (1 <=? String.length s)%nat
  && (String.length s <=? 4)%nat.

(** [D/M/Y] or [D-M-Y] *)
Definition dateOfFormat (d : string) : Prop :=
  exists (a b c : string) (sep : ascii),
    (sep = "/"%char \/ sep = "-"%char)
    /\ digits a = true /\ digits b = true /\ digits c = true
    /\ d = a ++ String sep (b ++ String sep c).

(** [H:M] or [H:M:S] *)
Definition timeOfFormat (t : string) : Prop :=
  exists h m : string,
    digits h = true /\ digits m = true
    /\ (t = h ++ String ":" m
        \/ exists s,
             digits s = true /\ t = h ++ String ":" (m ++ String ":" s)).

(** A row whose date and time are in the format. *)
Definition rowOfFormat (row : csvRow) : Prop :=
  exists d t : string,
    csv_date row = str d /\ csv_time row = str t
    /\ dateOfFormat d /\ timeOfFormat t.

(** * Properties *)

(** ** The date resolver *)

Lemma dateParts_empty : dateParts "" = None.
Proof. reflexivity. Qed.

Lemma splitsInThree_truthy (dateStr : string) :
  splitsInThree dateStr -> truthyStr dateStr = true.
Proof.
  intros [parts [H _]]. destruct dateStr; [discriminate H | reflexivity].
Qed.

Lemma parseDate_not_three (dateStr timeStr : string) :
  ~ splitsInThree dateStr ->
  parseDate dateStr timeStr = if truthyStr dateStr then DNow else DNull.
Proof.
  intros Hn. unfold parseDate. cbn [truthyField text].
  destruct (truthyStr dateStr); simpl; [| reflexivity].
  destruct (dateParts dateStr) as [parts |] eqn:E; [| reflexivity].
  destruct (Nat.eqb_spec (List.length parts) 3) as [H3 | H3]; simpl.
  - exfalso. apply Hn. exists parts. split; [exact E | exact H3].
  - reflexivity.
Qed.

Lemma parseDate_three (dateStr timeStr : string) :
  splitsInThree dateStr ->
  exists y m d,
    parseDate dateStr timeStr
    = DDate y m d (fst (timeOf timeStr)) (snd (timeOf timeStr)).
Proof.
  intros H. pose proof (splitsInThree_truthy _ H) as Ht.
  destruct H as [parts [E H3]]. unfold parseDate.
  cbn [truthyField text].
  rewrite Ht, E. simpl negb.
  apply Nat.eqb_eq in H3. rewrite H3. simpl negb. cbv iota.
  destruct (num_gt (parseInt (nth 0 parts "") 0) (Some 12));
    destruct (timeOf timeStr) as [h mi]; simpl; eauto.
Qed.

(** C3, as stated, fails at the empty date string: it is not cut in three,
    and [parseDate] answers [null], not the current time. *)
Lemma parseDate_empty_is_not_now :
  ~ splitsInThree "" /\ parseDate "" "10:30" = DNull
  /\ parseDate "" "10:30" <> DNow.
Proof.
  split; [| split].
  - intros [parts [H _]]. discriminate H.
  - reflexivity.
  - discriminate.
Qed.

(** C3, amended: a date string that is not cut into exactly three parts
    makes [parseDate] return the current time when the string is not empty
    and [null] when it is empty; [handleFileUpload] wraps the result in a
    [Date], which is the current time in the first case and the epoch in
    the second, so the timestamp of the row is a valid time. *)
Theorem parseDate_fallback
  (LocalTZA : Z -> bool -> Z) (dateStr timeStr : string) (now : Z) :
  ~ splitsInThree dateStr ->
  (dateStr <> "" -> parseDate dateStr timeStr = DNow)
  /\ (dateStr = "" -> parseDate dateStr timeStr = DNull)
  /\ dateOf LocalTZA now (parseDate dateStr timeStr)
     = Some (if truthyStr dateStr then now else 0).
Proof.
  intros Hn. rewrite (parseDate_not_three _ timeStr Hn).
  destruct dateStr as [| c s]; simpl.
  - split; [intros H; contradiction H; reflexivity |].
    split; reflexivity.
  - split; [reflexivity |]. split; [discriminate | reflexivity].
Qed.

Lemma parseDate_fallback_witness :
  ~ splitsInThree "20230520"
  /\ parseDate "20230520" "14:30" = DNow
  /\ dateOf utcZone 1700000000000 (parseDate "20230520" "14:30")
     = Some 1700000000000.
Proof.
  assert (Hn : ~ splitsInThree "20230520")
    by (intros [parts [H _]]; discriminate H).
  destruct (parseDate_fallback utcZone "20230520" "14:30" 1700000000000 Hn)
    as [H1 [_ H3]].
  split; [exact Hn |]. split; [apply H1; discriminate | exact H3].
Defined.

(** C4: with a first component above 12 the two-digit year is left as it
    is, and the [Date] constructor reads 23 as 1923; the other branch adds
    2000. *)
Theorem parseDate_two_digit_year :
  parseDate "13/1/23" ""
  = DDate (Some 23) (Some 0) (Some 13) (Some 0) (Some 0)
  /\ getFullYear utcZone (dateOf utcZone 0 (parseDate "13/1/23" ""))
     = Some 1923
  /\ parseDate "1/1/23" ""
     = DDate (Some 2023) (Some 0) (Some 1) (Some 0) (Some 0)
  /\ getFullYear utcZone (dateOf utcZone 0 (parseDate "1/1/23" ""))
     = Some 2023.
Proof. repeat split; vm_compute; reflexivity. Qed.

(** *** The time of day *)

Lemma append_empty_r (s : string) : s ++ "" = s.
Proof. induction s; simpl; [reflexivity | f_equal; assumption]. Qed.

Lemma append_snoc (cur : string) (c : ascii) (a : string) :
  (cur ++ String c "") ++ a = cur ++ String c a.
Proof. induction cur; simpl; [reflexivity | f_equal; assumption]. Qed.

Lemma split_from_no_sep (sep : ascii) (a : string) :
  includes a sep = false ->
  forall cur rest,
    split_from sep cur (a ++ String sep rest)
    = (cur ++ a) :: split_from sep "" rest.
Proof.
  induction a as [| c a IH]; intros Hn cur rest; simpl.
  - rewrite Ascii.eqb_refl, append_empty_r. reflexivity.
  - simpl in Hn. apply orb_false_iff in Hn. destruct Hn as [Hc Ha].
    rewrite Hc, (IH Ha), append_snoc. reflexivity.
Qed.

Lemma split_from_no_sep_end (sep : ascii) (a : string) :
  includes a sep = false ->
  forall cur, split_from sep cur a = [cur ++ a].
Proof.
  induction a as [| c a IH]; intros Hn cur; simpl.
  - rewrite append_empty_r. reflexivity.
  - simpl in Hn. apply orb_false_iff in Hn. destruct Hn as [Hc Ha].
    rewrite Hc, (IH Ha), append_snoc. reflexivity.
Qed.

Lemma split_from_length (sep : ascii) (s cur : string) :
  (1 <= List.length (split_from sep cur s))%nat.
Proof.
  revert cur. induction s as [| c s IH]; intros cur; simpl.
  - lia.
  - destruct (Ascii.eqb c sep); simpl; [lia | apply IH].
Qed.

(** C5, as stated, fails at a time whose components are not numeric: hour
    and minute are then NaN, not 0. *)
Lemma parseDate_time_not_numeric :
  hoursMinutes (parseDate "20/05/2023" "ab:cd") = Some (NaN, NaN)
  /\ hoursMinutes (parseDate "20/05/2023" "ab:cd") <> Some (Some 0, Some 0).
Proof. split; [reflexivity | discriminate]. Qed.

(** C5, amended: for an accepted date, the time string is cut on [:];
    an empty string or one with fewer than two components gives hour 0
    and minute 0; otherwise hour and minute are [parseInt] of the first
    two components, whatever follows them: a seconds component is
    ignored. *)
Theorem parseDate_time
  (dateStr timeStr : string) :
  splitsInThree dateStr ->
  (exists y m d,
     parseDate dateStr timeStr
     = DDate y m d (fst (timeOf timeStr)) (snd (timeOf timeStr)))
  /\ (timeStr = "" \/ (List.length (split ":" timeStr) < 2)%nat ->
      timeOf timeStr = (Some 0, Some 0))
  /\ (timeStr <> "" -> (2 <= List.length (split ":" timeStr))%nat ->
      timeOf timeStr
      = (parseInt (nth 0 (split ":" timeStr) "") 10,
         parseInt (nth 1 (split ":" timeStr) "") 10))
  /\ (forall h mi rest,
        includes h ":" = false -> includes mi ":" = false ->
        timeStr = h ++ ":" ++ mi ++ ":" ++ rest ->
        timeOf timeStr = (parseInt h 10, parseInt mi 10)
        /\ timeOf timeStr = timeOf (h ++ ":" ++ mi)).
Proof.
  intros H3. split; [apply parseDate_three; exact H3 |].
  split; [| split].
  - intros [He | Hl]; unfold timeOf; cbn [truthyField text].
    + subst timeStr. reflexivity.
    + destruct (truthyStr timeStr); [| reflexivity].
      destruct (Nat.leb_spec 2 (List.length (split ":" timeStr)));
        [lia | reflexivity].
  - intros Hne Hl. unfold timeOf. cbn [truthyField text].
    destruct timeStr as [| c s]; [contradiction Hne; reflexivity |].
    simpl truthyStr. cbv iota.
    destruct (Nat.leb_spec 2 (List.length (split ":" (String c s))));
      [reflexivity | lia].
  - intros h mi rest Hh Hmi E.
    assert (T : forall s, truthyStr (h ++ ":" ++ s) = true)
      by (intros s; destruct h; reflexivity).
    assert (A : timeOf (h ++ ":" ++ mi ++ ":" ++ rest)
                = (parseInt h 10, parseInt mi 10)).
    { unfold timeOf. cbn [truthyField text]. rewrite T. unfold split.
      change (h ++ ":" ++ mi ++ ":" ++ rest)
        with (h ++ String ":" (mi ++ String ":" rest)).
      rewrite (split_from_no_sep ":" h Hh).
      rewrite (split_from_no_sep ":" mi Hmi).
      pose proof (split_from_length ":" rest "").
      simpl. reflexivity. }
    assert (B : timeOf (h ++ ":" ++ mi) = (parseInt h 10, parseInt mi 10)).
    { unfold timeOf. cbn [truthyField text]. rewrite T. unfold split.
      change (h ++ ":" ++ mi) with (h ++ String ":" mi).
      rewrite (split_from_no_sep ":" h Hh).
      rewrite (split_from_no_sep_end ":" mi Hmi).
      simpl. reflexivity. }
    subst timeStr. split; [exact A | rewrite A, B; reflexivity].
Qed.

Lemma parseDate_time_witness :
  splitsInThree "20/05/2023"
  /\ parseDate "20/05/2023" "14:30:59"
     = DDate (Some 2023) (Some 4) (Some 20) (Some 14) (Some 30)
  /\ timeOf "14:30:59" = timeOf "14:30".
Proof.
  assert (H3 : splitsInThree "20/05/2023")
    by (exists ["20"; "05"; "2023"]; split; reflexivity).
  destruct (parseDate_time "20/05/2023" "14:30:59" H3) as [_ [_ [_ H]]].
  destruct (H "14" "30" "59" eq_refl eq_refl eq_refl) as [_ Hs].
  split; [exact H3 |]. split; [reflexivity | exact Hs].
Defined.

(** ** The upload *)

(** C6, as stated, fails: on an empty array [calculateStats] hands no
    bundle to [setStats]; from the initial state the statistics stay
    absent. *)
Lemma calculateStats_empty_no_bundle :
  stats (calculateStats utcZone byCodeUnit [] initialState) = None.
Proof. reflexivity. Qed.

(** C6, amended: applied to an empty array, [calculateStats] returns at
    once, without an error and without a bundle: the state, statistics
    included, is what it was.  So an upload that has all the columns and
    no row succeeds, shows the chat tab with no message, and leaves the
    statistics as they were. *)
Theorem calculateStats_empty
  (LocalTZA : Z -> bool -> Z) (localeCompare : string -> string -> Z)
  (st : appState) :
  calculateStats LocalTZA localeCompare [] st = st
  /\ forall (clock : nat -> Z) (headers : list string),
       missingColumns headers = [] ->
       let st' := handleFileUpload LocalTZA localeCompare clock
                                   (ParseComplete headers []) st in
       stats st' = stats st
       /\ chatData st' = []
       /\ fileUploaded st' = true
       /\ activeTab st' = "chat"
       /\ error st' = "".
Proof.
  split; [reflexivity |].
  intros clock headers Hm st'. subst st'.
  unfold handleFileUpload, complete. rewrite Hm.
  repeat split; reflexivity.
Qed.

Lemma calculateStats_empty_witness :
  missingColumns requiredColumns = []
  /\ stats (handleFileUpload utcZone byCodeUnit (fun _ => 0)
                             (ParseComplete requiredColumns []) initialState)
     = None
  /\ fileUploaded (handleFileUpload utcZone byCodeUnit (fun _ => 0)
                      (ParseComplete requiredColumns []) initialState)
     = true.
Proof.
  assert (Hm : missingColumns requiredColumns = []) by reflexivity.
  destruct (proj2 (calculateStats_empty utcZone byCodeUnit initialState)
              (fun _ => 0) requiredColumns Hm) as [H1 [_ [H3 _]]].
  split; [exact Hm |]. split; [exact H1 | exact H3].
Defined.

(** On rows, [calculateStats] installs the bundle [statsOf]: the figures
    below are those of the state. *)
Lemma calculateStats_bundle
  (LocalTZA : Z -> bool -> Z) (localeCompare : string -> string -> Z)
  (data : list chatRow) (st : appState) :
  data <> [] ->
  stats (calculateStats LocalTZA localeCompare data st)
  = Some (statsOf LocalTZA localeCompare data).
Proof.
  intros H. destruct data; [contradiction H; reflexivity | reflexivity].
Qed.

Lemma missingColumns_spec (headers : list string) (col : string) :
  In col (missingColumns headers)
  <-> In col requiredColumns /\ ~ In col headers.
Proof.
  unfold missingColumns. rewrite filter_In, negb_true_iff.
  split; intros [Hr Hn]; (split; [exact Hr |]).
  - intros Hin. apply not_true_iff_false in Hn. apply Hn.
    apply existsb_exists. exists col. split; [exact Hin |].
    apply String.eqb_refl.
  - apply not_true_iff_false. intros He. apply Hn.
    apply existsb_exists in He. destruct He as [x [Hx Hex]].
    apply String.eqb_eq in Hex. subst x. exact Hx.
Qed.

Lemma requiredColumns_NoDup : NoDup requiredColumns.
Proof.
  unfold requiredColumns.
  repeat (constructor;
          [simpl; intros H;
           repeat (destruct H as [H | H]; [discriminate H |]); exact H |]).
  constructor.
Qed.

(** C2: when the header lacks a required column, the upload ends with the
    error that lists the missing columns, each once, in the order of the
    required ones, and these are exactly the required columns that the
    header does not have; the rows and the statistics are the earlier
    ones. *)
Theorem upload_missing_columns
  (LocalTZA : Z -> bool -> Z) (localeCompare : string -> string -> Z)
  (clock : nat -> Z) (headers : list string) (data : list csvRow)
  (st : appState) :
  (exists col, In col requiredColumns /\ ~ In col headers) ->
  let st' := handleFileUpload LocalTZA localeCompare clock
                              (ParseComplete headers data) st in
  error st'
  = "CSV is missing required columns: " ++ join ", " (missingColumns headers)
  /\ (forall col, In col (missingColumns headers)
                  <-> In col requiredColumns /\ ~ In col headers)
  /\ NoDup (missingColumns headers)
  /\ chatData st' = chatData st
  /\ stats st' = stats st
  /\ fileUploaded st' = fileUploaded st
  /\ activeTab st' = activeTab st
  /\ loading st' = false.
Proof.
  intros [col Hcol] st'.
  assert (Hm : (0 <? List.length (missingColumns headers))%nat = true).
  { apply Nat.ltb_lt. apply missingColumns_spec in Hcol.
    destruct (missingColumns headers); [contradiction Hcol | simpl; lia]. }
  subst st'. unfold handleFileUpload, complete. rewrite Hm.
  split; [reflexivity |].
  split; [intros c; apply missingColumns_spec |].
  split; [apply NoDup_filter, requiredColumns_NoDup |].
  repeat split; reflexivity.
Qed.

Lemma upload_missing_columns_witness :
  (exists col, In col requiredColumns
               /\ ~ In col ["datetime"; "date"; "time"; "sender"; "message"])
  /\ error (handleFileUpload utcZone byCodeUnit (fun _ => 0)
              (ParseComplete ["datetime"; "date"; "time"; "sender"; "message"]
                             [])
              initialState)
     = "CSV is missing required columns: hour, weekday".
Proof.
  assert (H : exists col,
             In col requiredColumns
             /\ ~ In col ["datetime"; "date"; "time"; "sender"; "message"]).
  { exists "hour". split; [simpl; tauto |].
    simpl. intros K.
    repeat (destruct K as [K | K]; [discriminate K |]). exact K. }
  split; [exact H |].
  exact (proj1 (upload_missing_columns utcZone byCodeUnit (fun _ => 0)
                  ["datetime"; "date"; "time"; "sender"; "message"] []
                  initialState H)).
Defined.

(** ** Sorting *)

Section SortPermutation.

Context {A : Type}.
Variable cmp : A -> A -> num.

Lemma binaryInsert_Permutation (fuel : nat) (pivot : A) :
  forall pre, Permutation (binaryInsert cmp fuel pivot pre) (pivot :: pre).
Proof.
  induction fuel as [| fuel IH]; intros pre.
  - destruct pre as [| x pre]; [apply Permutation_refl |].
    cbn [binaryInsert]. apply Permutation_sym, Permutation_cons_append.
  - destruct pre as [| x pre]; [apply Permutation_refl |].
    cbn [binaryInsert].
    set (mid := (List.length (x :: pre) / 2)%nat).
    pose proof (firstn_skipn mid (x :: pre)) as S.
    destruct (skipn mid (x :: pre)) as [| y upper];
      [apply Permutation_sym, Permutation_cons_append |].
    rewrite <- S at 3.
    destruct (precedes cmp pivot y).
    + change (pivot :: firstn mid (x :: pre) ++ y :: upper)%list
        with ((pivot :: firstn mid (x :: pre)) ++ y :: upper)%list.
      apply Permutation_app_tail, IH.
    + apply Permutation_sym.
      apply perm_trans
        with (firstn mid (x :: pre) ++ pivot :: y :: upper)%list.
      * apply Permutation_middle.
      * apply Permutation_app_head.
        apply perm_trans with (y :: pivot :: upper); [apply perm_swap |].
        apply perm_skip, Permutation_sym, IH.
Qed.

(** The length of the list is fuel enough: more of it changes nothing. *)
Lemma binaryInsert_fuel (pivot : A) (fuel1 : nat) :
  forall fuel2 pre,
    (List.length pre <= fuel1)%nat -> (List.length pre <= fuel2)%nat ->
    binaryInsert cmp fuel1 pivot pre = binaryInsert cmp fuel2 pivot pre.
Proof.
  induction fuel1 as [| fuel1 IH]; intros fuel2 pre H1 H2.
  - destruct pre as [| x pre]; [| simpl in H1; lia].
    destruct fuel2; reflexivity.
  - destruct pre as [| x pre]; [destruct fuel2; reflexivity |].
    destruct fuel2 as [| fuel2]; [simpl in H2; lia |].
    cbn [binaryInsert].
    set (pre0 := x :: pre) in *.
    assert (Hpos : (0 < List.length pre0)%nat) by (simpl; lia).
    clearbody pre0.
    set (mid := (List.length pre0 / 2)%nat).
    assert (Hmid : (mid < List.length pre0)%nat)
      by (apply Nat.div_lt; lia).
    pose proof (length_firstn mid pre0) as Lf.
    pose proof (length_skipn mid pre0) as Ls.
    destruct (skipn mid pre0) as [| y upper]; [reflexivity |].
    cbn [List.length] in Ls.
    destruct (precedes cmp pivot y).
    + rewrite (IH fuel2 (firstn mid pre0)) by lia. reflexivity.
    + rewrite (IH fuel2 upper) by lia. reflexivity.
Qed.

Lemma binaryInsertionSort_Permutation (rest : list A) :
  forall run,
    Permutation (binaryInsertionSort cmp run rest) (run ++ rest).
Proof.
  unfold binaryInsertionSort.
  induction rest as [| pivot rest IH]; intros run; cbn [fold_left].
  - rewrite app_nil_r. apply Permutation_refl.
  - apply perm_trans with (1 := IH _).
    apply perm_trans with ((pivot :: run) ++ rest)%list.
    + apply Permutation_app_tail, binaryInsert_Permutation.
    + apply Permutation_middle.
Qed.

Lemma countAndMakeRun_Permutation (l : list A) :
  Permutation (fst (countAndMakeRun cmp l) ++ snd (countAndMakeRun cmp l)) l.
Proof.
  unfold countAndMakeRun.
  destruct l as [| a0 [| a1 l']];
    [apply Permutation_refl | apply Permutation_refl |].
  cbv zeta. cbn [fst snd].
  set (n := S (S (runLength cmp (precedes cmp a1 a0) a1 l'))).
  apply perm_trans
    with (firstn n (a0 :: a1 :: l') ++ skipn n (a0 :: a1 :: l'))%list;
    [| rewrite firstn_skipn; apply Permutation_refl].
  apply Permutation_app_tail.
  destruct (precedes cmp a1 a0);
    [apply Permutation_sym, Permutation_rev | apply Permutation_refl].
Qed.

Lemma arraySort_Permutation (l : list A) : Permutation (arraySort cmp l) l.
Proof.
  unfold arraySort.
  pose proof (countAndMakeRun_Permutation l) as H.
  destruct (countAndMakeRun cmp l) as [run rest]. cbn [fst snd] in H.
  apply perm_trans with (2 := H). apply binaryInsertionSort_Permutation.
Qed.

Lemma arraySort_length (l : list A) :
  List.length (arraySort cmp l) = List.length l.
Proof. apply Permutation_length, arraySort_Permutation. Qed.

End SortPermutation.

Lemma StronglySorted_app {A : Type} (R : A -> A -> Prop) (a b : list A) :
  StronglySorted R (a ++ b)
  <-> StronglySorted R a /\ StronglySorted R b
      /\ forall x y, In x a -> In y b -> R x y.
Proof.
  induction a as [| z a IH]; simpl.
  - split; [intros H; repeat split; [constructor | exact H | tauto] | tauto].
  - split.
    + intros H. inversion H as [| ? ? Hs Hf]; subst.
      apply IH in Hs. destruct Hs as [Ha [Hb Hc]].
      rewrite Forall_app in Hf. destruct Hf as [Hfa Hfb].
      split; [constructor; assumption |]. split; [exact Hb |].
      intros x y [Hx | Hx] Hy.
      * subst x. rewrite Forall_forall in Hfb. apply Hfb. exact Hy.
      * apply Hc; assumption.
    + intros [Ha [Hb Hc]]. inversion Ha as [| ? ? Hs Hf]; subst.
      constructor.
      * apply IH. split; [exact Hs |]. split; [exact Hb |].
        intros x y Hx Hy. apply Hc; [right; exact Hx | exact Hy].
      * rewrite Forall_app. split; [exact Hf |].
        rewrite Forall_forall. intros y Hy. apply Hc; [left; reflexivity |].
        exact Hy.
Qed.

Lemma StronglySorted_impl_in {A : Type} (R S : A -> A -> Prop) (l : list A) :
  (forall x y, In x l -> In y l -> R x y -> S x y) ->
  StronglySorted R l -> StronglySorted S l.
Proof.
  intros H Hs. induction Hs as [| x l Hs IH Hf].
  - constructor.
  - constructor.
    + apply IH. intros a b Ha Hb. apply H; right; assumption.
    + rewrite Forall_forall in *. intros y Hy.
      apply H; [left; reflexivity | right; exact Hy | apply Hf; exact Hy].
Qed.

Lemma StronglySorted_rev {A : Type} (R : A -> A -> Prop) (l : list A) :
  StronglySorted R l -> StronglySorted (fun a b => R b a) (rev l).
Proof.
  intros Hs. induction Hs as [| x l Hs IH Hf]; simpl.
  - constructor.
  - apply StronglySorted_app. split; [exact IH |].
    split; [constructor; constructor |].
    intros a b Ha [Hb | []]. subst b. apply in_rev in Ha.
    rewrite Forall_forall in Hf. apply Hf. exact Ha.
Qed.

Section SortByKey.

Context {A : Type}.
Variable cmp : A -> A -> num.
Variable key : A -> num.

(** The comparison is negative exactly when the first key is a number
    below the second. *)
Hypothesis cmp_key :
  forall a b, num_lt (cmp a b) (Some 0) = num_lt (key a) (key b).

Lemma keyLe_trans (a b c : A) : keyLe key a b -> keyLe key b c -> keyLe key a c.
Proof.
  unfold keyLe, num_le.
  destruct (key a), (key b), (key c); try discriminate.
  rewrite !Z.leb_le. lia.
Qed.

Lemma precedes_true (x y : A) :
  precedes cmp x y = true ->
  keyLe key x y /\ forall k, num_eqb (key x) k && num_eqb (key y) k = false.
Proof.
  unfold precedes. rewrite cmp_key. unfold num_lt, keyLe, num_le, num_eqb.
  destruct (key x) as [a |], (key y) as [b |]; try discriminate.
  intros H. apply Z.ltb_lt in H. split; [apply Z.leb_le; lia |].
  intros [c |]; [| reflexivity].
  destruct (Z.eqb_spec a c), (Z.eqb_spec b c); try reflexivity. lia.
Qed.

Lemma precedes_false (x y : A) :
  valid key x -> valid key y -> precedes cmp x y = false -> keyLe key y x.
Proof.
  unfold precedes, valid, NaN. rewrite cmp_key.
  unfold num_lt, keyLe, num_le.
  destruct (key x) as [a |], (key y) as [b |]; try congruence.
  intros _ _ H. apply Z.ltb_ge in H. apply Z.leb_le. exact H.
Qed.

(** Inserting [pivot] into a sorted list keeps it sorted, and puts it
    after the elements of its key. *)
Lemma binaryInsert_spec (pivot : A) (fuel : nat) :
  forall pre,
    (List.length pre <= fuel)%nat ->
    valid key pivot -> Forall (valid key) pre ->
    StronglySorted (keyLe key) pre ->
    StronglySorted (keyLe key) (binaryInsert cmp fuel pivot pre)
    /\ forall k,
         filter (fun a => num_eqb (key a) k) (binaryInsert cmp fuel pivot pre)
         = filter (fun a => num_eqb (key a) k) (pre ++ [pivot]).
Proof.
  induction fuel as [| fuel IH]; intros pre Hlen Hp Hv Hs.
  - destruct pre as [| x pre]; [| simpl in Hlen; lia].
    split; [repeat constructor | reflexivity].
  - destruct pre as [| x pre];
      [split; [repeat constructor | reflexivity] |].
    cbn [binaryInsert].
    set (pre0 := x :: pre) in *.
    assert (Hpos : (0 < List.length pre0)%nat) by (simpl; lia).
    clearbody pre0.
    set (mid := (List.length pre0 / 2)%nat).
    assert (Hmid : (mid < List.length pre0)%nat)
      by (apply Nat.div_lt; lia).
    pose proof (firstn_skipn mid pre0) as S.
    pose proof (length_firstn mid pre0) as Lf.
    pose proof (length_skipn mid pre0) as Ls.
    set (lower := firstn mid pre0) in *.
    destruct (skipn mid pre0) as [| y upper];
      [simpl in Ls; lia |].
    cbn [List.length] in Ls.
    assert (Ll : (List.length lower <= fuel)%nat) by lia.
    assert (Lu : (List.length upper <= fuel)%nat) by lia.
    rewrite <- S in Hv, Hs. rewrite <- S. clear S.
    rewrite Forall_app in Hv. destruct Hv as [Hvl Hvu].
    inversion Hvu as [| ? ? Hvy Hvu']; subst.
    apply StronglySorted_app in Hs. destruct Hs as [Hsl [Hsu Hc]].
    inversion Hsu as [| ? ? Hsu' Hfu]; subst.
    rewrite Forall_forall in Hfu.
    destruct (precedes cmp pivot y) eqn:E.
    + apply precedes_true in E. destruct E as [Hpy Hne].
      destruct (IH lower Ll Hp Hvl Hsl) as [I1 I2].
      split.
      * apply StronglySorted_app. split; [exact I1 |].
        split; [exact Hsu |].
        intros a b Ha Hb.
        apply (Permutation_in _ (binaryInsert_Permutation cmp fuel pivot lower))
          in Ha.
        destruct Ha as [Ha | Ha]; [subst a | apply Hc; assumption].
        destruct Hb as [Hb | Hb]; [subst b; exact Hpy |].
        apply keyLe_trans with y; [exact Hpy | apply Hfu; exact Hb].
      * intros k. rewrite !filter_app, I2, filter_app, <- !app_assoc.
        f_equal. cbn [filter app].
        destruct (num_eqb (key pivot) k) eqn:Ek;
          [| rewrite app_nil_r; reflexivity].
        assert (F : forall z, In z (y :: upper) -> num_eqb (key z) k = false).
        { intros z Hz.
          assert (Hyz : keyLe key y z)
            by (destruct Hz as [Hz | Hz];
                [subst z; unfold keyLe, num_le; unfold valid, NaN in Hvy;
                 destruct (key y); [apply Z.leb_refl | congruence]
                | apply Hfu; exact Hz]).
          specialize (Hne k). rewrite Ek in Hne. cbn [andb] in Hne.
          unfold keyLe, num_le in Hyz, Hpy. unfold num_eqb in *.
          destruct (key pivot) as [p |], (key y) as [b |], (key z) as [c |],
            k as [k' |]; try discriminate; try reflexivity.
          apply Z.leb_le in Hyz, Hpy. apply Z.eqb_eq in Ek.
          apply Z.eqb_neq in Hne. apply Z.eqb_neq. lia. }
        assert (F' : filter (fun a => num_eqb (key a) k) (y :: upper) = []).
        { clear -F. induction (y :: upper) as [| z l IHl]; [reflexivity |].
          cbn [filter]. rewrite (F z) by (left; reflexivity).
          apply IHl. intros z' Hz'. apply F. right. exact Hz'. }
        cbn [filter] in F'. rewrite F'. reflexivity.
    + apply (precedes_false _ _ Hp Hvy) in E.
      destruct (IH upper Lu Hp Hvu' Hsu') as [I1 I2].
      split.
      * apply StronglySorted_app. split; [exact Hsl |].
        assert (Hy : forall b, In b (binaryInsert cmp fuel pivot upper) ->
                               keyLe key y b).
        { intros b Hb.
          apply (Permutation_in _
                   (binaryInsert_Permutation cmp fuel pivot upper)) in Hb.
          destruct Hb as [Hb | Hb]; [subst b; exact E | apply Hfu; exact Hb]. }
        split.
        -- constructor; [exact I1 |]. rewrite Forall_forall. exact Hy.
        -- intros a b Ha [Hb | Hb].
           ++ subst b. apply Hc; [exact Ha | left; reflexivity].
           ++ apply keyLe_trans with y;
                [apply Hc; [exact Ha | left; reflexivity] | apply Hy; exact Hb].
      * intros k. rewrite !filter_app. cbn [filter].
        rewrite I2, filter_app. cbn [filter].
        destruct (num_eqb (key y) k); rewrite <- ?app_assoc; reflexivity.
Qed.

Lemma binaryInsertionSort_spec (rest : list A) :
  forall run,
    Forall (valid key) run -> Forall (valid key) rest ->
    StronglySorted (keyLe key) run ->
    StronglySorted (keyLe key) (binaryInsertionSort cmp run rest)
    /\ forall k,
         filter (fun a => num_eqb (key a) k) (binaryInsertionSort cmp run rest)
         = filter (fun a => num_eqb (key a) k) (run ++ rest).
Proof.
  unfold binaryInsertionSort.
  induction rest as [| pivot rest IH]; intros run Hv Hr Hs; cbn [fold_left].
  - rewrite app_nil_r. split; [exact Hs | reflexivity].
  - inversion Hr as [| ? ? Hp Hr']; subst.
    destruct (binaryInsert_spec pivot (List.length run) run (le_n _) Hp Hv Hs)
      as [B1 B2].
    assert (Hv' : Forall (valid key)
                    (binaryInsert cmp (List.length run) pivot run)).
    { apply (Permutation_Forall
               (Permutation_sym
                  (binaryInsert_Permutation cmp (List.length run) pivot run))).
      constructor; assumption. }
    destruct (IH _ Hv' Hr' B1) as [I1 I2].
    split; [exact I1 |]. intros k.
    rewrite I2, !filter_app, B2, filter_app, <- app_assoc.
    f_equal. cbn [filter]. destruct (num_eqb (key pivot) k); reflexivity.
Qed.

(** The elements after [prev] that continue its run form a chain. *)
Lemma runLength_chain (desc : bool) (l : list A) :
  forall prev,
    Sorted (fun a b => precedes cmp b a = desc)
           (prev :: firstn (runLength cmp desc prev l) l).
Proof.
  induction l as [| cur l IH]; intros prev; cbn [runLength].
  - repeat constructor.
  - destruct (Bool.eqb (precedes cmp cur prev) desc) eqn:E.
    + cbn [firstn]. constructor; [apply IH |].
      constructor. apply Bool.eqb_prop. exact E.
    + repeat constructor.
Qed.

Lemma filter_singleton (P : A -> bool) (l : list A) :
  (List.length (filter P l) <= 1)%nat -> rev (filter P l) = filter P l.
Proof.
  destruct (filter P l) as [| x [| y t]]; simpl; intros H;
    [reflexivity | reflexivity | lia].
Qed.

(** The first run is in order, and its elements of one key are in the
    order they had. *)
Lemma countAndMakeRun_spec (l : list A) :
  Forall (valid key) l ->
  StronglySorted (keyLe key) (fst (countAndMakeRun cmp l))
  /\ forall k,
       filter (fun a => num_eqb (key a) k)
              (fst (countAndMakeRun cmp l) ++ snd (countAndMakeRun cmp l))
       = filter (fun a => num_eqb (key a) k) l.
Proof.
  intros Hv. unfold countAndMakeRun.
  destruct l as [| a0 [| a1 l']];
    [split; [constructor | reflexivity] |
     split; [repeat constructor | reflexivity] |].
  cbv zeta. cbn [fst snd].
  set (desc := precedes cmp a1 a0).
  set (n := S (S (runLength cmp desc a1 l'))).
  assert (C : Sorted (fun a b => precedes cmp b a = desc)
                (firstn n (a0 :: a1 :: l'))).
  { unfold n. cbn [firstn]. constructor; [apply runLength_chain |].
    constructor. reflexivity. }
  assert (Hvr : Forall (valid key) (firstn n (a0 :: a1 :: l'))).
  { rewrite <- (firstn_skipn n (a0 :: a1 :: l')) in Hv.
    rewrite Forall_app in Hv. apply Hv. }
  set (run := firstn n (a0 :: a1 :: l')) in *.
  assert (S0 : forall k,
             filter (fun a => num_eqb (key a) k)
                    (run ++ skipn n (a0 :: a1 :: l'))
             = filter (fun a => num_eqb (key a) k) (a0 :: a1 :: l'))
    by (intros k; unfold run; rewrite firstn_skipn; reflexivity).
  clearbody run n. destruct desc.
  - (* a descending run, reversed *)
    assert (SS : StronglySorted (fun a b => precedes cmp b a = true) run).
    { apply Sorted_StronglySorted; [| exact C].
      intros a b c Hab Hbc. unfold precedes in *. rewrite cmp_key in *.
      unfold num_lt in *.
      destruct (key a), (key b), (key c); try discriminate.
      apply Z.ltb_lt in Hab, Hbc. apply Z.ltb_lt. lia. }
    split.
    + apply StronglySorted_rev in SS.
      apply (StronglySorted_impl_in _ _ _ (fun x y _ _ H =>
                                          proj1 (precedes_true x y H))).
      exact SS.
    + intros k. rewrite <- S0, !filter_app. f_equal.
      rewrite filter_rev. apply filter_singleton.
      clear -SS cmp_key. induction SS as [| x t SS IH Hf]; [simpl; lia |].
      cbn [filter]. destruct (num_eqb (key x) k) eqn:E; [| exact IH].
      assert (F : filter (fun a => num_eqb (key a) k) t = []).
      { clear IH SS. rewrite Forall_forall in Hf.
        induction t as [| z t IHt]; [reflexivity |].
        cbn [filter].
        destruct (precedes_true z x (Hf z (or_introl eq_refl))) as [_ Hne].
        specialize (Hne k). rewrite E, andb_true_r in Hne. rewrite Hne.
        apply IHt. intros z' Hz'. apply Hf. right. exact Hz'. }
      rewrite F. simpl. lia.
  - (* an ascending run *)
    split; [| exact S0].
    assert (C' : Sorted (keyLe key) run).
    { clear S0. induction C as [| x t C IH Hd]; [constructor |].
      inversion Hvr as [| ? ? Hx Ht]; subst.
      constructor; [apply IH; exact Ht |].
      destruct Hd as [| y t' Hxy]; constructor.
      inversion Ht; subst. apply precedes_false; assumption. }
    apply Sorted_StronglySorted; [| exact C'].
    intros a b c. apply keyLe_trans.
Qed.

Lemma arraySort_spec (l : list A) :
  Forall (valid key) l ->
  StronglySorted (keyLe key) (arraySort cmp l)
  /\ forall k,
       filter (fun a => num_eqb (key a) k) (arraySort cmp l)
       = filter (fun a => num_eqb (key a) k) l.
Proof.
  intros Hv. unfold arraySort.
  destruct (countAndMakeRun_spec l Hv) as [R1 R2].
  pose proof (countAndMakeRun_Permutation cmp l) as P.
  destruct (countAndMakeRun cmp l) as [run rest]. cbn [fst snd] in *.
  apply (Permutation_Forall (Permutation_sym P)) in Hv.
  rewrite Forall_app in Hv. destruct Hv as [Hv1 Hv2].
  destruct (binaryInsertionSort_spec rest run Hv1 Hv2 R1) as [B1 B2].
  split; [exact B1 |]. intros k. rewrite B2. apply R2.
Qed.

Lemma arraySort_sorted (l : list A) :
  Forall (valid key) l -> StronglySorted (keyLe key) (arraySort cmp l).
Proof. intros Hv. apply arraySort_spec. exact Hv. Qed.

(** Stability: the elements of one key keep their order. *)
Lemma arraySort_stable (k : num) (l : list A) :
  Forall (valid key) l ->
  filter (fun a => num_eqb (key a) k) (arraySort cmp l)
  = filter (fun a => num_eqb (key a) k) l.
Proof. intros Hv. apply arraySort_spec. exact Hv. Qed.

(** A key that is NaN compares with nothing: a list of two or more
    elements in which it occurs is in no order. *)
Lemma Sorted_valid (l : list A) :
  Sorted (keyLe key) l -> (2 <= List.length l)%nat -> Forall (valid key) l.
Proof.
  intros Hs. induction Hs as [| x l Hs IH Hd]; intros Hlen.
  - constructor.
  - destruct l as [| y l']; [simpl in Hlen; lia |].
    inversion Hd as [| ? ? Hxy]; subst.
    assert (Hv : valid key x /\ valid key y).
    { unfold keyLe, num_le in Hxy. unfold valid.
      destruct (key x), (key y); try discriminate.
      split; discriminate. }
    constructor; [apply Hv |].
    destruct l' as [| z l'']; [constructor; [apply Hv | constructor] |].
    apply IH. simpl. lia.
Qed.

End SortByKey.

(** ** The parse-and-sort step *)

Lemma byDatetime_key (a b : chatRow) :
  num_lt (byDatetime a b) (Some 0) = num_lt (datetime a) (datetime b).
Proof.
  unfold byDatetime, num_sub, num_lt.
  destruct (datetime a) as [x |], (datetime b) as [y |]; try reflexivity.
  destruct (Z.ltb_spec (x - y) 0), (Z.ltb_spec x y); try reflexivity; lia.
Qed.

Lemma parseRows_length
  (LocalTZA : Z -> bool -> Z) (clock : nat -> Z) (rows : list csvRow) :
  forall i, List.length (parseRows LocalTZA clock i rows) = List.length rows.
Proof.
  induction rows as [| r rows IH]; intros i; simpl; [| rewrite IH];
    reflexivity.
Qed.

(** *** Rows in the format of the specification

    A date [D/M/Y] or [D-M-Y] and a time [H:M] or [H:M:S], of components
    of one to four digits, resolve to a valid timestamp on every host
    whose local time is within a day of UTC. *)

Lemma includes_middle (a : string) (c : ascii) (b : string) :
  includes (a ++ String c b) c = true.
Proof.
  induction a as [| d a IH]; simpl.
  - rewrite Ascii.eqb_refl. reflexivity.
  - rewrite IH. apply orb_true_r.
Qed.

Lemma digitOf_digit (radix : Z) (c : ascii) :
  isDigit c = true -> 10 <= radix ->
  exists d, digitOf radix c = Some d /\ 0 <= d <= 9.
Proof.
  intros H Hr. unfold digitOf, isDigit in *. rewrite H.
  unfold between in H. apply andb_true_iff in H. destruct H as [H1 H2].
  apply N.leb_le in H1, H2.
  exists (Z.of_N (code c) - 48).
  destruct (Z.ltb_spec (Z.of_N (code c) - 48) radix);
    [split; [reflexivity | lia] | lia].
Qed.

Lemma digitsValue_digits (s : string) :
  forall a,
    allChars isDigit s = true -> 0 <= a ->
    exists v,
      digitsValue 10 (Some a) s = Some v
      /\ 0 <= v < (a + 1) * 10 ^ Z.of_nat (String.length s).
Proof.
  induction s as [| c s IH]; intros a Hd Ha.
  - exists a. split; [reflexivity |]. simpl. lia.
  - cbn [allChars] in Hd. apply andb_true_iff in Hd. destruct Hd as [Hc Hs].
    destruct (digitOf_digit 10 c Hc ltac:(lia)) as [d [Ed Bd]].
    cbn [digitsValue]. rewrite Ed.
    destruct (IH (10 * a + d) Hs ltac:(lia)) as [v [Ev Bv]].
    exists v. split; [exact Ev |].
    cbn [String.length]. rewrite Nat2Z.inj_succ, Z.pow_succ_r by lia.
    nia.
Qed.

Lemma isDigit_chars (c : ascii) :
  isDigit c = true ->
  isWhiteSpace c = false /\ c <> "-"%char /\ c <> "+"%char
  /\ c <> "/"%char /\ c <> ":"%char.
Proof.
  destruct c as [[] [] [] [] [] [] [] []]; vm_compute; intros H;
    try discriminate H; repeat split; discriminate.
Qed.

Lemma parseInt_digits (s : string) :
  digits s = true -> exists v, parseInt s 10 = Some v /\ 0 <= v <= 9999.
Proof.
  unfold digits. rewrite !andb_true_iff. intros [[Hd H1] H4].
  apply Nat.leb_le in H1, H4.
  destruct s as [| c s]; [simpl in H1; lia |].
  pose proof Hd as Hd'. cbn [allChars] in Hd'.
  apply andb_true_iff in Hd'. destruct Hd' as [Hc Hs].
  destruct (isDigit_chars c Hc) as [W [M [P _]]].
  destruct (digitsValue_digits (String c s) 0 Hd ltac:(lia)) as [v [Ev Bv]].
  exists v. split.
  - unfold parseInt. cbn [trimStart]. rewrite W.
    assert (E : match String c s with
                | String "-" r => (-1, r)
                | String "+" r => (1, r)
                | _ => (1, String c s)
                end = (1, String c s)).
    { destruct c as [[] [] [] [] [] [] [] []]; try reflexivity;
        [contradiction P | contradiction M]; reflexivity. }
    rewrite E. cbn [Z.eqb orb Z.ltb Z.compare Pos.compare Pos.compare_cont].
    cbn [digitsValue] in *.
    destruct (digitOf 10 c) as [d |] eqn:Dc.
    + unfold NaN. cbn [Pos.eqb]. rewrite Ev. f_equal. lia.
    + destruct (digitOf_digit 10 c Hc ltac:(lia)) as [d [Ed _]]. congruence.
  - assert (10 ^ Z.of_nat (String.length (String c s)) <= 10 ^ 4)
      by (apply Z.pow_le_mono_r; lia).
    change (10 ^ 4) with 10000 in *. lia.
Qed.

Lemma includes_app (x y : string) (c : ascii) :
  includes (x ++ y) c = includes x c || includes y c.
Proof.
  induction x as [| d x IH]; simpl; [reflexivity |].
  rewrite IH, orb_assoc. reflexivity.
Qed.

Lemma digits_allChars (s : string) :
  digits s = true -> allChars isDigit s = true /\ s <> "".
Proof.
  unfold digits. rewrite !andb_true_iff. intros [[H1 H2] _].
  split; [exact H1 |]. intros E. subst s. discriminate H2.
Qed.

Lemma digits_without (sep : ascii) (s : string) :
  isDigit sep = false -> allChars isDigit s = true -> includes s sep = false.
Proof.
  intros Hsep. induction s as [| d s IH]; intros H; [reflexivity |].
  cbn [allChars] in H. apply andb_true_iff in H. destruct H as [Hd Hs].
  cbn [includes]. rewrite (IH Hs), orb_false_r.
  destruct (Ascii.eqb_spec d sep) as [E | E]; [| reflexivity].
  subst d. congruence.
Qed.

Lemma dateParts_format (a b c : string) (sep : ascii) :
  sep = "/"%char \/ sep = "-"%char ->
  digits a = true -> digits b = true -> digits c = true ->
  dateParts (a ++ String sep (b ++ String sep c)) = Some [a; b; c].
Proof.
  intros Hsep Ha Hb Hc.
  destruct (digits_allChars a Ha) as [Da _].
  destruct (digits_allChars b Hb) as [Db _].
  destruct (digits_allChars c Hc) as [Dc _].
  assert (S : forall s, isDigit s = false ->
                split s (a ++ String s (b ++ String s c)) = [a; b; c]).
  { intros s Hs. unfold split.
    rewrite split_from_no_sep by (apply digits_without; assumption).
    rewrite split_from_no_sep by (apply digits_without; assumption).
    rewrite split_from_no_sep_end by (apply digits_without; assumption).
    reflexivity. }
  unfold dateParts. destruct Hsep as [E | E]; subst sep.
  - rewrite includes_middle. rewrite S by reflexivity. reflexivity.
  - assert (N : includes (a ++ String "-" (b ++ String "-" c)) "/" = false).
    { rewrite includes_app. cbn [includes]. rewrite includes_app.
      cbn [includes].
      rewrite !(digits_without "/") by (assumption || reflexivity).
      reflexivity. }
    rewrite N, includes_middle. rewrite S by reflexivity. reflexivity.
Qed.

Lemma timeOf_format (t : string) :
  timeOfFormat t ->
  exists h mi, timeOf (str t) = (Some h, Some mi)
               /\ 0 <= h <= 9999 /\ 0 <= mi <= 9999.
Proof.
  intros [h [m [Hh [Hm Ht]]]].
  destruct (digits_allChars h Hh) as [Dh Nh].
  destruct (digits_allChars m Hm) as [Dm _].
  destruct (parseInt_digits h Hh) as [vh [Eh Bh]].
  destruct (parseInt_digits m Hm) as [vm [Em Bm]].
  exists vh, vm. split; [| split; assumption].
  assert (T : truthyStr t = true).
  { destruct Ht as [Ht | [s [_ Ht]]]; subst t;
      (destruct h; [contradiction Nh; reflexivity | reflexivity]). }
  unfold timeOf. cbn [truthyField text]. rewrite T.
  destruct Ht as [Ht | [s [Hs Ht]]]; subst t; unfold split.
  - rewrite split_from_no_sep
      by (apply digits_without; [reflexivity | assumption]).
    rewrite split_from_no_sep_end
      by (apply digits_without; [reflexivity | assumption]).
    cbn [List.length Nat.leb nth append]. rewrite Eh, Em. reflexivity.
  - destruct (digits_allChars s Hs) as [Ds _].
    rewrite split_from_no_sep
      by (apply digits_without; [reflexivity | assumption]).
    rewrite split_from_no_sep
      by (apply digits_without; [reflexivity | assumption]).
    rewrite split_from_no_sep_end
      by (apply digits_without; [reflexivity | assumption]).
    cbn [List.length Nat.leb nth append]. rewrite Eh, Em. reflexivity.
Qed.

Lemma parseDate_format (d t : string) :
  dateOfFormat d -> timeOfFormat t ->
  exists y m dd h mi,
    parseDate (str d) (str t)
    = DDate (Some y) (Some m) (Some dd) (Some h) (Some mi)
    /\ 0 <= y <= 11999 /\ -1 <= m <= 9998 /\ 0 <= dd <= 9999
    /\ 0 <= h <= 9999 /\ 0 <= mi <= 9999.
Proof.
  intros [a [b [c [sep [Hsep [Ha [Hb [Hc Hd]]]]]]]] Ht.
  destruct (timeOf_format t Ht) as [h [mi [Et [Bh Bmi]]]].
  destruct (parseInt_digits a Ha) as [va [Ea Ba]].
  destruct (parseInt_digits b Hb) as [vb [Eb Bb]].
  destruct (parseInt_digits c Hc) as [vc [Ec Bc]].
  destruct (digits_allChars a Ha) as [_ Na].
  unfold parseDate. cbn [truthyField text].
  assert (T : truthyStr d = true)
    by (subst d; destruct a; [contradiction Na; reflexivity | reflexivity]).
  rewrite T. cbn [negb]. subst d.
  rewrite (dateParts_format a b c sep Hsep Ha Hb Hc).
  cbn [List.length Nat.eqb negb nth]. rewrite Et, Ea, Eb, Ec.
  cbn [num_sub num_lt num_add].
  destruct (num_gt (parseInt a 0) (Some 12)).
  - exists vc, (vb - 1), va, h, mi. split; [reflexivity |]. lia.
  - destruct (Z.ltb_spec vc 100).
    + exists (vc + 2000), (vb - 1), va, h, mi. split; [reflexivity |]. lia.
    + exists vc, (vb - 1), va, h, mi. split; [reflexivity |]. lia.
Qed.

Lemma monthStart_bounds (leap : bool) (m : Z) :
  0 <= m < 12 -> 0 <= monthStart leap m <= 335.
Proof.
  intros H.
  assert (C : m = 0 \/ m = 1 \/ m = 2 \/ m = 3 \/ m = 4 \/ m = 5 \/ m = 6
              \/ m = 7 \/ m = 8 \/ m = 9 \/ m = 10 \/ m = 11) by lia.
  repeat (destruct C as [C | C]; [subst m; destruct leap; vm_compute;
                                  split; discriminate |]).
  subst m. destruct leap; vm_compute; split; discriminate.
Qed.

Lemma newDate_valid (LocalTZA : Z -> bool -> Z) (y m d h mi : Z) :
  (forall t b, Z.abs (LocalTZA t b) <= msPerDay) ->
  0 <= y <= 11999 -> -1 <= m <= 9998 -> 0 <= d <= 9999 ->
  0 <= h <= 9999 -> 0 <= mi <= 9999 ->
  newDate LocalTZA (Some y) (Some m) (Some d) (Some h) (Some mi) <> NaN.
Proof.
  intros Hz By Bm Bd Bh Bmi. unfold newDate, TimeClip, UTC.
  set (t := MakeDate (MakeDay (MakeFullYear y) m d) (MakeTime h mi 0 0)).
  specialize (Hz t false).
  assert (Bt : Z.abs t <= 1000000000000000).
  { unfold t, MakeDate, MakeDay, MakeTime, MakeFullYear, DayFromYear,
      msPerDay.
    pose proof (monthStart_bounds
                  (InLeapYear
                     ((if (0 <=? y) && (y <=? 99) then 1900 + y else y)
                      + m / 12)) (m mod 12)
                  (Z.mod_pos_bound m 12 ltac:(lia))) as Bs.
    set (ms := monthStart _ _) in *. clearbody ms.
    set (Y := if (0 <=? y) && (y <=? 99) then 1900 + y else y).
    assert (BY : 0 <= Y <= 13899)
      by (unfold Y; destruct ((0 <=? y) && (y <=? 99)); lia).
    clearbody Y.
    assert (Bq : -1 <= m / 12 <= 834)
      by (split; [apply Z.div_le_lower_bound | apply Z.div_le_upper_bound];
          lia).
    set (q := m / 12) in *. clearbody q.
    assert (B4 : -500 <= (Y + q - 1969) / 4 <= 3200)
      by (split; [apply Z.div_le_lower_bound | apply Z.div_le_upper_bound];
          lia).
    assert (B100 : -20 <= (Y + q - 1901) / 100 <= 130)
      by (split; [apply Z.div_le_lower_bound | apply Z.div_le_upper_bound];
          lia).
    assert (B400 : -5 <= (Y + q - 1601) / 400 <= 40)
      by (split; [apply Z.div_le_lower_bound | apply Z.div_le_upper_bound];
          lia).
    set (q4 := (Y + q - 1969) / 4) in *.
    set (q100 := (Y + q - 1901) / 100) in *.
    set (q400 := (Y + q - 1601) / 400) in *.
    clearbody q4 q100 q400.
    apply Z.abs_le. split; lia. }
  unfold msPerDay in Hz.
  destruct (Z.ltb_spec 8640000000000000 (Z.abs (t - LocalTZA t false)));
    [lia | discriminate].
Qed.

Lemma rowsOfFormat_resolve
  (LocalTZA : Z -> bool -> Z) (clock : nat -> Z) (rows : list csvRow) :
  (forall t b, Z.abs (LocalTZA t b) <= msPerDay) ->
  Forall rowOfFormat rows ->
  forall i,
    Forall (fun r => datetime r <> NaN) (parseRows LocalTZA clock i rows).
Proof.
  intros Hz Hf. induction Hf as [| row rows Hr Hf IH]; intros i.
  - constructor.
  - cbn [parseRows]. constructor; [| apply IH].
    destruct Hr as [d [t [Ed [Et [Hd Ht]]]]].
    unfold parseRow. cbn [datetime]. rewrite Ed, Et.
    destruct (parseDate_format d t Hd Ht)
      as [y [m [dd [h [mi [E [By [Bm [Bd [Bh Bmi]]]]]]]]]].
    rewrite E. cbn [dateOf]. apply newDate_valid; assumption.
Qed.

(** Outside the format of the specification: a date of three components
    that are not numbers resolves to an invalid date, and every comparison
    with it is NaN.  No arrangement of the rows of such a table is sorted
    by timestamp, whatever the order the sort leaves them in. *)
Lemma parsedData_invalid_date_unsorted :
  map datetime (parseRows utcZone (fun _ => 0) 0 table3)
  = [Some 1672740000000; NaN; Some 1672567200000]
  /\ ~ sortedByTimestamp (parsedData utcZone (fun _ => 0) table3)
  /\ forall l, Permutation l (parseRows utcZone (fun _ => 0) 0 table3) ->
               ~ sortedByTimestamp l.
Proof.
  assert (P : forall l,
             Permutation l (parseRows utcZone (fun _ => 0) 0 table3) ->
             ~ sortedByTimestamp l).
  { intros l Hp Hs.
    apply Sorted_valid in Hs.
    - apply (Permutation_Forall Hp) in Hs.
      inversion Hs as [| ? ? _ Hs']; subst.
      inversion Hs' as [| ? ? Hbad _]; subst.
      apply Hbad. reflexivity.
    - rewrite (Permutation_length Hp). simpl. lia. }
  split; [vm_compute; reflexivity |].
  split; [| exact P].
  apply P. apply arraySort_Permutation.
Qed.

(** C1: a valid input table is one whose rows all resolve to a timestamp,
    as the dates and times of the format of the specification do (lemma
    [rowsOfFormat_resolve]), and the rows without a date.  For such a
    table the parse-and-sort step returns as many rows as it was
    given, a rearrangement of them that is sorted by timestamp,
    non-decreasing, in which the rows of equal timestamp keep their
    original order; and that sequence is what an upload with all the
    required columns installs as the chat data. *)
Theorem parsedData_sorted_stable
  (LocalTZA : Z -> bool -> Z) (localeCompare : string -> string -> Z)
  (clock : nat -> Z) (rows : list csvRow) :
  Forall (fun r => datetime r <> NaN) (parseRows LocalTZA clock 0 rows) ->
  List.length (parsedData LocalTZA clock rows) = List.length rows
  /\ Permutation (parsedData LocalTZA clock rows)
                 (parseRows LocalTZA clock 0 rows)
  /\ sortedByTimestamp (parsedData LocalTZA clock rows)
  /\ StronglySorted (keyLe datetime) (parsedData LocalTZA clock rows)
  /\ (forall t, rowsAt t (parsedData LocalTZA clock rows)
                = rowsAt t (parseRows LocalTZA clock 0 rows))
  /\ forall (headers : list string) (st : appState),
       missingColumns headers = [] ->
       chatData (handleFileUpload LocalTZA localeCompare clock
                                  (ParseComplete headers rows) st)
       = parsedData LocalTZA clock rows.
Proof.
  intros Hv. unfold parsedData.
  assert (Hs : StronglySorted (keyLe datetime)
                 (arraySort byDatetime (parseRows LocalTZA clock 0 rows)))
    by (apply (arraySort_sorted byDatetime datetime byDatetime_key);
        exact Hv).
  split; [rewrite arraySort_length; apply parseRows_length |].
  split; [apply arraySort_Permutation |].
  split; [apply StronglySorted_Sorted; exact Hs |].
  split; [exact Hs |].
  split; [intros t;
          apply (arraySort_stable byDatetime datetime byDatetime_key);
          exact Hv |].
  intros headers st Hm. unfold handleFileUpload, complete. rewrite Hm.
  simpl. unfold calculateStats, parsedData.
  destruct (arraySort byDatetime (parseRows LocalTZA clock 0 rows));
    reflexivity.
Qed.

Lemma parsedData_sorted_stable_witness :
  Forall (fun r => datetime r <> NaN)
         (parseRows utcZone (fun _ => 1700000000000) 0 table4)
  /\ missingColumns requiredColumns = []
  /\ sortedByTimestamp (parsedData utcZone (fun _ => 1700000000000) table4)
  /\ map message
         (chatData (handleFileUpload utcZone byCodeUnit
                      (fun _ => 1700000000000)
                      (ParseComplete requiredColumns table4) initialState))
     = map str ["epoch"; "a1"; "a2"; "c"].
Proof.
  assert (Hv : Forall (fun r => datetime r <> NaN)
                 (parseRows utcZone (fun _ => 1700000000000) 0 table4))
    by (repeat constructor; discriminate).
  assert (Hm : missingColumns requiredColumns = []) by reflexivity.
  destruct (parsedData_sorted_stable utcZone byCodeUnit
              (fun _ => 1700000000000) table4 Hv)
    as [_ [_ [Hs [_ [_ Hu]]]]].
  split; [exact Hv |]. split; [exact Hm |]. split; [exact Hs |].
  rewrite (Hu requiredColumns initialState Hm). vm_compute. reflexivity.
Defined.

(** ** Facts about objects and sets *)

Section ObjectFacts.

Context {V : Type}.

Lemma getOwn_setOwn (o : obj V) (k k' : string) (v : V) :
  getOwn (setOwn o k v) k'
  = if String.eqb k k' then Some v else getOwn o k'.
Proof.
  induction o as [| [k0 v0] o IH]; simpl.
  - destruct (String.eqb k k'); reflexivity.
  - destruct (String.eqb_spec k0 k) as [E | E]; simpl.
    + subst k0. destruct (String.eqb k k'); reflexivity.
    + rewrite IH. destruct (String.eqb_spec k0 k') as [E' | E'].
      * subst k0. destruct (String.eqb_spec k k'); [contradiction E; auto |].
        reflexivity.
      * reflexivity.
Qed.

Lemma setOwn_keys (o : obj V) (k : string) (v : V) :
  getOwn o k <> None -> map fst (setOwn o k v) = map fst o.
Proof.
  induction o as [| [k0 v0] o IH]; simpl; intros H.
  - contradiction H; reflexivity.
  - destruct (String.eqb k0 k); simpl; [reflexivity |].
    rewrite IH; [reflexivity | exact H].
Qed.

Lemma setOwn_new (o : obj V) (k : string) (v : V) :
  getOwn o k = None -> setOwn o k v = (o ++ [(k, v)])%list.
Proof.
  induction o as [| [k0 v0] o IH]; simpl; intros H; [reflexivity |].
  destruct (String.eqb k0 k); [discriminate H |].
  rewrite IH; [reflexivity | exact H].
Qed.

Lemma getOwn_app (o1 o2 : obj V) (k : string) :
  getOwn (o1 ++ o2)%list k
  = match getOwn o1 k with
    | Some v => Some v
    | None => getOwn o2 k
    end.
Proof.
  induction o1 as [| [k0 v0] o1 IH]; simpl; [reflexivity |].
  destruct (String.eqb k0 k); [reflexivity | exact IH].
Qed.

Lemma getOwn_None (o : obj V) (k : string) :
  getOwn o k = None <-> ~ In k (map fst o).
Proof.
  induction o as [| [k0 v0] o IH]; simpl.
  - tauto.
  - destruct (String.eqb_spec k0 k) as [E | E].
    + split; [discriminate | intros H; contradiction H; auto].
    + rewrite IH. tauto.
Qed.

(** Writing, one after the other, the distinct names [ks] into an object
    that has none of them appends them in that order. *)
Lemma assign_all (f : string -> V) (ks : list string) :
  NoDup ks -> ~ In "__proto__" ks ->
  forall o : obj V,
    (forall k, In k ks -> getOwn o k = None) ->
    fold_left (fun o k => assign o k (f k)) ks o
    = (o ++ map (fun k => (k, f k)) ks)%list.
Proof.
  induction ks as [| k ks IH]; intros Hnd Hp o Ho; simpl.
  - rewrite app_nil_r. reflexivity.
  - inversion Hnd as [| ? ? Hk Hnd']; subst.
    unfold assign at 2.
    destruct (String.eqb_spec k "__proto__") as [E | E];
      [exfalso; apply Hp; left; exact E |].
    rewrite setOwn_new by (apply Ho; left; reflexivity).
    rewrite IH.
    + rewrite <- app_assoc. reflexivity.
    + exact Hnd'.
    + intros H. apply Hp. right. exact H.
    + intros k' Hk'. rewrite getOwn_app.
      rewrite (Ho k') by (right; exact Hk'). simpl.
      destruct (String.eqb_spec k k'); [subst; contradiction | reflexivity].
Qed.

(** The same for names computed from the elements of a list. *)
Lemma assign_all_keyed {A : Type} (key : A -> string) (g : A -> V)
  (l : list A) :
  NoDup (map key l) -> ~ In "__proto__" (map key l) ->
  forall o : obj V,
    (forall a, In a l -> getOwn o (key a) = None) ->
    fold_left (fun o a => assign o (key a) (g a)) l o
    = (o ++ map (fun a => (key a, g a)) l)%list.
Proof.
  induction l as [| a l IH]; intros Hnd Hp o Ho; simpl.
  - rewrite app_nil_r. reflexivity.
  - simpl in Hnd, Hp. inversion Hnd as [| ? ? Hk Hnd']; subst.
    unfold assign at 2.
    destruct (String.eqb_spec (key a) "__proto__") as [E | E];
      [exfalso; apply Hp; left; exact E |].
    rewrite setOwn_new by (apply Ho; left; reflexivity).
    rewrite IH.
    + rewrite <- app_assoc. reflexivity.
    + exact Hnd'.
    + intros H. apply Hp. right. exact H.
    + intros b Hb. rewrite getOwn_app.
      rewrite (Ho b) by (right; exact Hb). simpl.
      destruct (String.eqb_spec (key a) (key b)) as [E' | E'];
        [| reflexivity].
      exfalso. apply Hk. rewrite E'. apply in_map. exact Hb.
Qed.

(** An object without array indices among its names enumerates in
    creation order. *)
Lemma entries_no_index (o : obj V) :
  Forall (fun k => arrayIndex k = None) (map fst o) -> entries o = o.
Proof.
  intros H. unfold entries, indexed.
  assert (E1 : flat_map (fun e : string * V =>
                           match arrayIndex (fst e) with
                           | Some n => [(n, e)]
                           | None => []
                           end) o = []).
  { induction o as [| e o IH]; simpl; [reflexivity |].
    inversion H as [| ? ? He Ho]; subst. rewrite He. simpl.
    apply IH. exact Ho. }
  rewrite E1. simpl.
  induction o as [| e o IH]; simpl; [reflexivity |].
  inversion H as [| ? ? He Ho]; subst. rewrite He. f_equal.
  apply IH; [exact Ho |].
  simpl in E1. rewrite He in E1. exact E1.
Qed.

End ObjectFacts.

Lemma fold_left_ext_in {A B : Type} (f g : A -> B -> A) (l : list B) :
  (forall a x, In x l -> f a x = g a x) ->
  forall a, fold_left f l a = fold_left g l a.
Proof.
  induction l as [| x l IH]; intros H a; simpl; [reflexivity |].
  rewrite (H a x) by (left; reflexivity).
  apply IH. intros a' x' Hx'. apply H. right. exact Hx'.
Qed.

Lemma existsb_eqb_In (x : string) (s : list string) :
  existsb (String.eqb x) s = true <-> In x s.
Proof.
  rewrite existsb_exists. split.
  - intros [y [Hy E]]. apply String.eqb_eq in E. subst y. exact Hy.
  - intros H. exists x. split; [exact H | apply String.eqb_refl].
Qed.

Lemma strictEq_spec (x y : field) : reflect (x = y) (strictEq x y).
Proof.
  destruct x as [| s], y as [| t]; simpl;
    try (constructor; congruence).
  destruct (String.eqb_spec s t); constructor; congruence.
Qed.

Lemma strictEq_eq (x y : field) : strictEq x y = true <-> x = y.
Proof.
  destruct (strictEq_spec x y); split; congruence.
Qed.

Lemma strictEq_refl (x : field) : strictEq x x = true.
Proof. apply strictEq_eq. reflexivity. Qed.

Lemma strictEq_str (s t : string) : strictEq (str s) (str t) = String.eqb s t.
Proof. reflexivity. Qed.

(** Two fields with the same name are the same field, unless one is
    missing and the other is the string [undefined]. *)
Lemma toString_inj (x y : field) :
  toString x = toString y ->
  x = y \/ (x = undefined /\ y = str "undefined")
  \/ (x = str "undefined" /\ y = undefined).
Proof.
  destruct x as [| s], y as [| t]; simpl; intros E.
  - left. reflexivity.
  - right. left. subst t. split; reflexivity.
  - right. right. subst s. split; reflexivity.
  - left. subst t. reflexivity.
Qed.

Lemma existsb_strictEq_In (x : field) (s : list field) :
  existsb (strictEq x) s = true <-> In x s.
Proof.
  rewrite existsb_exists. split.
  - intros [y [Hy E]]. apply strictEq_eq in E. subst y. exact Hy.
  - intros H. exists x. split; [exact H | apply strictEq_refl].
Qed.

Lemma setAdd_In (s : list field) (x y : field) :
  In y (setAdd s x) <-> In y s \/ y = x.
Proof.
  unfold setAdd. destruct (existsb (strictEq x) s) eqn:E.
  - apply existsb_strictEq_In in E. split; [tauto |].
    intros [H | H]; [exact H | subst y; exact E].
  - rewrite in_app_iff. simpl. intuition congruence.
Qed.

Lemma setAdd_NoDup (s : list field) (x : field) :
  NoDup s -> NoDup (setAdd s x).
Proof.
  intros H. unfold setAdd. destruct (existsb (strictEq x) s) eqn:E.
  - exact H.
  - apply NoDup_app; [exact H | constructor; [simpl; tauto | constructor] |].
    intros a Ha Hx. simpl in Hx. destruct Hx as [Hx | []]. subst a.
    apply existsb_strictEq_In in Ha. congruence.
Qed.

Lemma fold_setAdd_spec (l s : list field) :
  NoDup s ->
  NoDup (fold_left setAdd l s)
  /\ forall y, In y (fold_left setAdd l s) <-> In y s \/ In y l.
Proof.
  revert s. induction l as [| x l IH]; intros s Hs; simpl.
  - split; [exact Hs | tauto].
  - destruct (IH (setAdd s x) (setAdd_NoDup s x Hs)) as [H1 H2].
    split; [exact H1 |]. intros y. rewrite H2, setAdd_In.
    intuition congruence.
Qed.

Lemma newSet_NoDup (l : list field) : NoDup (newSet l).
Proof. apply (fold_setAdd_spec l []). constructor. Qed.

Lemma newSet_In (l : list field) (y : field) : In y (newSet l) <-> In y l.
Proof.
  unfold newSet. destruct (fold_setAdd_spec l [] (NoDup_nil _)) as [_ H].
  rewrite H. simpl. tauto.
Qed.

(** The size of a set is the number of distinct elements put in it. *)
Lemma newSet_length (l : list field) :
  List.length (newSet l) = List.length (nodup field_dec l).
Proof.
  apply Permutation_length, NoDup_Permutation.
  - apply newSet_NoDup.
  - apply NoDup_nodup.
  - intros y. rewrite newSet_In, nodup_In. tauto.
Qed.

(** ** Doubles *)

Lemma roundHalfEven_near (p q : Z) :
  0 < q -> 2 * Z.abs (roundHalfEven p q * q - p) <= q.
Proof.
  intros Hq. unfold roundHalfEven.
  pose proof (Z.div_mod p q ltac:(lia)) as E.
  pose proof (Z.mod_pos_bound p q Hq) as B.
  destruct (Z.compare_spec (2 * (p mod q)) q) as [C | C | C];
    [destruct (Z.even (p / q)) | |]; nia.
Qed.

Lemma nearestInteger_half (x : Q) :
  (Qabs (inject_Z (nearestInteger x) - x) <= 1 # 2)%Q.
Proof.
  unfold nearestInteger. destruct x as [p q]. cbn [Qnum Qden].
  pose proof (roundHalfEven_near p (Z.pos q) ltac:(lia)) as H.
  set (m := roundHalfEven p (Z.pos q)) in *. clearbody m.
  apply Qabs_Qle_condition.
  unfold Qle, Qminus, Qplus, Qopp, inject_Z. cbn [Qnum Qden]. split; lia.
Qed.

Lemma nearestInteger_nearest (x : Q) (k : Z) :
  (Qabs (inject_Z (nearestInteger x) - x) <= Qabs (inject_Z k - x))%Q.
Proof.
  pose proof (nearestInteger_half x) as H.
  set (m := nearestInteger x) in *. clearbody m.
  destruct (Z.eq_dec k m) as [E | E]; [subst k; apply Qle_refl |].
  apply Qabs_Qle_condition in H. destruct H as [H1 H2].
  assert (D : (inject_Z k <= inject_Z m - 1 \/ inject_Z m + 1 <= inject_Z k)%Q).
  { destruct (Z_lt_le_dec k m) as [L | L]; [left | right];
      unfold Qle, Qminus, Qplus, Qopp, inject_Z; cbn [Qnum Qden]; lia. }
  apply Qle_trans with (1 # 2)%Q.
  - apply Qabs_Qle_condition. split; assumption.
  - destruct D as [D | D].
    + pose proof (Qle_Qabs (- (inject_Z k - x))) as A.
      rewrite Qabs_opp in A. lra.
    + pose proof (Qle_Qabs (inject_Z k - x)) as A. lra.
Qed.

Lemma two_pos (e : Z) : (0 < 2 ^ e)%Q.
Proof. apply Qpower_0_lt. reflexivity. Qed.

Lemma two_plus (a b : Z) : (2 ^ (a + b) == 2 ^ a * 2 ^ b)%Q.
Proof. apply Qpower_plus. discriminate. Qed.

Lemma two_opp (a : Z) : (2 ^ (- a) * 2 ^ a == 1)%Q.
Proof.
  rewrite <- two_plus. replace (- a + a) with 0 by lia. reflexivity.
Qed.

Lemma two_Z (n : Z) : 0 <= n -> (inject_Z (2 ^ n) == 2 ^ n)%Q.
Proof. intros H. apply Zpower_Qpower. exact H. Qed.

Lemma scaled_bounds (x t a b P D c : Q) :
  (0 < a)%Q -> (0 < b)%Q -> (0 < t)%Q ->
  (a <= P)%Q -> (P < 2 * a)%Q -> (b <= D)%Q -> (D < 2 * b)%Q ->
  (t * a == c * b)%Q -> (x * D == P)%Q ->
  (c < 2 * (x * t))%Q /\ (x * t < 2 * c)%Q.
Proof.
  intros Pa Pb Pt A1 A2 B1 B2 E X.
  assert (Dpos : (0 < D)%Q) by lra.
  assert (K1 : (x * t * D == P * t)%Q) by (rewrite <- X; ring).
  assert (K2 : (P * t < 2 * a * t)%Q)
    by (apply Qmult_lt_compat_r; assumption).
  assert (K3 : (a * t <= P * t)%Q)
    by (apply Qmult_le_compat_r; [assumption | lra]).
  assert (K4 : (a * t == c * b)%Q)
    by (setoid_replace (a * t)%Q with (t * a)%Q by ring; exact E).
  assert (Pc : (0 < c * b)%Q).
  { rewrite <- K4. apply Qmult_lt_0_compat; assumption. }
  assert (Pc' : (0 < c)%Q).
  { destruct (Qlt_le_dec 0 c) as [G | G]; [exact G |].
    exfalso. assert (c * b <= 0 * b)%Q
      by (apply Qmult_le_compat_r; [exact G | lra]). lra. }
  assert (M1 : (c * b <= c * D)%Q).
  { rewrite !(Qmult_comm c). apply Qmult_le_compat_r; lra. }
  assert (M2 : (c * D < c * (2 * b))%Q).
  { rewrite !(Qmult_comm c). apply Qmult_lt_compat_r; assumption. }
  split; apply Qmult_lt_r with D; try exact Dpos.
  - setoid_replace (2 * (x * t) * D)%Q with (2 * (x * t * D))%Q by ring.
    setoid_replace (2 * a * t)%Q with (2 * (a * t))%Q in K2 by ring.
    lra.
  - setoid_replace (2 * a * t)%Q with (2 * (a * t))%Q in K2 by ring.
    setoid_replace (2 * c * D)%Q with (2 * (c * D))%Q by ring.
    lra.
Qed.

(** The significand has 53 bits. *)
Lemma exponentOf_spec (x : Q) :
  (0 < x)%Q ->
  (2 ^ 52 <= x * 2 ^ (- exponentOf x))%Q
  /\ (x * 2 ^ (- exponentOf x) < 2 ^ 53)%Q.
Proof.
  intros Hx. unfold exponentOf. cbv zeta.
  destruct x as [p q]. cbn [Qnum Qden].
  assert (Hp : 0 < p) by (unfold Qlt in Hx; cbn in Hx; lia).
  set (lp := Z.log2 p). set (lq := Z.log2 (Z.pos q)).
  pose proof (Z.log2_spec p Hp) as Bp.
  pose proof (Z.log2_spec (Z.pos q) ltac:(lia)) as Bq.
  pose proof (Z.log2_nonneg p) as Np.
  pose proof (Z.log2_nonneg (Z.pos q)) as Nq.
  fold lp in Bp, Np. fold lq in Bq, Nq.
  assert (Bp1 : (2 ^ lp <= inject_Z p)%Q)
    by (rewrite <- two_Z by lia; rewrite <- Zle_Qle; lia).
  assert (Bp2 : (inject_Z p < 2 * 2 ^ lp)%Q).
  { change (2 * 2 ^ lp)%Q with (2 ^ 1 * 2 ^ lp)%Q. rewrite <- two_plus.
    rewrite <- two_Z by lia. rewrite <- Zlt_Qlt.
    replace (1 + lp) with (Z.succ lp) by lia. lia. }
  assert (Bq1 : (2 ^ lq <= inject_Z (Z.pos q))%Q)
    by (rewrite <- two_Z by lia; rewrite <- Zle_Qle; lia).
  assert (Bq2 : (inject_Z (Z.pos q) < 2 * 2 ^ lq)%Q).
  { change (2 * 2 ^ lq)%Q with (2 ^ 1 * 2 ^ lq)%Q. rewrite <- two_plus.
    rewrite <- two_Z by lia. rewrite <- Zlt_Qlt.
    replace (1 + lq) with (Z.succ lq) by lia. lia. }
  assert (E : (2 ^ (- (lp - lq - 52)) * 2 ^ lp == 2 ^ 52 * 2 ^ lq)%Q).
  { rewrite <- !two_plus. replace (- (lp - lq - 52) + lp) with (52 + lq) by lia.
    reflexivity. }
  assert (E' : (2 ^ (- (lp - lq - 52 - 1)) == 2 * 2 ^ (- (lp - lq - 52)))%Q).
  { change (2 * 2 ^ (- (lp - lq - 52)))%Q
      with (2 ^ 1 * 2 ^ (- (lp - lq - 52)))%Q.
    rewrite <- two_plus. apply Qpower_comp; [reflexivity | lia]. }
  assert (X : ((p # q) * inject_Z (Z.pos q) == inject_Z p)%Q).
  { rewrite (Qmake_Qdiv p q). field. discriminate. }
  destruct (scaled_bounds (p # q) (2 ^ (- (lp - lq - 52))) (2 ^ lp) (2 ^ lq)
              (inject_Z p) (inject_Z (Z.pos q)) (2 ^ 52)
              (two_pos _) (two_pos _) (two_pos _) Bp1 Bp2 Bq1 Bq2 E X)
    as [L' L].
  change (2 ^ 52)%Q with (4503599627370496 # 1)%Q in *.
  change (2 ^ 53)%Q with (9007199254740992 # 1)%Q in *.
  destruct (Qle_bool (4503599627370496 # 1)
              ((p # q) * 2 ^ (- (lp - lq - 52)))) eqn:C.
  - apply Qle_bool_iff in C. split; [exact C | lra].
  - assert (C' : ~ (4503599627370496 # 1
                    <= (p # q) * 2 ^ (- (lp - lq - 52)))%Q)
      by (intros K; apply Qle_bool_iff in K; congruence).
    apply Qnot_le_lt in C'. rewrite E'. split; lra.
Qed.

Lemma nearestDouble_isDouble (x : Q) :
  (0 < x)%Q -> isDouble (nearestDouble x).
Proof.
  intros Hx. unfold nearestDouble. cbv zeta.
  destruct (exponentOf_spec x Hx) as [L U].
  set (e := exponentOf x) in *. clearbody e.
  pose proof (nearestInteger_half (x * 2 ^ (- e))) as H.
  set (m := nearestInteger (x * 2 ^ (- e))) in *. clearbody m.
  exists m, e. split; [| reflexivity].
  apply Qabs_Qle_condition in H. destruct H as [H1 H2].
  change (2 ^ 52)%Q with (inject_Z 4503599627370496) in L.
  change (2 ^ 53)%Q with (inject_Z 9007199254740992) in U.
  change (2 ^ 53) with 9007199254740992.
  assert (A : (inject_Z m < inject_Z (9007199254740992 + 1))%Q)
    by (rewrite inject_Z_plus; change (inject_Z 1) with 1%Q; lra).
  assert (B : (inject_Z (4503599627370496 - 1) < inject_Z m)%Q).
  { unfold Zminus. rewrite inject_Z_plus.
    change (inject_Z (- (1))) with (- (1))%Q. lra. }
  rewrite <- Zlt_Qlt in A, B. lia.
Qed.

Lemma Qabs_scale (a s : Q) : (0 < s)%Q -> (Qabs (a * s) == Qabs a * s)%Q.
Proof.
  intros Hs. rewrite Qabs_Qmult. rewrite (Qabs_pos s) by lra. reflexivity.
Qed.

Lemma nearestDouble_nearest (x y : Q) :
  (0 < x)%Q -> isDouble y ->
  (Qabs (nearestDouble x - x) <= Qabs (y - x))%Q.
Proof.
  intros Hx [m' [e' [Hm Ey]]]. unfold nearestDouble. cbv zeta.
  destruct (exponentOf_spec x Hx) as [L U].
  set (e := exponentOf x) in *. clearbody e.
  set (X := (x * 2 ^ (- e))%Q) in *.
  assert (Ex : (x == X * 2 ^ e)%Q).
  { unfold X. rewrite <- Qmult_assoc, two_opp. ring. }
  pose proof (two_pos e) as Pe.
  assert (S1 : (inject_Z (nearestInteger X) * 2 ^ e - x
                == (inject_Z (nearestInteger X) - X) * 2 ^ e)%Q)
    by (rewrite Ex at 1; ring).
  rewrite S1, Qabs_scale by exact Pe.
  set (Y := (inject_Z m' * 2 ^ (e' - e))%Q).
  assert (S2 : (y - x == (Y - X) * 2 ^ e)%Q).
  { rewrite Ey. rewrite Ex at 1. unfold Y.
    replace e' with ((e' - e) + e) at 1 by lia. rewrite two_plus. ring. }
  rewrite S2, Qabs_scale by exact Pe.
  apply Qmult_le_compat_r; [| lra].
  destruct (Z_le_gt_dec e e') as [G | G].
  - assert (EY : (Y == inject_Z (m' * 2 ^ (e' - e)))%Q).
    { unfold Y. rewrite inject_Z_mult, two_Z by lia. reflexivity. }
    rewrite EY. apply nearestInteger_nearest.
  - apply Qle_trans with (Qabs (inject_Z (2 ^ 52) - X)).
    + apply nearestInteger_nearest.
    + assert (B : (Y <= inject_Z (2 ^ 52))%Q).
      { unfold Y.
        assert (P1 : (2 ^ (e' - e) <= 2 ^ (-1))%Q).
        { apply Qpower_le_compat_l; [lia | discriminate]. }
        change (2 ^ (-1))%Q with (1 # 2)%Q in P1.
        pose proof (two_pos (e' - e)) as P2.
        set (s := (2 ^ (e' - e))%Q) in *. clearbody s.
        assert (M : (inject_Z m' <= inject_Z (2 ^ 53))%Q)
          by (rewrite <- Zle_Qle; lia).
        change (inject_Z (2 ^ 53)) with (9007199254740992 # 1)%Q in M.
        change (inject_Z (2 ^ 52)) with (4503599627370496 # 1)%Q.
        apply Qle_trans with ((9007199254740992 # 1) * s)%Q.
        - apply Qmult_le_compat_r; lra.
        - lra. }
      change (2 ^ 52)%Q with (inject_Z (2 ^ 52)) in L.
      set (c := inject_Z (2 ^ 52)) in *. clearbody c.
      rewrite (Qabs_neg (c - X)) by lra.
      rewrite (Qabs_neg (Y - X)) by lra. lra.
Qed.

Lemma isDouble_opp (y : Q) : isDouble y -> isDouble (- y).
Proof.
  intros [m [e [H E]]]. exists (- m), e. split; [lia |].
  rewrite E, inject_Z_opp. ring.
Qed.

Lemma binary64_cases (x : Q) :
  ((x == 0)%Q /\ binary64 x = 0%Q)
  \/ ((0 < x)%Q /\ binary64 x = nearestDouble x)
  \/ ((0 < - x)%Q /\ binary64 x = (- nearestDouble (- x))%Q).
Proof.
  unfold binary64. destruct x as [[| p | p] q]; cbn [Qnum].
  - left. split; reflexivity.
  - right. left. split; reflexivity.
  - right. right. split; reflexivity.
Qed.

Lemma binary64_isDouble (x : Q) : isDouble (binary64 x).
Proof.
  destruct (binary64_cases x) as [[_ E] | [[H E] | [H E]]]; rewrite E.
  - exists 0, 0. split; [lia | reflexivity].
  - apply nearestDouble_isDouble. exact H.
  - apply isDouble_opp, nearestDouble_isDouble. exact H.
Qed.

Lemma binary64_nearest (x y : Q) :
  isDouble y -> (Qabs (binary64 x - x) <= Qabs (y - x))%Q.
Proof.
  intros Hy.
  destruct (binary64_cases x) as [[Z E] | [[H E] | [H E]]]; rewrite E.
  - rewrite Z. setoid_replace (0 - 0)%Q with 0%Q by ring.
    apply Qabs_nonneg.
  - apply nearestDouble_nearest; assumption.
  - setoid_replace (- nearestDouble (- x) - x)%Q
      with (- (nearestDouble (- x) - - x))%Q by ring.
    rewrite Qabs_opp.
    setoid_replace (y - x)%Q with (- (- y - - x))%Q by ring.
    rewrite Qabs_opp.
    apply nearestDouble_nearest; [exact H | apply isDouble_opp; exact Hy].
Qed.

Lemma binary64_at_least_1 (x : Q) : (1 <= x)%Q -> (1 <= binary64 x)%Q.
Proof.
  intros H.
  assert (D : isDouble 1) by (exists 1, 0; split; [lia | reflexivity]).
  pose proof (binary64_nearest x 1 D) as N.
  rewrite (Qabs_neg (1 - x)) in N by lra.
  apply Qabs_Qle_condition in N. lra.
Qed.

(** A double is its own rounding. *)
Lemma binary64_exact (x : Q) : isDouble x -> (binary64 x == x)%Q.
Proof.
  intros D. pose proof (binary64_nearest x x D) as N.
  setoid_replace (x - x)%Q with 0%Q in N by ring.
  change (Qabs 0) with 0%Q in N.
  apply Qabs_Qle_condition in N. lra.
Qed.

(** ** Weekday averages *)

Lemma weekdays_NoDup : NoDup weekdays.
Proof.
  unfold weekdays.
  repeat (constructor;
          [simpl; intros H;
           repeat (destruct H as [H | H]; [discriminate H |]); exact H |]).
  constructor.
Qed.

Lemma weekdays_no_proto : ~ In "__proto__" weekdays.
Proof.
  simpl. intros H.
  repeat (destruct H as [H | H]; [discriminate H |]). exact H.
Qed.

Lemma weekdays_no_index : Forall (fun k => arrayIndex k = None) weekdays.
Proof. repeat constructor. Qed.

Lemma own_keys {V : Type} (o : obj V) (k : string) :
  map fst o = weekdays -> (getOwn o k <> None <-> In k weekdays).
Proof.
  intros E. rewrite <- E. pose proof (getOwn_None o k) as H.
  destruct (getOwn o k).
  - split; [| discriminate]. intros _.
    destruct (in_dec string_dec k (map fst o)) as [Hi | Hn]; [exact Hi |].
    apply H in Hn. discriminate Hn.
  - split; [intros K; contradiction K; reflexivity |].
    intros Hi K. apply H in K. contradiction.
Qed.

(** A field whose name is a weekday is that string. *)
Lemma weekday_key (x : field) :
  In (toString x) weekdays -> x = str (toString x).
Proof.
  destruct x as [| s]; [| reflexivity]. simpl. intros H.
  repeat (destruct H as [H | H]; [discriminate H |]). contradiction.
Qed.

Lemma weekdayTables_spec (data : list chatRow) :
  forall (m : obj Z) (d : obj (list field)),
    map fst m = weekdays -> map fst d = weekdays ->
    map fst (fst (fold_left weekdayStep data (m, d))) = weekdays
    /\ map fst (snd (fold_left weekdayStep data (m, d))) = weekdays
    /\ forall day,
         getOwn (fst (fold_left weekdayStep data (m, d))) day
         = option_map (fun n => n + messagesOn day data) (getOwn m day)
         /\ getOwn (snd (fold_left weekdayStep data (m, d))) day
            = option_map
                (fun s => fold_left setAdd (map date (rowsOn day data)) s)
                (getOwn d day).
Proof.
  induction data as [| row data IH]; intros m d Hm Hd.
  - simpl. split; [exact Hm |]. split; [exact Hd |].
    intros day. unfold messagesOn. simpl.
    destruct (getOwn m day), (getOwn d day); simpl;
      rewrite ?Z.add_0_r; split; reflexivity.
  - simpl fold_left. unfold weekdayStep at 2 4 6 8, hasOwnProperty.
    simpl fst. simpl snd. cbv zeta.
    destruct (getOwn m (toString (weekday row))) as [n |] eqn:Em;
      destruct (getOwn d (toString (weekday row))) as [s |] eqn:Ed.
    + assert (W : weekday row = str (toString (weekday row))).
      { apply weekday_key.
        apply (proj1 (own_keys m (toString (weekday row)) Hm)).
        congruence. }
      set (k := toString (weekday row)) in *. clearbody k.
      assert (Hm' : map fst (setOwn m k (n + 1)) = weekdays)
        by (rewrite setOwn_keys; [exact Hm | congruence]).
      assert (Hd' : map fst (setOwn d k (setAdd s (date row))) = weekdays)
        by (rewrite setOwn_keys; [exact Hd | congruence]).
      destruct (IH _ _ Hm' Hd') as [K1 [K2 K3]].
      split; [exact K1 |]. split; [exact K2 |].
      intros day. destruct (K3 day) as [A B]. rewrite A, B.
      rewrite !getOwn_setOwn. unfold messagesOn, rowsOn. simpl filter.
      rewrite W, strictEq_str.
      destruct (String.eqb_spec k day) as [E | E].
      * subst day. rewrite Em, Ed. simpl.
        split; [f_equal; lia | reflexivity].
      * split; reflexivity.
    + exfalso.
      apply (proj2 (own_keys d (toString (weekday row)) Hd)); [| exact Ed].
      apply (proj1 (own_keys m (toString (weekday row)) Hm)). congruence.
    + exfalso.
      apply (proj2 (own_keys m (toString (weekday row)) Hm)); [| exact Em].
      apply (proj1 (own_keys d (toString (weekday row)) Hd)). congruence.
    + destruct (IH _ _ Hm Hd) as [K1 [K2 K3]].
      split; [exact K1 |]. split; [exact K2 |].
      intros day. destruct (K3 day) as [A B]. rewrite A, B.
      unfold messagesOn, rowsOn. simpl filter.
      destruct (strictEq_spec (weekday row) (str day)) as [E | E].
      * rewrite E in Em, Ed. simpl in Em, Ed. rewrite Em, Ed.
        split; reflexivity.
      * split; reflexivity.
Qed.

Lemma weekdayDataOf_spec (data : list chatRow) :
  weekdayDataOf data
  = map (fun day =>
           (day,
            parseFloat
              (toFixed1
                 (average (messagesOn day data) (datesOn day data)))))
        weekdays.
Proof.
  unfold weekdayDataOf, avgMessagesByWeekday, weekdayTables.
  destruct (weekdayTables_spec data messagesByWeekday0 daysByWeekday0
              eq_refl eq_refl) as [K1 [K2 K3]].
  destruct (fold_left weekdayStep data (messagesByWeekday0, daysByWeekday0))
    as [byDay days].
  simpl fst in *. simpl snd in *.
  unfold keys. rewrite (entries_no_index byDay)
    by (rewrite K1; exact weekdays_no_index).
  rewrite K1.
  rewrite (fold_left_ext_in _
             (fun o day =>
                assign o day
                  (average (messagesOn day data) (datesOn day data)))).
  - rewrite assign_all;
      [| exact weekdays_NoDup | exact weekdays_no_proto | reflexivity].
    simpl app. rewrite entries_no_index.
    + reflexivity.
    + repeat constructor.
  - intros o day Hday. destruct (K3 day) as [A B]. rewrite A, B.
    assert (E1 : getOwn messagesByWeekday0 day = Some 0)
      by (simpl in Hday;
          repeat (destruct Hday as [Hday | Hday];
                  [subst day; reflexivity |]); contradiction).
    assert (E2 : getOwn daysByWeekday0 day = Some [])
      by (simpl in Hday;
          repeat (destruct Hday as [Hday | Hday];
                  [subst day; reflexivity |]); contradiction).
    rewrite E1, E2. simpl option_map. cbv iota.
    unfold datesOn. rewrite <- newSet_length. reflexivity.
Qed.

(** The decimal of [toFixed1] is the tenth nearest to [x], the larger one
    of two. *)
Lemma toFixed1_spec (x : Q) :
  exists k : Z,
    toFixed1 x = (k # 10)%Q
    /\ (inject_Z k - (1 # 2) <= x * inject_Z 10)%Q
    /\ (x * inject_Z 10 < inject_Z k + (1 # 2))%Q.
Proof.
  exists (Qfloor (x * inject_Z 10 + (1 # 2))).
  split; [reflexivity |].
  pose proof (Qfloor_le (x * inject_Z 10 + (1 # 2))) as H1.
  pose proof (Qlt_floor (x * inject_Z 10 + (1 # 2))) as H2.
  rewrite inject_Z_plus in H2.
  set (f := inject_Z (Qfloor (x * inject_Z 10 + (1 # 2)))) in *.
  change (inject_Z 1) with (1 # 1)%Q in *.
  clearbody f. split; lra.
Qed.

Lemma fold_left_through_map {A B C : Type} (f : A -> C -> A) (g : B -> C)
  (l : list B) :
  forall a, fold_left f (map g l) a = fold_left (fun a x => f a (g x)) l a.
Proof.
  induction l as [| x l IH]; intros a; simpl; [reflexivity | apply IH].
Qed.

Lemma rowsOf_withWeekday (w : chatRow -> field) (s : field)
  (data : list chatRow) :
  rowsOf s (map (withWeekday w) data) = map (withWeekday w) (rowsOf s data).
Proof.
  unfold rowsOf. induction data as [| r data IH]; simpl; [reflexivity |].
  destruct (strictEq (sender r) s); simpl; rewrite IH; reflexivity.
Qed.

(** No figure of the bundle but the weekday averages reads the weekday
    field of a row. *)
Lemma weekday_only_in_weekdayData
  (LocalTZA : Z -> bool -> Z) (localeCompare : string -> string -> Z)
  (w : chatRow -> field) (data : list chatRow) :
  let b := statsOf LocalTZA localeCompare data in
  let b' := statsOf LocalTZA localeCompare (map (withWeekday w) data) in
  timelineData b' = timelineData b
  /\ dailyTimelineData b' = dailyTimelineData b
  /\ hourData b' = hourData b
  /\ senderData b' = senderData b
  /\ topWords b' = topWords b
  /\ topPhrases b' = topPhrases b
  /\ mostActiveDay b' = mostActiveDay b.
Proof.
  assert (D : messagesByDate (map (withWeekday w) data) = messagesByDate data)
    by (unfold messagesByDate; rewrite fold_left_through_map; reflexivity).
  assert (U : uniqueSenders (map (withWeekday w) data) = uniqueSenders data)
    by (unfold uniqueSenders; rewrite map_map; reflexivity).
  simpl. repeat split.
  - unfold timelineDataOf, messagesByMonth.
    rewrite fold_left_through_map. reflexivity.
  - unfold dailyTimelineDataOf. rewrite D. reflexivity.
  - unfold hourDataOf, messagesByHour.
    rewrite fold_left_through_map. reflexivity.
  - unfold senderDataOf, messageCountBySender, wordCountBySender.
    rewrite U.
    rewrite (fold_left_ext_in
               (fun o s =>
                  assign o (toString s)
                    (Some (Z.of_nat
                             (List.length
                                (rowsOf s (map (withWeekday w) data))))))
               (fun o s =>
                  assign o (toString s)
                         (Some (Z.of_nat (List.length (rowsOf s data))))))
      by (intros o s _; rewrite rowsOf_withWeekday, length_map; reflexivity).
    rewrite (fold_left_ext_in
               (fun o s =>
                  assign o (toString s)
                    (Some (wordCount
                             (map message
                                (rowsOf s (map (withWeekday w) data))))))
               (fun o s =>
                  assign o (toString s)
                         (Some (wordCount (map message (rowsOf s data))))))
      by (intros o s _; rewrite rowsOf_withWeekday, map_map; reflexivity).
    reflexivity.
  - unfold topWordsOf, wordCounts.
    rewrite fold_left_through_map. reflexivity.
  - unfold topPhrasesOf, phraseCounts.
    rewrite fold_left_through_map. reflexivity.
  - unfold mostActiveDayOf. rewrite D. reflexivity.
Qed.

(** C7, as stated, fails: four Monday messages on three distinct dates
    give the average 1.3 (the double that [parseFloat] reads from the
    text 1.3) and not 4/3, because the quotient is rounded to one
    decimal. *)
Lemma weekdayData_is_rounded :
  messagesOn "Monday" fourMondays = 4
  /\ datesOn "Monday" fourMondays = 3%nat
  /\ In ("Monday", binary64 (13 # 10))
        (weekdayData (statsOf utcZone byCodeUnit fourMondays))
  /\ ~ (binary64 (13 # 10) == 4 # 3)%Q.
Proof.
  split; [reflexivity |]. split; [reflexivity |].
  split; [vm_compute; tauto |].
  intros H. vm_compute in H. discriminate H.
Qed.

(** C7, amended: the weekday averages are one entry for each of the seven
    weekday names, in the order Sunday to Saturday.  The average of a name
    is [parseFloat(avg.toFixed(1))], where [avg] is the number of rows whose
    weekday field is that name divided, as doubles are, by the number of
    distinct dates of those rows when that number is positive, and 0
    otherwise.  The division and [parseFloat] give the double nearest to
    the exact value; [toFixed(1)] gives the tenth nearest to the double,
    the larger one of two.  It is the double that is rounded to a tenth,
    not the exact quotient: 23 messages on 20 dates give 1.1, where 1.15
    would give 1.2.  Rows with any other weekday string are in none of the
    counts.  The other figures of the bundle do not read the weekday
    field: a row is counted in them whatever its weekday string. *)
Theorem weekdayData_average
  (LocalTZA : Z -> bool -> Z) (localeCompare : string -> string -> Z)
  (data : list chatRow) :
  weekdayData (statsOf LocalTZA localeCompare data)
  = map (fun day =>
           (day,
            binary64
              (toFixed1
                 (if (0 <? datesOn day data)%nat
                  then binary64 (inject_Z (messagesOn day data)
                                 / inject_Z (Z.of_nat (datesOn day data)))
                  else 0%Q))))
        weekdays
  /\ (forall x : Q,
        isDouble (binary64 x)
        /\ forall y : Q,
             isDouble y -> (Qabs (binary64 x - x) <= Qabs (y - x))%Q)
  /\ (forall x : Q,
        (0 <= x)%Q ->
        exists k : Z,
          toFixed1 x = (k # 10)%Q
          /\ (inject_Z k - (1 # 2) <= x * inject_Z 10)%Q
          /\ (x * inject_Z 10 < inject_Z k + (1 # 2))%Q)
  /\ (messagesOn "Monday" mondays23 = 23
      /\ datesOn "Monday" mondays23 = 20%nat
      /\ In ("Monday", binary64 (11 # 10))
            (weekdayData (statsOf LocalTZA localeCompare mondays23))
      /\ toFixed1 (23 # 20) = (12 # 10)%Q)
  /\ forall w : chatRow -> field,
       senderData (statsOf LocalTZA localeCompare (map (withWeekday w) data))
       = senderData (statsOf LocalTZA localeCompare data)
       /\ hourData (statsOf LocalTZA localeCompare (map (withWeekday w) data))
          = hourData (statsOf LocalTZA localeCompare data)
       /\ dailyTimelineData
            (statsOf LocalTZA localeCompare (map (withWeekday w) data))
          = dailyTimelineData (statsOf LocalTZA localeCompare data)
       /\ timelineData
            (statsOf LocalTZA localeCompare (map (withWeekday w) data))
          = timelineData (statsOf LocalTZA localeCompare data)
       /\ topWords (statsOf LocalTZA localeCompare (map (withWeekday w) data))
          = topWords (statsOf LocalTZA localeCompare data)
       /\ topPhrases
            (statsOf LocalTZA localeCompare (map (withWeekday w) data))
          = topPhrases (statsOf LocalTZA localeCompare data)
       /\ mostActiveDay
            (statsOf LocalTZA localeCompare (map (withWeekday w) data))
          = mostActiveDay (statsOf LocalTZA localeCompare data).
Proof.
  split; [| split; [| split; [| split]]].
  - simpl weekdayData. apply weekdayDataOf_spec.
  - intros x. split; [apply binary64_isDouble |].
    intros y Hy. apply binary64_nearest. exact Hy.
  - intros x _. apply toFixed1_spec.
  - split; [reflexivity |]. split; [reflexivity |].
    split; [| reflexivity].
    cbn [weekdayData statsOf]. vm_compute. tauto.
  - intros w.
    pose proof (weekday_only_in_weekdayData LocalTZA localeCompare w data)
      as H.
    cbv zeta in H. tauto.
Qed.

(** ** The daily timeline *)

Lemma num_sub_negative (a b : num) :
  num_lt (num_sub a b) (Some 0) = num_lt a b.
Proof.
  unfold num_sub, num_lt. destruct a as [x |], b as [y |]; try reflexivity.
  destruct (Z.ltb_spec (x - y) 0), (Z.ltb_spec x y); try reflexivity; lia.
Qed.

Lemma sliceLast_length {A : Type} (n : nat) (l : list A) :
  List.length (sliceLast n l) = Nat.min n (List.length l).
Proof. unfold sliceLast. rewrite length_skipn. lia. Qed.

(** X17: what holds of the daily timeline on every input: it has at most 30
    entries; and when every bucket has a valid sort date, it is the end of
    the buckets put in the order of their sort dates, buckets of equal
    sort date keeping their order. *)
Lemma dailyTimeline_last_30
  (LocalTZA : Z -> bool -> Z) (data : list chatRow) :
  (List.length (dailyTimelineDataOf LocalTZA data) <= 30)%nat
  /\ (Forall (fun e => sortDate e <> NaN) (dailyBuckets LocalTZA data) ->
      exists older,
        Permutation (older ++ dailyTimelineDataOf LocalTZA data)
                    (dailyBuckets LocalTZA data)
        /\ StronglySorted (keyLe sortDate)
                          (older ++ dailyTimelineDataOf LocalTZA data)
        /\ (forall t,
              filter (fun e => num_eqb (sortDate e) t)
                     (older ++ dailyTimelineDataOf LocalTZA data)
              = filter (fun e => num_eqb (sortDate e) t)
                       (dailyBuckets LocalTZA data))
        /\ List.length (dailyTimelineDataOf LocalTZA data)
           = Nat.min 30 (List.length (dailyBuckets LocalTZA data))).
Proof.
  unfold dailyTimelineDataOf. fold (dailyBuckets LocalTZA data).
  split; [rewrite sliceLast_length; lia |].
  intros Hv.
  set (sorted := arraySort bySortDate (dailyBuckets LocalTZA data)).
  exists (firstn (List.length sorted - 30) sorted).
  unfold sliceLast. rewrite firstn_skipn.
  split; [apply arraySort_Permutation |].
  split; [apply (arraySort_sorted bySortDate sortDate); [| exact Hv];
          intros a b; apply num_sub_negative |].
  split; [intros t; apply (arraySort_stable bySortDate sortDate);
          [intros a b; apply num_sub_negative | exact Hv] |].
  rewrite length_skipn. unfold sorted. rewrite arraySort_length. lia.
Qed.

(** C8: a date string of three components that are not numbers gets an
    invalid sort date, not the epoch that the fallback gives to the other
    unparsable strings; the comparison with it is NaN, and no arrangement
    of the buckets is in the order of the sort dates.  On [table32] the
    sort, as modelled, leaves the buckets where they are: the timeline
    keeps the thirty days of January and leaves out 31 December, the
    latest date of the data. *)
Theorem dailyTimeline_invalid_sort_date :
  sortDate (dailyEntryOf utcZone ("x/y/z", Some 1)) = NaN
  /\ sortDate (dailyEntryOf utcZone ("not a date", Some 1)) = Some 0
  /\ (forall l,
        Permutation l
          (dailyBuckets utcZone (parsedData utcZone (fun _ => 0) table32)) ->
        ~ Sorted (keyLe sortDate) l)
  /\ List.length
       (dailyTimelineData
          (statsOf utcZone byCodeUnit
                   (parsedData utcZone (fun _ => 0) table32)))
     = 30%nat
  /\ ~ In "31/12/2023"
       (map de_date
          (dailyTimelineData
             (statsOf utcZone byCodeUnit
                      (parsedData utcZone (fun _ => 0) table32))))
  /\ map de_date
       (dailyTimelineData
          (statsOf utcZone byCodeUnit
                   (parsedData utcZone (fun _ => 0) table32)))
     = map (fun d => ofZ (Z.of_nat d) ++ "/1/2023") (seq 1 30).
Proof.
  assert (E : map de_date
                (dailyTimelineData
                   (statsOf utcZone byCodeUnit
                            (parsedData utcZone (fun _ => 0) table32)))
              = map (fun d => ofZ (Z.of_nat d) ++ "/1/2023") (seq 1 30))
    by (vm_compute; reflexivity).
  assert (B : exists e rest,
             dailyBuckets utcZone (parsedData utcZone (fun _ => 0) table32)
             = e :: mkDailyEntry "x/y/z" (Some 1) NaN :: rest)
    by (eexists; eexists; vm_compute; reflexivity).
  split; [reflexivity |]. split; [reflexivity |].
  split.
  { intros l Hp Hs. destruct B as [e [rest B]]. rewrite B in Hp.
    apply Sorted_valid in Hs.
    - apply (Permutation_Forall Hp) in Hs.
      inversion Hs as [| ? ? _ Hs']; subst.
      inversion Hs' as [| ? ? Hbad _]; subst.
      apply Hbad. reflexivity.
    - rewrite (Permutation_length Hp). simpl. lia. }
  split; [vm_compute; reflexivity |].
  split; [| exact E].
  rewrite E. vm_compute. intros H.
  repeat (destruct H as [H | H]; [discriminate H |]). exact H.
Qed.

(** ** Counting with a table *)

Lemma getOwn_assign {V : Type} (o : obj V) (k k' : string) (v : V) :
  getOwn (assign o k v) k'
  = if String.eqb k "__proto__" then getOwn o k'
    else if String.eqb k k' then Some v else getOwn o k'.
Proof.
  unfold assign. destruct (String.eqb k "__proto__"); [reflexivity |].
  apply getOwn_setOwn.
Qed.

Lemma inherited_proto (k : string) :
  inherited k = false -> String.eqb k "__proto__" = false.
Proof.
  intros H. destruct (String.eqb_spec k "__proto__") as [E | E];
    [subst k; discriminate H | reflexivity].
Qed.

Lemma countUp_other (o : obj num) (k k' : string) :
  k <> k' -> getOwn (countUp o k) k' = getOwn o k'.
Proof.
  intros Hne. unfold countUp. rewrite getOwn_assign.
  destruct (String.eqb k "__proto__").
  - destruct (negb (truthy (getProp o k))); [| reflexivity].
    rewrite getOwn_assign.
    destruct (String.eqb k "__proto__"); [reflexivity |].
    destruct (String.eqb_spec k k'); [contradiction | reflexivity].
  - destruct (String.eqb_spec k k'); [contradiction |].
    destruct (negb (truthy (getProp o k))); [| reflexivity].
    rewrite getOwn_assign.
    destruct (String.eqb k "__proto__"); [reflexivity |].
    destruct (String.eqb_spec k k'); [contradiction | reflexivity].
Qed.

(** A name that is not inherited is counted as a dictionary would. *)
Lemma countUp_same (o : obj num) (k : string) :
  inherited k = false ->
  getOwn (countUp o k) k = Some (Some (tally o k + 1)).
Proof.
  intros Hi. pose proof (inherited_proto k Hi) as Hp.
  unfold countUp, tally, getProp. rewrite getOwn_assign, Hp, String.eqb_refl.
  destruct (getOwn o k) as [[n |] |] eqn:E; simpl.
  - destruct (Z.eqb_spec n 0) as [E0 | E0]; simpl.
    + rewrite getOwn_assign, Hp, String.eqb_refl. simpl. subst n. reflexivity.
    + rewrite E. reflexivity.
  - rewrite getOwn_assign, Hp, String.eqb_refl. reflexivity.
  - rewrite Hi. simpl. rewrite getOwn_assign, Hp, String.eqb_refl.
    reflexivity.
Qed.

Lemma fold_countUp_get (k : string) :
  inherited k = false ->
  forall (ks : list string) (o : obj num),
    getOwn (fold_left countUp ks o) k
    = match count_occ string_dec ks k with
      | O => getOwn o k
      | S c => Some (Some (tally o k + Z.of_nat (S c)))
      end.
Proof.
  intros Hi. induction ks as [| k0 ks IH]; intros o; [reflexivity |].
  simpl fold_left. rewrite IH. simpl count_occ.
  destruct (string_dec k0 k) as [E | E].
  - subst k0. destruct (count_occ string_dec ks k) as [| c].
    + rewrite countUp_same by exact Hi. reflexivity.
    + unfold tally at 1. rewrite countUp_same by exact Hi.
      f_equal. f_equal. lia.
  - unfold tally. rewrite countUp_other by exact E. reflexivity.
Qed.

Lemma fold_left_flat_map {A B C : Type} (g : A -> C -> A) (f : B -> list C)
  (l : list B) :
  forall a, fold_left (fun a x => fold_left g (f x) a) l a
            = fold_left g (flat_map f l) a.
Proof.
  induction l as [| x l IH]; intros a; simpl; [reflexivity |].
  rewrite fold_left_app. apply IH.
Qed.

Lemma setOwn_NoDup {V : Type} (o : obj V) (k : string) (v : V) :
  NoDup (map fst o) -> NoDup (map fst (setOwn o k v)).
Proof.
  intros H. destruct (getOwn o k) eqn:E.
  - rewrite setOwn_keys; [exact H | congruence].
  - rewrite setOwn_new by exact E. rewrite map_app. simpl.
    apply NoDup_app; [exact H | constructor; [simpl; tauto | constructor] |].
    intros a Ha Hx. simpl in Hx. destruct Hx as [Hx | []]. subst a.
    apply getOwn_None in E. contradiction.
Qed.

Lemma assign_NoDup {V : Type} (o : obj V) (k : string) (v : V) :
  NoDup (map fst o) -> NoDup (map fst (assign o k v)).
Proof.
  intros H. unfold assign.
  destruct (String.eqb k "__proto__"); [exact H | apply setOwn_NoDup, H].
Qed.

Lemma fold_countUp_NoDup (ks : list string) :
  forall o : obj num,
    NoDup (map fst o) -> NoDup (map fst (fold_left countUp ks o)).
Proof.
  induction ks as [| k ks IH]; intros o H; [exact H |].
  simpl. apply IH. unfold countUp. apply assign_NoDup.
  destruct (negb (truthy (getProp o k))); [apply assign_NoDup |]; exact H.
Qed.

(** A table holds only the names that were counted. *)
Lemma fold_countUp_keys (ks : list string) :
  forall (o : obj num) (k : string),
    In k (map fst (fold_left countUp ks o)) -> In k ks \/ In k (map fst o).
Proof.
  induction ks as [| k0 ks IH]; intros o k H; [right; exact H |].
  simpl in H. apply IH in H. destruct H as [H | H]; [left; right; exact H |].
  destruct (string_dec k0 k) as [E | E]; [left; left; exact E |].
  right. destruct (in_dec string_dec k (map fst o)) as [Hi | Hn];
    [exact Hi |].
  exfalso. apply getOwn_None in Hn.
  rewrite <- (countUp_other o k0 k E) in Hn.
  apply getOwn_None in Hn. contradiction.
Qed.

Lemma getOwn_In {V : Type} (o : obj V) (k : string) (v : V) :
  NoDup (map fst o) -> In (k, v) o -> getOwn o k = Some v.
Proof.
  induction o as [| [k0 v0] o IH]; simpl; intros Hnd Hin; [contradiction |].
  inversion Hnd as [| ? ? Hk Hnd']; subst.
  destruct Hin as [Hin | Hin].
  - inversion Hin; subst. rewrite String.eqb_refl. reflexivity.
  - destruct (String.eqb_spec k0 k) as [E | E].
    + subst k0. exfalso. apply Hk.
      change k with (fst (k, v)). apply in_map. exact Hin.
    + apply IH; assumption.
Qed.

(** The enumeration of an object rearranges its properties. *)
Lemma insertIndex_Permutation {V : Type} (e : N * (string * V))
  (l : list (N * (string * V))) :
  Permutation (insertIndex e l) (e :: l).
Proof.
  induction l as [| e' l IH]; simpl; [apply Permutation_refl |].
  destruct (fst e' <? fst e)%N; [| apply Permutation_refl].
  apply perm_trans with (e' :: e :: l);
    [apply perm_skip, IH | apply perm_swap].
Qed.

Lemma entries_Permutation {V : Type} (o : obj V) :
  Permutation (entries o) o.
Proof.
  unfold entries.
  assert (H1 : Permutation (fold_right insertIndex [] (indexed o))
                           (indexed o)).
  { induction (indexed o) as [| e l IH]; simpl; [apply perm_nil |].
    apply perm_trans with (e :: fold_right insertIndex [] l);
      [apply insertIndex_Permutation | apply perm_skip, IH]. }
  apply (Permutation_map snd) in H1.
  apply perm_trans
    with (map snd (indexed o)
          ++ filter (fun e => match arrayIndex (fst e) with
                              | Some _ => false
                              | None => true
                              end) o)%list;
    [apply Permutation_app_tail; exact H1 |].
  clear H1. unfold indexed.
  induction o as [| e o IH]; simpl; [apply perm_nil |].
  destruct (arrayIndex (fst e)); simpl.
  - apply perm_skip, IH.
  - apply Permutation_sym, Permutation_cons_app, Permutation_sym, IH.
Qed.

(** ** Words and phrases *)

Lemma byCountDesc_key (a b : string * num) :
  num_lt (byCountDesc a b) (Some 0) = num_lt (negCount a) (negCount b).
Proof.
  unfold byCountDesc, negCount, num_sub, num_opp, num_lt.
  destruct (snd a) as [x |], (snd b) as [y |]; try reflexivity.
  destruct (Z.ltb_spec (y - x) 0), (Z.ltb_spec (- x) (- y));
    try reflexivity; lia.
Qed.

Lemma num_ge_negCount (a b : string * num) :
  num_ge (snd a) (snd b) = true <-> keyLe negCount a b.
Proof.
  unfold keyLe, negCount, num_opp, num_le, num_ge.
  destruct (snd a) as [x |], (snd b) as [y |]; try tauto.
  rewrite !Z.leb_le. lia.
Qed.

Lemma Sorted_impl {A : Type} (R R' : A -> A -> Prop) (l : list A) :
  (forall a b, R a b -> R' a b) -> Sorted R l -> Sorted R' l.
Proof.
  intros H Hs. induction Hs as [| x l Hs IH Hd]; constructor.
  - exact IH.
  - destruct Hd; constructor. apply H. assumption.
Qed.

Lemma countsDescending_valid (l : list (string * num)) :
  countsDescending l -> (2 <= List.length l)%nat ->
  Forall (fun e => snd e <> NaN) l.
Proof.
  intros Hs Hl.
  apply Sorted_impl with (R' := keyLe negCount) in Hs;
    [| intros a b; apply num_ge_negCount].
  apply Sorted_valid in Hs; [| exact Hl].
  apply Forall_impl with (P := valid negCount); [| exact Hs].
  intros e He K. apply He. unfold negCount. rewrite K. reflexivity.
Qed.

Lemma wordCounts_flat (data : list chatRow) :
  wordCounts data = fold_left countUp (allWords data) [].
Proof.
  apply (fold_left_flat_map countUp (fun row => wordsOf (message row))).
Qed.

Lemma phraseCounts_flat (data : list chatRow) :
  phraseCounts data = fold_left countUp (allPhrases data) [].
Proof.
  apply (fold_left_flat_map countUp (fun row => phrasesOf (message row))).
Qed.

(** The entries of a table in which only names that are not inherited
    were counted: each name that was counted, with the number of times it
    was. *)
Lemma counted_entries (ks : list string) :
  (forall k, In k ks -> inherited k = false) ->
  forall k c,
    In (k, c) (entries (fold_left countUp ks []))
    <-> In k ks /\ c = Some (occurrences ks k).
Proof.
  intros Hks k c.
  assert (Hnd : NoDup (map fst (fold_left countUp ks [])))
    by (apply fold_countUp_NoDup; constructor).
  assert (G : In k ks ->
              getOwn (fold_left countUp ks []) k
              = Some (Some (occurrences ks k))).
  { intros Hin. rewrite fold_countUp_get by (apply Hks; exact Hin).
    unfold occurrences.
    destruct (count_occ string_dec ks k) as [| n] eqn:E.
    - exfalso. apply (count_occ_In string_dec) in Hin. lia.
    - unfold tally. simpl getOwn. reflexivity. }
  split.
  - intros H. apply (Permutation_in _ (entries_Permutation _)) in H.
    assert (Hin : In k ks).
    { destruct (fold_countUp_keys ks [] k) as [K | []]; [| exact K].
      change k with (fst (k, c)). apply in_map. exact H. }
    split; [exact Hin |].
    apply (getOwn_In _ _ _ Hnd) in H. rewrite (G Hin) in H.
    inversion H. reflexivity.
  - intros [Hin Hc]. subst c.
    apply (Permutation_in _ (Permutation_sym (entries_Permutation _))).
    specialize (G Hin). clear - G.
    induction (fold_left countUp ks []) as [| [k0 v0] o IH];
      [discriminate G |].
    simpl in G. destruct (String.eqb_spec k0 k) as [E | E].
    + inversion G; subst. left. reflexivity.
    + right. apply IH. exact G.
Qed.

Lemma phrases2_space (ws : list string) (p : string) :
  In p (phrases2 ws) -> includes p " " = true.
Proof.
  induction ws as [| a ws IH]; simpl; [contradiction |].
  destruct ws as [| b ws']; [contradiction |].
  intros [H | H]; [subst p; apply includes_middle | apply IH; exact H].
Qed.

Lemma phrases3_space (ws : list string) (p : string) :
  In p (phrases3 ws) -> includes p " " = true.
Proof.
  induction ws as [| a ws IH]; simpl; [contradiction |].
  destruct ws as [| b [| c ws']]; try contradiction.
  intros [H | H]; [subst p; apply includes_middle | apply IH; exact H].
Qed.

Lemma inherited_no_space (k : string) :
  inherited k = true -> includes k " " = false.
Proof.
  unfold inherited. intros H. apply existsb_eqb_In in H.
  simpl in H.
  repeat (destruct H as [H | H]; [subst k; reflexivity |]). contradiction.
Qed.

(** A phrase has a space in it, which no inherited name has. *)
Lemma phrase_not_inherited (data : list chatRow) (p : string) :
  In p (allPhrases data) -> inherited p = false.
Proof.
  intros H. unfold allPhrases in H. apply in_flat_map in H.
  destruct H as [row [_ H]]. unfold phrasesOf in H.
  destruct (truthyField (message row)); [| contradiction].
  assert (S : includes p " " = true).
  { apply in_app_or in H.
    destruct H as [H | H]; [eapply phrases2_space | eapply phrases3_space];
      exact H. }
  destruct (inherited p) eqn:E; [| reflexivity].
  apply inherited_no_space in E. congruence.
Qed.

Lemma In_firstn {A : Type} (n : nat) (l : list A) (x : A) :
  In x (firstn n l) -> In x l.
Proof.
  intros H. rewrite <- (firstn_skipn n l). apply in_or_app. left. exact H.
Qed.

Lemma StronglySorted_app_l {A : Type} (R : A -> A -> Prop) (l1 l2 : list A) :
  StronglySorted R (l1 ++ l2) -> StronglySorted R l1.
Proof.
  induction l1 as [| x l1 IH]; simpl; intros H; [constructor |].
  inversion H as [| ? ? Hs Hf]; subst.
  constructor; [apply IH; exact Hs |].
  apply Forall_app in Hf. apply Hf.
Qed.

Lemma StronglySorted_impl {A : Type} (R R' : A -> A -> Prop) (l : list A) :
  (forall a b, R a b -> R' a b) ->
  StronglySorted R l -> StronglySorted R' l.
Proof.
  intros H Hs. induction Hs as [| x l Hs IH Hf]; constructor.
  - exact IH.
  - apply Forall_impl with (P := R x); [apply H | exact Hf].
Qed.

(** X18: what holds of [topPhrases] on every input: at most 30 entries, in
    descending order of count, the ones left out counted no more than
    the ones kept; the count of an entry is the number of times the phrase
    occurs as a window of two or three consecutive tokens of one message,
    over all the messages, and it is 3 or more. *)
Lemma topPhrases_spec (data : list chatRow) :
  (List.length (topPhrasesOf data) <= 30)%nat
  /\ (exists rest,
        Permutation (topPhrasesOf data ++ rest) (frequentPhrases data)
        /\ StronglySorted (fun a b => num_ge (snd a) (snd b) = true)
                          (topPhrasesOf data ++ rest))
  /\ StronglySorted (fun a b => num_ge (snd a) (snd b) = true)
                    (topPhrasesOf data)
  /\ (forall p c,
        In (p, c) (topPhrasesOf data) ->
        c = Some (occurrences (allPhrases data) p)
        /\ 3 <= occurrences (allPhrases data) p
        /\ exists row, In row data /\ In p (phrasesOf (message row)))
  /\ (forall p,
        occurrences (allPhrases data) p < 3 ->
        ~ In p (map fst (topPhrasesOf data))).
Proof.
  assert (E : forall p c,
             In (p, c) (frequentPhrases data) <->
             In p (allPhrases data)
             /\ c = Some (occurrences (allPhrases data) p)
             /\ 3 <= occurrences (allPhrases data) p).
  { intros p c. unfold frequentPhrases.
    rewrite filter_In, phraseCounts_flat.
    rewrite (counted_entries (allPhrases data) (phrase_not_inherited data)).
    simpl snd. split.
    - intros [[Hin Hc] Hge]. subst c. simpl in Hge.
      apply Z.leb_le in Hge. tauto.
    - intros [Hin [Hc Hge]]. subst c. simpl.
      apply Z.leb_le in Hge. tauto. }
  assert (V : Forall (valid negCount) (frequentPhrases data)).
  { apply Forall_forall. intros [p c] H. apply E in H.
    destruct H as [_ [Hc _]]. subst c. discriminate. }
  assert (S : StronglySorted (fun a b => num_ge (snd a) (snd b) = true)
                (arraySort byCountDesc (frequentPhrases data))).
  { apply StronglySorted_impl with (R := keyLe negCount);
      [intros a b; apply num_ge_negCount |].
    apply (arraySort_sorted byCountDesc negCount byCountDesc_key).
    exact V. }
  assert (T : forall p c,
             In (p, c) (topPhrasesOf data) -> In (p, c) (frequentPhrases data)).
  { intros p c H. unfold topPhrasesOf, sliceFirst in H.
    apply In_firstn in H.
    apply (Permutation_in _ (arraySort_Permutation byCountDesc _)) in H.
    exact H. }
  unfold topPhrasesOf at 1 2 3 4 5. fold (frequentPhrases data).
  unfold sliceFirst.
  split; [apply firstn_le_length |].
  split.
  { exists (skipn 30 (arraySort byCountDesc (frequentPhrases data))).
    rewrite firstn_skipn.
    split; [apply arraySort_Permutation | exact S]. }
  split.
  { apply StronglySorted_app_l
      with (l2 := skipn 30 (arraySort byCountDesc (frequentPhrases data))).
    rewrite firstn_skipn. exact S. }
  split.
  - intros p c H. apply T, E in H. destruct H as [Hin [Hc Hge]].
    split; [exact Hc |]. split; [exact Hge |].
    unfold allPhrases in Hin. apply in_flat_map in Hin. exact Hin.
  - intros p Hlt H. apply in_map_iff in H.
    destruct H as [[p' c] [Hp H]]. simpl in Hp. subst p'.
    apply T, E in H. lia.
Qed.

(** X19: what holds of [topWords]: at most 30 entries on every input; and when
    no word of the messages is a name inherited from [Object.prototype],
    the entries are in descending order of count, the ones left out
    counted no more than the ones kept, and the count of a word is the
    number of its occurrences. *)
Lemma topWords_spec (data : list chatRow) :
  (List.length (topWordsOf data) <= 30)%nat
  /\ ((forall w, In w (allWords data) -> inherited w = false) ->
      (exists rest,
         Permutation (topWordsOf data ++ rest) (entries (wordCounts data))
         /\ StronglySorted (fun a b => num_ge (snd a) (snd b) = true)
                           (topWordsOf data ++ rest))
      /\ StronglySorted (fun a b => num_ge (snd a) (snd b) = true)
                        (topWordsOf data)
      /\ forall w c,
           In (w, c) (topWordsOf data) ->
           c = Some (occurrences (allWords data) w)).
Proof.
  unfold topWordsOf, sliceFirst.
  split; [apply firstn_le_length |].
  intros Hw.
  assert (E : forall w c,
             In (w, c) (entries (wordCounts data)) ->
             c = Some (occurrences (allWords data) w)).
  { intros w c H. rewrite wordCounts_flat in H.
    apply (counted_entries (allWords data) Hw) in H. apply H. }
  assert (S : StronglySorted (fun a b => num_ge (snd a) (snd b) = true)
                (arraySort byCountDesc (entries (wordCounts data)))).
  { apply StronglySorted_impl with (R := keyLe negCount);
      [intros a b; apply num_ge_negCount |].
    apply (arraySort_sorted byCountDesc negCount byCountDesc_key).
    apply Forall_forall. intros [w c] H. apply E in H. subst c.
    discriminate. }
  split.
  { exists (skipn 30 (arraySort byCountDesc (entries (wordCounts data)))).
    rewrite firstn_skipn.
    split; [apply arraySort_Permutation | exact S]. }
  split.
  { apply StronglySorted_app_l
      with (l2 := skipn 30
                    (arraySort byCountDesc (entries (wordCounts data)))).
    rewrite firstn_skipn. exact S. }
  intros w c H. apply In_firstn in H.
  apply (Permutation_in _ (arraySort_Permutation byCountDesc _)) in H.
  apply E. exact H.
Qed.

(** The example of the specification: in two messages [a bb ccc] the word
    [ccc] and the phrase [bb ccc] are counted twice; twice is too few for
    [topPhrases]. *)
Lemma example_counts :
  getProp (wordCounts (parsedData utcZone (fun _ => 0) tableExample)) "ccc"
  = VNum (Some 2)
  /\ getProp (phraseCounts (parsedData utcZone (fun _ => 0) tableExample))
             "bb ccc"
     = VNum (Some 2)
  /\ topWords (statsOf utcZone byCodeUnit
                       (parsedData utcZone (fun _ => 0) tableExample))
     = [("ccc", Some 2)]
  /\ topPhrases (statsOf utcZone byCodeUnit
                         (parsedData utcZone (fun _ => 0) tableExample))
     = [].
Proof. repeat split; vm_compute; reflexivity. Qed.

(** C9: a word that names a property inherited from [Object.prototype]
    is miscounted.  Its first occurrence finds the inherited function in
    the table, which is truthy, so the count is not set to 0 and the
    increment gives NaN; the comparison with a NaN count is NaN, and
    [topWords] is not in descending order of count: the sort, as modelled,
    leaves the count 1 before the count 2, and no arrangement of the
    entries is descending.
    A message that says the word three times gets the count 2. *)
Theorem topWords_inherited_name :
  topWords (statsOf utcZone byCodeUnit
                    (parsedData utcZone (fun _ => 0) tableConstructor))
  = [("aaa", Some 1); ("constructor", NaN); ("bbb", Some 2)]
  /\ ~ countsDescending
       (topWords (statsOf utcZone byCodeUnit
                          (parsedData utcZone (fun _ => 0) tableConstructor)))
  /\ (forall l,
        Permutation l
          (entries (wordCounts
                      (parsedData utcZone (fun _ => 0) tableConstructor))) ->
        ~ countsDescending l)
  /\ topWords (statsOf utcZone byCodeUnit
                 (parsedData utcZone (fun _ => 0)
                    [says "2/1/2023" "10:00"
                          "constructor constructor constructor"]))
     = [("constructor", Some 2)].
Proof.
  assert (E : entries (wordCounts
                         (parsedData utcZone (fun _ => 0) tableConstructor))
              = [("aaa", Some 1); ("constructor", NaN); ("bbb", Some 2)])
    by (vm_compute; reflexivity).
  assert (P : forall l : list (string * num),
             Permutation l
               [("aaa", Some 1); ("constructor", NaN); ("bbb", Some 2)] ->
             ~ countsDescending l).
  { intros l Hp Hs. apply countsDescending_valid in Hs.
    - apply (Permutation_Forall Hp) in Hs.
      inversion Hs as [| ? ? _ Hs']; subst.
      inversion Hs' as [| ? ? Hbad _]; subst.
      apply Hbad. reflexivity.
    - rewrite (Permutation_length Hp). simpl. lia. }
  assert (T : topWords (statsOf utcZone byCodeUnit
                          (parsedData utcZone (fun _ => 0) tableConstructor))
              = [("aaa", Some 1); ("constructor", NaN); ("bbb", Some 2)])
    by (vm_compute; reflexivity).
  split; [exact T |].
  split; [rewrite T; apply P, Permutation_refl |].
  split; [rewrite E; exact P |].
  vm_compute. reflexivity.
Qed.

(** ** Senders *)

Lemma getOwn_map_keyed {A V : Type} (key : A -> string) (g : A -> V)
  (l : list A) (a : A) :
  NoDup (map key l) -> In a l ->
  getOwn (map (fun a => (key a, g a)) l) (key a) = Some (g a).
Proof.
  induction l as [| b l IH]; simpl; intros Hnd H; [contradiction |].
  inversion Hnd as [| ? ? Hk Hnd']; subst.
  destruct H as [H | H].
  - subst b. rewrite String.eqb_refl. reflexivity.
  - destruct (String.eqb_spec (key b) (key a)) as [E | E].
    + exfalso. apply Hk. rewrite E. apply in_map. exact H.
    + apply IH; assumption.
Qed.

Lemma indicator_sum (s : field) (ks : list field) :
  NoDup ks -> In s ks ->
  list_sum (map (fun k => if strictEq s k then 1%nat else 0%nat) ks)
  = 1%nat.
Proof.
  induction ks as [| k ks IH]; simpl; intros Hnd Hin; [contradiction |].
  inversion Hnd as [| ? ? Hk Hnd']; subst.
  destruct (strictEq_spec s k) as [E | E].
  - subst k. f_equal.
    clear IH Hin Hnd Hnd'. induction ks as [| k ks IH]; [reflexivity |].
    simpl. destruct (strictEq_spec s k) as [E | E].
    + exfalso. apply Hk. left. symmetry. exact E.
    + apply IH. intros H. apply Hk. right. exact H.
  - destruct Hin as [Hin | Hin]; [symmetry in Hin; contradiction |].
    apply IH; assumption.
Qed.

Lemma list_sum_map_add {A : Type} (f g : A -> nat) (l : list A) :
  list_sum (map (fun x => (f x + g x)%nat) l)
  = (list_sum (map f l) + list_sum (map g l))%nat.
Proof. induction l as [| x l IH]; simpl; [reflexivity | rewrite IH; lia]. Qed.

(** Every row is counted for exactly one of the distinct senders. *)
Lemma rowsOf_partition (ks : list field) (data : list chatRow) :
  NoDup ks -> (forall r, In r data -> In (sender r) ks) ->
  list_sum (map (fun k => List.length (rowsOf k data)) ks)
  = List.length data.
Proof.
  intros Hnd. induction data as [| r data IH]; intros Hin.
  - simpl. clear Hnd Hin. induction ks as [| k ks IHk]; [reflexivity |].
    simpl. exact IHk.
  - rewrite (map_ext
               (fun k => List.length (rowsOf k (r :: data)))
               (fun k => ((if strictEq (sender r) k then 1 else 0)
                          + List.length (rowsOf k data))%nat)).
    + rewrite list_sum_map_add, indicator_sum, IH.
      * reflexivity.
      * intros r' Hr'. apply Hin. right. exact Hr'.
      * exact Hnd.
      * apply Hin. left. reflexivity.
    + intros k. unfold rowsOf. simpl.
      destruct (strictEq (sender r) k); reflexivity.
Qed.

Lemma sumNum_counts {A : Type} (f : A -> nat) (ks : list A) :
  sumNum (map (fun k => Some (Z.of_nat (f k))) ks)
  = Some (Z.of_nat (list_sum (map f ks))).
Proof.
  unfold sumNum. induction ks as [| k ks IH]; simpl; [reflexivity |].
  rewrite IH. simpl. f_equal. lia.
Qed.

(** Distinct senders have distinct names, unless one is missing and
    another is the string [undefined]. *)
Lemma sender_keys_NoDup (l : list field) :
  NoDup l -> ~ (In undefined l /\ In (str "undefined") l) ->
  NoDup (map toString l).
Proof.
  intros Hnd Hn. apply NoDup_map_NoDup_ForallPairs; [| exact Hnd].
  intros x y Hx Hy E.
  destruct (toString_inj x y E) as [H | [[H1 H2] | [H1 H2]]];
    [exact H | |]; exfalso; apply Hn; subst; split; assumption.
Qed.

Lemma sender_keys_no_proto (l : list field) :
  ~ In (str "__proto__") l -> ~ In "__proto__" (map toString l).
Proof.
  intros H K. apply in_map_iff in K. destruct K as [x [E Hx]].
  destruct x as [| t]; simpl in E; [discriminate E |].
  subst t. exact (H Hx).
Qed.

(** X20: what holds of the per-sender figures when no sender is named
    [__proto__] and the table does not have both a row without a sender
    and a sender named [undefined]: the senders are listed once each,
    with the number of their rows, and the numbers add up to the number
    of rows. *)
Lemma senderData_partition (data : list chatRow) :
  ~ In (str "__proto__") (map sender data) ->
  ~ (In undefined (map sender data)
     /\ In (str "undefined") (map sender data)) ->
  map name (senderDataOf data) = uniqueSenders data
  /\ NoDup (uniqueSenders data)
  /\ (forall s, In s (uniqueSenders data) <-> In s (map sender data))
  /\ map messages (senderDataOf data)
     = map (fun s => VNum (Some (Z.of_nat (List.length (rowsOf s data)))))
           (uniqueSenders data)
  /\ sumNum (map (fun e => toNumber (messages e)) (senderDataOf data))
     = Some (Z.of_nat (List.length data)).
Proof.
  intros Hp Hu.
  assert (Hnd : NoDup (uniqueSenders data)) by apply newSet_NoDup.
  assert (Hin : forall s, In s (uniqueSenders data) <-> In s (map sender data))
    by (intros s; apply newSet_In).
  assert (Hk : NoDup (map toString (uniqueSenders data))).
  { apply sender_keys_NoDup; [exact Hnd |].
    rewrite !Hin. exact Hu. }
  assert (Hq : ~ In "__proto__" (map toString (uniqueSenders data)))
    by (apply sender_keys_no_proto; rewrite Hin; exact Hp).
  assert (Hm : map messages (senderDataOf data)
               = map (fun s => VNum (Some (Z.of_nat
                                             (List.length (rowsOf s data)))))
                     (uniqueSenders data)).
  { unfold senderDataOf. rewrite map_map. simpl.
    unfold messageCountBySender.
    rewrite (assign_all_keyed toString
               (fun s => Some (Z.of_nat (List.length (rowsOf s data)))));
      [| exact Hk | exact Hq | reflexivity].
    simpl app. apply map_ext_in. intros s Hs. unfold getProp.
    rewrite (getOwn_map_keyed toString
               (fun s => Some (Z.of_nat (List.length (rowsOf s data)))))
      by assumption.
    reflexivity. }
  split; [unfold senderDataOf; rewrite map_map; simpl; apply map_id |].
  split; [exact Hnd |]. split; [exact Hin |]. split; [exact Hm |].
  rewrite <- (map_map messages toNumber), Hm, map_map. simpl.
  rewrite (sumNum_counts (fun s => List.length (rowsOf s data))).
  rewrite rowsOf_partition; [reflexivity | exact Hnd |].
  intros r Hr. apply Hin. apply in_map. exact Hr.
Qed.

(** The second condition is needed: a row without a sender and a sender
    named [undefined] are two senders of the set and one property of the
    tables, so that the count written last is read for both. *)
Lemma senderData_undefined_name :
  uniqueSenders tableUndefined = [str "undefined"; undefined]
  /\ senderDataOf tableUndefined
     = [mkSenderEntry (str "undefined") (VNum (Some 1)) (VNum (Some 0));
        mkSenderEntry undefined (VNum (Some 1)) (VNum (Some 0))]
  /\ List.length (rowsOf (str "undefined") tableUndefined) = 2%nat
  /\ sumNum (map (fun e => toNumber (messages e))
                 (senderDataOf tableUndefined))
     = Some 2
  /\ List.length tableUndefined = 3%nat.
Proof. repeat split; vm_compute; reflexivity. Qed.

(** C10: for the sender named [__proto__] the assignment of the count
    stores nothing, since the inherited setter ignores a number, and the
    read that follows yields [Object.prototype]: the entry of that sender
    has no message count, and the counts do not add up to the one row. *)
Theorem senderData_proto_name :
  messageCountBySender (parsedData utcZone (fun _ => 0) tableProto) = []
  /\ senderData (statsOf utcZone byCodeUnit
                         (parsedData utcZone (fun _ => 0) tableProto))
     = [mkSenderEntry "__proto__" VObject VObject]
  /\ map (fun e => toNumber (messages e))
         (senderData (statsOf utcZone byCodeUnit
                              (parsedData utcZone (fun _ => 0) tableProto)))
     = [NaN]
  /\ sumNum
       (map (fun e => toNumber (messages e))
            (senderData (statsOf utcZone byCodeUnit
                                 (parsedData utcZone (fun _ => 0) tableProto))))
     = NaN
  /\ List.length (parsedData utcZone (fun _ => 0) tableProto) = 1%nat.
Proof. repeat split; vm_compute; reflexivity. Qed.

(** * Further properties *)

(** ** The date resolver and the upload *)

(** X1: in an accepted date the first component is the day and the second
    the month, whichever branch of the heuristic runs: no date is read as
    month/day.  The year is the third component, or that plus 2000. *)
Theorem parseDate_day_first (dateStr timeStr : string) (parts : list string) :
  dateParts dateStr = Some parts -> List.length parts = 3%nat ->
  exists year,
    parseDate dateStr timeStr
    = DDate year
            (num_sub (parseInt (nth 1 parts "") 10) (Some 1))
            (parseInt (nth 0 parts "") 10)
            (fst (timeOf timeStr)) (snd (timeOf timeStr))
    /\ (year = parseInt (nth 2 parts "") 10
        \/ year = num_add (parseInt (nth 2 parts "") 10) (Some 2000)).
Proof.
  intros E H3.
  assert (Ht : truthyStr dateStr = true)
    by (apply splitsInThree_truthy; exists parts; split; assumption).
  unfold parseDate. cbn [truthyField text]. rewrite Ht, E. simpl negb.
  apply Nat.eqb_eq in H3. rewrite H3. simpl negb. cbv iota.
  destruct (timeOf timeStr) as [h mi]. simpl fst. simpl snd.
  destruct (num_gt (parseInt (nth 0 parts "") 0) (Some 12)).
  - eexists. split; [reflexivity | left; reflexivity].
  - destruct (num_lt (parseInt (nth 2 parts "") 10) (Some 100));
      eexists; (split; [reflexivity |]); [right | left]; reflexivity.
Qed.

Lemma parseDate_day_first_witness :
  dateParts "05/13/2023" = Some ["05"; "13"; "2023"]
  /\ exists year,
       parseDate "05/13/2023" "09:05"
       = DDate year (Some 12) (Some 5) (Some 9) (Some 5).
Proof.
  split; [reflexivity |].
  destruct (parseDate_day_first "05/13/2023" "09:05" ["05"; "13"; "2023"]
              eq_refl eq_refl) as [year [H _]].
  exists year. rewrite H. reflexivity.
Defined.

(** X2: an upload that does not succeed (no file, not a CSV, a failed
    read, a parse error, a missing column) keeps the chat, the statistics,
    the tab, the flag of a loaded file and the search term as they were;
    unless no file was chosen, it ends with the spinner off and an error
    message that is not empty. *)
Theorem upload_failure_keeps_data
  (LocalTZA : Z -> bool -> Z) (localeCompare : string -> string -> Z)
  (clock : nat -> Z) (ev : upload) (st : appState) :
  succeeds ev = false ->
  let st' := handleFileUpload LocalTZA localeCompare clock ev st in
  chatData st' = chatData st
  /\ stats st' = stats st
  /\ fileUploaded st' = fileUploaded st
  /\ activeTab st' = activeTab st
  /\ searchTerm st' = searchTerm st
  /\ (ev <> NoFile -> loading st' = false /\ error st' <> "").
Proof.
  intros Hf st'. subst st'.
  destruct ev as [| | | msg | msg | fields data]; simpl.
  - repeat (split; [reflexivity |]).
    intros H. contradiction H. reflexivity.
  - repeat (split; [reflexivity |]). discriminate.
  - repeat (split; [reflexivity |]). discriminate.
  - repeat (split; [reflexivity |]). discriminate.
  - repeat (split; [reflexivity |]). discriminate.
  - unfold complete. simpl in Hf.
    destruct (missingColumns fields) as [| c l] eqn:E; [discriminate Hf |].
    simpl. repeat (split; [reflexivity |]). discriminate.
Qed.

Lemma upload_failure_keeps_data_witness :
  succeeds (ParseFailed "Unterminated quote") = false
  /\ error (handleFileUpload utcZone byCodeUnit (fun _ => 0)
              (ParseFailed "Unterminated quote") initialState)
     = "Error parsing CSV: Unterminated quote"
  /\ chatData (handleFileUpload utcZone byCodeUnit (fun _ => 0)
                 (ParseFailed "Unterminated quote") initialState)
     = [].
Proof.
  assert (Hf : succeeds (ParseFailed "Unterminated quote") = false)
    by reflexivity.
  destruct (upload_failure_keeps_data utcZone byCodeUnit (fun _ => 0)
              (ParseFailed "Unterminated quote") initialState Hf)
    as [H1 _].
  split; [exact Hf |]. split; [reflexivity | exact H1].
Defined.

(** X3: a successful upload of at least one row replaces the chat and the
    statistics wholesale: the state it leaves depends on the earlier state
    through the search term alone, which it keeps. *)
Theorem upload_success_replaces
  (LocalTZA : Z -> bool -> Z) (localeCompare : string -> string -> Z)
  (clock : nat -> Z) (fields : list string) (data : list csvRow)
  (st1 st2 : appState) :
  missingColumns fields = [] -> data <> [] ->
  searchTerm st1 = searchTerm st2 ->
  handleFileUpload LocalTZA localeCompare clock (ParseComplete fields data) st1
  = handleFileUpload LocalTZA localeCompare clock (ParseComplete fields data)
                     st2
  /\ searchTerm (handleFileUpload LocalTZA localeCompare clock
                   (ParseComplete fields data) st1)
     = searchTerm st1
  /\ error (handleFileUpload LocalTZA localeCompare clock
              (ParseComplete fields data) st1)
     = "".
Proof.
  intros Hm Hd Hs. unfold handleFileUpload, complete. rewrite Hm. simpl.
  assert (Hp : parsedData LocalTZA clock data <> []).
  { intros E. apply Hd.
    pose proof (arraySort_length byDatetime (parseRows LocalTZA clock 0 data))
      as L.
    unfold parsedData in E. rewrite E, parseRows_length in L.
    destruct data; [reflexivity | discriminate L]. }
  unfold calculateStats.
  destruct (parsedData LocalTZA clock data) as [| r l]; [contradiction Hp;
                                                         reflexivity |].
  unfold setActiveTab, setLoading, setFileUploaded, setStats, setChatData,
    setError. simpl. rewrite Hs. repeat split; reflexivity.
Qed.

Lemma upload_success_replaces_witness :
  missingColumns requiredColumns = [] /\ table4 <> []
  /\ handleFileUpload utcZone byCodeUnit (fun _ => 0)
       (ParseComplete requiredColumns table4) initialState
     = handleFileUpload utcZone byCodeUnit (fun _ => 0)
         (ParseComplete requiredColumns table4)
         (setError "Please upload a CSV file." initialState).
Proof.
  assert (Hm : missingColumns requiredColumns = []) by reflexivity.
  assert (Hd : table4 <> []) by discriminate.
  split; [exact Hm |]. split; [exact Hd |].
  exact (proj1 (upload_success_replaces utcZone byCodeUnit (fun _ => 0)
                  requiredColumns table4 initialState
                  (setError "Please upload a CSV file." initialState)
                  Hm Hd eq_refl)).
Defined.

(** X4: the parse-and-sort step carries the six fields of every row
    unchanged, each row once; the timestamp of a row comes from its own
    date and time fields; and the [datetime] column of the file, though
    required, is never read. *)
Theorem parsedData_keeps_fields
  (LocalTZA : Z -> bool -> Z) (clock : nat -> Z) (rows : list csvRow) :
  Permutation (map fieldsOf (parsedData LocalTZA clock rows))
              (map csvFieldsOf rows)
  /\ Forall (fun r => exists now,
                datetime r
                = dateOf LocalTZA now (parseDate (date r) (time r)))
            (parsedData LocalTZA clock rows)
  /\ forall f : csvRow -> string,
       parsedData LocalTZA clock (map (withCsvDatetime f) rows)
       = parsedData LocalTZA clock rows.
Proof.
  assert (F : forall i, map fieldsOf (parseRows LocalTZA clock i rows)
                        = map csvFieldsOf rows).
  { induction rows as [| r rows IH]; intros i; simpl; [reflexivity |].
    rewrite IH. reflexivity. }
  assert (D : forall i,
             Forall (fun r => exists now,
                       datetime r
                       = dateOf LocalTZA now (parseDate (date r) (time r)))
                    (parseRows LocalTZA clock i rows)).
  { clear F. induction rows as [| r rows IH]; intros i; simpl; constructor.
    - exists (clock i). reflexivity.
    - apply IH. }
  split; [| split].
  - rewrite <- (F 0%nat). apply Permutation_map. unfold parsedData.
    apply arraySort_Permutation.
  - apply (Permutation_Forall
             (Permutation_sym
                (arraySort_Permutation byDatetime
                   (parseRows LocalTZA clock 0 rows)))).
    apply D.
  - intros f. unfold parsedData. f_equal. clear F D.
    generalize 0%nat. induction rows as [| r rows IH]; intros i; simpl;
      [reflexivity |].
    rewrite IH. reflexivity.
Qed.

(** ** The hour histogram *)

Lemma incrAt_length (a : list Z) (i : nat) :
  List.length (incrAt a i) = List.length a.
Proof.
  revert i. induction a as [| x a IH]; intros [| i]; simpl;
    try reflexivity.
  rewrite IH. reflexivity.
Qed.

Lemma incrAt_nth (a : list Z) (i h : nat) :
  (i < List.length a)%nat ->
  nth h (incrAt a i) 0 = nth h a 0 + (if (h =? i)%nat then 1 else 0).
Proof.
  revert i h. induction a as [| x a IH]; intros i h Hi; simpl in Hi;
    [lia |].
  destruct i as [| i], h as [| h]; simpl; try lia.
  apply IH. lia.
Qed.

Lemma nth_seq_map (a : list Z) :
  a = map (fun h => nth h a 0) (seq 0 (List.length a)).
Proof.
  apply nth_ext with (d := 0) (d' := 0).
  - rewrite length_map, length_seq. reflexivity.
  - intros n Hn.
    rewrite (nth_indep (map (fun h => nth h a 0) (seq 0 (List.length a)))
                       0 (nth 0 a 0))
      by (rewrite length_map, length_seq; exact Hn).
    rewrite (map_nth (fun h => nth h a 0) (seq 0 (List.length a)) 0%nat n).
    rewrite seq_nth by exact Hn. reflexivity.
Qed.

Lemma combine_map_self {A B : Type} (f : A -> B) (l : list A) :
  combine l (map f l) = map (fun x => (x, f x)) l.
Proof. induction l as [| x l IH]; simpl; [| rewrite IH]; reflexivity. Qed.

Lemma messagesByHour_fold (data : list chatRow) :
  forall a : list Z,
    List.length a = 24%nat ->
    fold_left
      (fun a row =>
         let h := parseInt (toString (hour row)) 10 in
         if negb (isNaN h) && num_ge h (Some 0) && num_lt h (Some 24)
         then match h with
              | Some i => incrAt a (Z.to_nat i)
              | None => a
              end
         else a) data a
    = map (fun h => nth h a 0 + messagesAt h data) (seq 0 (List.length a)).
Proof.
  induction data as [| row data IH]; intros a Ha.
  - cbn [fold_left]. rewrite (nth_seq_map a) at 1.
    apply map_ext. intros h. unfold messagesAt. cbn [filter List.length].
    rewrite Z.add_0_r. reflexivity.
  - cbn [fold_left]. cbv zeta.
    assert (Hstep :
              forall h, (h < List.length a)%nat ->
              nth h (if negb (isNaN (parseInt (toString (hour row)) 10))
                        && num_ge (parseInt (toString (hour row)) 10) (Some 0)
                        && num_lt (parseInt (toString (hour row)) 10) (Some 24)
                     then match parseInt (toString (hour row)) 10 with
                          | Some i => incrAt a (Z.to_nat i)
                          | None => a
                          end
                     else a) 0
              = nth h a 0 + (if hourIs h row then 1 else 0)).
    { intros h Hh. unfold hourIs, isNaN, num_ge, num_lt, num_eqb.
      destruct (parseInt (toString (hour row)) 10) as [i |];
        [| cbn [negb andb]; rewrite Z.add_0_r; reflexivity].
      cbn [negb andb].
      destruct (Z.leb_spec 0 i) as [H0 | H0];
        destruct (Z.ltb_spec i 24) as [H1 | H1];
        destruct (Z.eqb_spec i (Z.of_nat h)) as [E | E];
        cbn [andb]; try lia.
      - rewrite incrAt_nth by lia.
        destruct (Nat.eqb_spec h (Z.to_nat i)); lia.
      - rewrite incrAt_nth by lia.
        destruct (Nat.eqb_spec h (Z.to_nat i)); lia. }
    assert (Hlen :
              List.length
                (if negb (isNaN (parseInt (toString (hour row)) 10))
                    && num_ge (parseInt (toString (hour row)) 10) (Some 0)
                    && num_lt (parseInt (toString (hour row)) 10) (Some 24)
                 then match parseInt (toString (hour row)) 10 with
                      | Some i => incrAt a (Z.to_nat i)
                      | None => a
                      end
                 else a)
              = List.length a).
    { destruct (negb (isNaN (parseInt (toString (hour row)) 10))
                && num_ge (parseInt (toString (hour row)) 10) (Some 0)
                && num_lt (parseInt (toString (hour row)) 10) (Some 24));
        [| reflexivity].
      destruct (parseInt (toString (hour row)) 10);
        [apply incrAt_length | reflexivity]. }
    rewrite IH by (rewrite Hlen; exact Ha).
    rewrite Hlen. apply map_ext_in. intros h Hh. apply in_seq in Hh.
    rewrite Hstep by lia.
    unfold messagesAt. cbn [filter].
    destruct (hourIs h row); cbn [List.length]; lia.
Qed.

Lemma messagesByHour_spec (data : list chatRow) :
  messagesByHour data = map (fun h => messagesAt h data) (seq 0 24).
Proof.
  unfold messagesByHour.
  rewrite messagesByHour_fold by apply repeat_length.
  rewrite repeat_length. apply map_ext. intros h.
  rewrite nth_repeat. apply Z.add_0_l.
Qed.

(** X5: the hour histogram has the 24 entries [0:00] to [23:00], in
    order, and the count of hour [h] is the number of rows whose hour
    field [parseInt] reads as [h]: a row whose hour is not a number, or is
    outside 0 to 23, is in no entry, and every other row in exactly
    one. *)
Theorem hourData_histogram
  (LocalTZA : Z -> bool -> Z) (localeCompare : string -> string -> Z)
  (data : list chatRow) :
  hourData (statsOf LocalTZA localeCompare data)
  = map (fun h => (ofZ (Z.of_nat h) ++ ":00", messagesAt h data)) (seq 0 24).
Proof.
  simpl hourData. unfold hourDataOf. rewrite messagesByHour_spec.
  rewrite length_map, length_seq, combine_map_self, map_map. reflexivity.
Qed.

(** ** Tables of counts *)

Lemma setOwn_setOwn {V : Type} (o : obj V) (k : string) (v v' : V) :
  setOwn (setOwn o k v) k v' = setOwn o k v'.
Proof.
  induction o as [| [k0 v0] o IH]; simpl.
  - rewrite String.eqb_refl. reflexivity.
  - destruct (String.eqb k0 k) eqn:E; simpl; rewrite E; [reflexivity |].
    rewrite IH. reflexivity.
Qed.

Lemma getOwn_Some_In {V : Type} (o : obj V) (k : string) (v : V) :
  getOwn o k = Some v -> In (k, v) o.
Proof.
  induction o as [| [k0 v0] o IH]; simpl; intros H; [discriminate H |].
  destruct (String.eqb_spec k0 k) as [E | E].
  - inversion H; subst. left. reflexivity.
  - right. apply IH. exact H.
Qed.

(** On a table of positive counts, a name that is not inherited is
    counted by one write. *)
Lemma countUp_counted (o : obj num) (k : string) :
  inherited k = false -> wellCounted o ->
  countUp o k = setOwn o k (Some (tally o k + 1)).
Proof.
  intros Hi Hw. pose proof (inherited_proto k Hi) as Hp.
  unfold countUp, tally, getProp.
  destruct (getOwn o k) as [[n |] |] eqn:E.
  - assert (Hn : 0 < n).
    { apply getOwn_Some_In in E. unfold wellCounted in Hw.
      rewrite Forall_forall in Hw. destruct (Hw _ E) as [m [Hm Hpos]].
      simpl in Hm. inversion Hm. subst m. exact Hpos. }
    simpl. destruct (Z.eqb_spec n 0); [lia |]. simpl.
    rewrite E. simpl. unfold assign. rewrite Hp. reflexivity.
  - exfalso. apply getOwn_Some_In in E. unfold wellCounted in Hw.
    rewrite Forall_forall in Hw. destruct (Hw _ E) as [m [Hm _]].
    discriminate Hm.
  - rewrite Hi. simpl. unfold assign. rewrite Hp.
    rewrite getOwn_setOwn, String.eqb_refl. simpl.
    apply setOwn_setOwn.
Qed.

Lemma setOwn_wellCounted (o : obj num) (k : string) (m : Z) :
  wellCounted o -> 0 < m -> wellCounted (setOwn o k (Some m)).
Proof.
  unfold wellCounted. intros Hw Hm.
  induction o as [| [k0 v0] o IH]; simpl.
  - constructor; [exists m; split; [reflexivity | exact Hm] | constructor].
  - inversion Hw as [| ? ? H0 Hw']; subst.
    destruct (String.eqb k0 k).
    + constructor; [exists m; split; [reflexivity | exact Hm] | exact Hw'].
    + constructor; [exact H0 | apply IH; exact Hw'].
Qed.

Lemma tally_nonneg (o : obj num) (k : string) :
  wellCounted o -> 0 <= tally o k.
Proof.
  intros Hw. unfold tally.
  destruct (getOwn o k) as [[n |] |] eqn:E; try lia.
  apply getOwn_Some_In in E. unfold wellCounted in Hw.
  rewrite Forall_forall in Hw. destruct (Hw _ E) as [m [Hm Hpos]].
  simpl in Hm. inversion Hm. lia.
Qed.

Lemma totalOf_setOwn (o : obj num) (k : string) (m : Z) :
  totalOf (setOwn o k (Some m)) = totalOf o - tally o k + m.
Proof.
  unfold totalOf, tally, sumZ.
  induction o as [| [k0 v0] o IH]; simpl; [lia |].
  destruct (String.eqb k0 k); simpl.
  - destruct v0; lia.
  - rewrite IH. destruct (getOwn o k) as [[n |] |]; lia.
Qed.

Lemma fold_countUp_total (ks : list string) :
  (forall k, In k ks -> inherited k = false) ->
  forall o : obj num,
    wellCounted o ->
    wellCounted (fold_left countUp ks o)
    /\ totalOf (fold_left countUp ks o)
       = totalOf o + Z.of_nat (List.length ks).
Proof.
  induction ks as [| k ks IH]; intros Hks o Hw.
  - simpl. split; [exact Hw | lia].
  - cbn [fold_left]. rewrite countUp_counted;
      [| apply Hks; left; reflexivity | exact Hw].
    pose proof (tally_nonneg o k Hw) as Ht.
    destruct (IH (fun k' Hk' => Hks k' (or_intror Hk'))
                 (setOwn o k (Some (tally o k + 1)))) as [W T].
    + apply setOwn_wellCounted; [exact Hw | lia].
    + split; [exact W |]. rewrite T, totalOf_setOwn.
      cbn [List.length]. lia.
Qed.

Lemma sumNum_wellCounted (o : obj num) :
  wellCounted o -> sumNum (map snd o) = Some (totalOf o).
Proof.
  unfold wellCounted, sumNum, totalOf, sumZ. intros Hw.
  induction Hw as [| [k v] o [n [Hn _]] Hw IH]; simpl; [reflexivity |].
  simpl in Hn. subst v. rewrite IH. reflexivity.
Qed.

Lemma num_add_swap (a b c : num) :
  num_add a (num_add b c) = num_add b (num_add a c).
Proof.
  destruct a, b, c; simpl; try reflexivity. f_equal. lia.
Qed.

Lemma sumNum_Permutation (l l' : list num) :
  Permutation l l' -> sumNum l = sumNum l'.
Proof.
  unfold sumNum. intros H. induction H; simpl.
  - reflexivity.
  - rewrite IHPermutation. reflexivity.
  - apply num_add_swap.
  - congruence.
Qed.

Lemma inherited_no_dash (k : string) :
  inherited k = true -> includes k "-" = false.
Proof.
  unfold inherited. intros H. apply existsb_eqb_In in H.
  simpl in H.
  repeat (destruct H as [H | H]; [subst k; reflexivity |]). contradiction.
Qed.

Lemma monthKey_not_inherited (LocalTZA : Z -> bool -> Z) (d : num) :
  inherited (monthKey LocalTZA d) = false.
Proof.
  destruct (inherited (monthKey LocalTZA d)) eqn:E; [| reflexivity].
  apply inherited_no_dash in E. unfold monthKey in E.
  change (numToString (getFullYear LocalTZA d) ++ "-"
          ++ padStart2 (numToString (num_add (getMonth LocalTZA d) (Some 1))))
    with (numToString (getFullYear LocalTZA d)
          ++ String "-"
               (padStart2
                  (numToString (num_add (getMonth LocalTZA d) (Some 1)))))
    in E.
  rewrite includes_middle in E. discriminate E.
Qed.

(** ** The monthly timeline *)

(** X6: in the monthly timeline every month of the data is there once,
    with the number of rows of that month, whatever the rows hold (the
    name of a month has a hyphen in it, so it is no inherited name and no
    array index): the counts add up to the number of rows. *)
Theorem timelineData_counts
  (LocalTZA : Z -> bool -> Z) (localeCompare : string -> string -> Z)
  (data : list chatRow) :
  sumNum (map snd (timelineData (statsOf LocalTZA localeCompare data)))
  = Some (Z.of_nat (List.length data))
  /\ NoDup (map fst (timelineData (statsOf LocalTZA localeCompare data)))
  /\ forall k c,
       In (k, c) (timelineData (statsOf LocalTZA localeCompare data))
       <-> In k (map (monthOf LocalTZA) data)
           /\ c = Some (occurrences (map (monthOf LocalTZA) data) k).
Proof.
  cbn [timelineData statsOf]. unfold timelineDataOf.
  set (cmp := fun a b : string * num => Some (localeCompare (fst a) (fst b))).
  assert (M : messagesByMonth LocalTZA data
              = fold_left countUp (map (monthOf LocalTZA) data) []).
  { unfold messagesByMonth. rewrite fold_left_through_map. reflexivity. }
  assert (Hks : forall k, In k (map (monthOf LocalTZA) data) ->
                          inherited k = false).
  { intros k Hk. apply in_map_iff in Hk. destruct Hk as [row [E _]].
    subst k. apply monthKey_not_inherited. }
  assert (P : Permutation
                (arraySort cmp (entries (messagesByMonth LocalTZA data)))
                (messagesByMonth LocalTZA data)).
  { apply perm_trans with (entries (messagesByMonth LocalTZA data));
      [apply arraySort_Permutation | apply entries_Permutation]. }
  split; [| split].
  - rewrite (sumNum_Permutation _ _ (Permutation_map snd P)).
    rewrite M.
    destruct (fold_countUp_total (map (monthOf LocalTZA) data) Hks [])
      as [W T]; [constructor |].
    rewrite (sumNum_wellCounted _ W), T, length_map. reflexivity.
  - apply (Permutation_NoDup (Permutation_sym (Permutation_map fst P))).
    rewrite M. apply fold_countUp_NoDup. constructor.
  - intros k c.
    rewrite <- (counted_entries (map (monthOf LocalTZA) data) Hks k c).
    rewrite <- M. split; intros H.
    + apply (Permutation_in _ (arraySort_Permutation cmp _)). exact H.
    + apply (Permutation_in _
               (Permutation_sym (arraySort_Permutation cmp _))). exact H.
Qed.

(** ** The most active day *)

Lemma mostActive_fold (l : list (string * num)) :
  forall (init : string * num) (n0 : Z),
    snd init = Some n0 ->
    Forall (fun e : string * num => exists n, snd e = Some n) l ->
    exists m,
      snd (fold_left (fun max e => if num_gt (snd e) (snd max) then e else max)
                     l init) = Some m
      /\ n0 <= m
      /\ Forall (fun e : string * num => forall n, snd e = Some n -> n <= m)
                l
      /\ (fold_left (fun max e => if num_gt (snd e) (snd max) then e else max)
                    l init = init
          \/ In (fold_left
                   (fun max e => if num_gt (snd e) (snd max) then e else max)
                   l init) l).
Proof.
  induction l as [| e l IH]; intros init n0 Hi Hl.
  - exists n0. cbn [fold_left]. repeat split; try assumption; try lia.
    + constructor.
    + left. reflexivity.
  - apply Forall_cons_iff in Hl. destruct Hl as [[n Hn] Hl'].
    cbn [fold_left].
    assert (S : (if num_gt (snd e) (snd init) then e else init)
                = if n0 <? n then e else init)
      by (unfold num_gt, num_lt; rewrite Hi, Hn; reflexivity).
    rewrite S. clear S.
    destruct (Z.ltb_spec n0 n) as [Hlt | Hge].
    + destruct (IH e n Hn Hl') as [m [Hm [Hle [Hall Hin]]]].
      exists m. split; [exact Hm |]. split; [lia |].
      split; [constructor; [intros n' Hn'; rewrite Hn in Hn';
                            inversion Hn'; lia | exact Hall] |].
      right. destruct Hin as [Hin | Hin]; [left; symmetry | right];
        exact Hin.
    + destruct (IH init n0 Hi Hl') as [m [Hm [Hle [Hall Hin]]]].
      exists m. split; [exact Hm |]. split; [exact Hle |].
      split; [constructor; [intros n' Hn'; rewrite Hn in Hn';
                            inversion Hn'; lia | exact Hall] |].
      destruct Hin as [Hin | Hin]; [left | right; right]; exact Hin.
Qed.

(** X7: when no date of the data is, as a name, inherited from
    [Object.prototype], the most active day is a date of the data, its
    count is the number of rows of that date, and no date has more
    rows.  The dates are taken by name, as the table keys them: a date
    that is missing is under the name [undefined]. *)
Theorem mostActiveDay_max
  (LocalTZA : Z -> bool -> Z) (localeCompare : string -> string -> Z)
  (data : list chatRow) :
  data <> [] ->
  (forall row, In row data -> inherited (dateName row) = false) ->
  exists d n,
    mostActiveDay (statsOf LocalTZA localeCompare data) = (d, Some n)
    /\ In d (map dateName data)
    /\ n = occurrences (map dateName data) d
    /\ forall d', occurrences (map dateName data) d' <= n.
Proof.
  intros Hne Hin. cbn [mostActiveDay statsOf]. unfold mostActiveDayOf.
  assert (M : messagesByDate data = fold_left countUp (map dateName data) []).
  { unfold messagesByDate. rewrite fold_left_through_map. reflexivity. }
  assert (Hks : forall k, In k (map dateName data) -> inherited k = false).
  { intros k Hk. apply in_map_iff in Hk. destruct Hk as [row [E Hr]].
    subst k. apply Hin. exact Hr. }
  pose proof (counted_entries (map dateName data) Hks) as C. rewrite <- M in C.
  assert (Hall : Forall (fun e : string * num => exists n, snd e = Some n)
                        (entries (messagesByDate data))).
  { apply Forall_forall. intros [k c] H. apply C in H.
    destruct H as [_ Hc]. eexists. exact Hc. }
  destruct (mostActive_fold (entries (messagesByDate data)) ("", Some 0) 0
              eq_refl Hall) as [m [Hm [H0 [Hle Hr]]]].
  rewrite Forall_forall in Hle.
  assert (Hocc : forall d', occurrences (map dateName data) d' <= m).
  { intros d'. destruct (in_dec string_dec d' (map dateName data)) as [Hi | Hn].
    - apply (Hle (d', Some (occurrences (map dateName data) d')));
        [apply C; split; [exact Hi | reflexivity] | reflexivity].
    - unfold occurrences.
      rewrite (proj1 (count_occ_not_In string_dec (map dateName data) d') Hn).
      exact H0. }
  destruct Hr as [Hr | Hr].
  - exfalso. destruct data as [| row data']; [apply Hne; reflexivity |].
    rewrite Hr in Hm. inversion Hm. subst m.
    specialize (Hocc (dateName row)). unfold occurrences in Hocc.
    assert (0 < count_occ string_dec (map dateName (row :: data'))
                          (dateName row))%nat
      by (apply count_occ_In; left; reflexivity).
    lia.
  - destruct (fold_left
                (fun max e => if num_gt (snd e) (snd max) then e else max)
                (entries (messagesByDate data)) ("", Some 0)) as [d c].
    apply C in Hr. destruct Hr as [Hd Hc]. simpl in Hm.
    exists d, m. rewrite <- Hm.
    split; [reflexivity |]. split; [exact Hd |].
    split; [rewrite Hc in Hm; inversion Hm; reflexivity | exact Hocc].
Qed.

Lemma mostActiveDay_max_witness :
  exists d n,
    mostActiveDay (statsOf utcZone byCodeUnit fourMondays) = (d, Some n)
    /\ forall d', occurrences (map dateName fourMondays) d' <= n.
Proof.
  assert (Hne : fourMondays <> []) by discriminate.
  assert (Hin : forall row,
             In row fourMondays -> inherited (dateName row) = false).
  { intros row H. simpl in H.
    repeat (destruct H as [H | H]; [subst row; reflexivity |]).
    contradiction. }
  destruct (mostActiveDay_max utcZone byCodeUnit fourMondays Hne Hin)
    as [d [n [H1 [_ [_ H4]]]]].
  exists d, n. split; [exact H1 | exact H4].
Defined.

(** ** Words by sender *)

Lemma wordCount_sum (msgs : list field) :
  wordCount msgs = sumZ (map wordsIn msgs).
Proof.
  unfold wordCount.
  assert (G : forall a,
             fold_left
               (fun total msg =>
                  if negb (truthyField msg) then total
                  else total
                       + Z.of_nat
                           (List.length
                              (filter (longerThan 0) (splitWS (text msg)))))
               msgs a
             = a + sumZ (map wordsIn msgs)).
  { induction msgs as [| m msgs IH]; intros a.
    - unfold sumZ. simpl. lia.
    - cbn [fold_left map]. rewrite IH.
      change (sumZ (wordsIn m :: map wordsIn msgs))
        with (wordsIn m + sumZ (map wordsIn msgs)).
      unfold wordsIn at 2.
      destruct (truthyField m); cbn [negb]; lia. }
  rewrite G. lia.
Qed.

Lemma weighted_indicator (s : field) (x : Z) (ks : list field) :
  NoDup ks -> In s ks ->
  sumZ (map (fun k => if strictEq s k then x else 0) ks) = x.
Proof.
  unfold sumZ.
  induction ks as [| k ks IH]; simpl; intros Hnd Hin; [contradiction |].
  inversion Hnd as [| ? ? Hk Hnd']; subst.
  destruct (strictEq_spec s k) as [E | E].
  - subst k. clear IH Hin Hnd Hnd'.
    assert (Z0 : fold_right Z.add 0
                   (map (fun k => if strictEq s k then x else 0) ks) = 0).
    { induction ks as [| k ks IH]; [reflexivity |].
      simpl. destruct (strictEq_spec s k) as [E | E].
      - exfalso. apply Hk. left. symmetry. exact E.
      - apply IH. intros H. apply Hk. right. exact H. }
    rewrite Z0. lia.
  - destruct Hin as [Hin | Hin]; [symmetry in Hin; contradiction |].
    rewrite IH by assumption. lia.
Qed.

Lemma sumZ_map_add {A : Type} (f g : A -> Z) (l : list A) :
  sumZ (map (fun x => f x + g x) l) = sumZ (map f l) + sumZ (map g l).
Proof.
  unfold sumZ. induction l as [| x l IH]; simpl; [reflexivity |].
  rewrite IH. lia.
Qed.

(** Every row weighs in the sum of exactly one of the distinct senders. *)
Lemma rowsOf_weighted (w : chatRow -> Z) (ks : list field)
  (data : list chatRow) :
  NoDup ks -> (forall r, In r data -> In (sender r) ks) ->
  sumZ (map (fun k => sumZ (map w (rowsOf k data))) ks) = sumZ (map w data).
Proof.
  intros Hnd. induction data as [| r data IH]; intros Hin.
  - cbn [map]. clear Hnd Hin. unfold sumZ.
    induction ks as [| k ks IHk]; [reflexivity | simpl; exact IHk].
  - rewrite (map_ext
               (fun k => sumZ (map w (rowsOf k (r :: data))))
               (fun k => (if strictEq (sender r) k then w r else 0)
                         + sumZ (map w (rowsOf k data)))).
    + rewrite sumZ_map_add, weighted_indicator, IH.
      * reflexivity.
      * intros r' Hr'. apply Hin. right. exact Hr'.
      * exact Hnd.
      * apply Hin. left. reflexivity.
    + intros k. unfold rowsOf. cbn [filter].
      destruct (strictEq (sender r) k); reflexivity.
Qed.

Lemma sumNum_Some {A : Type} (f : A -> Z) (ks : list A) :
  sumNum (map (fun k => Some (f k)) ks) = Some (sumZ (map f ks)).
Proof.
  unfold sumNum, sumZ. induction ks as [| k ks IH]; simpl; [reflexivity |].
  rewrite IH. reflexivity.
Qed.

(** X8: when no sender is named [__proto__], and the table does not have
    both a row without a sender and a sender named [undefined], the word
    count of a sender is the number of the non-empty pieces between white
    space in the messages of that sender, and the word counts of the
    senders add up to that number over all the messages. *)
Theorem senderData_words
  (LocalTZA : Z -> bool -> Z) (localeCompare : string -> string -> Z)
  (data : list chatRow) :
  ~ In (str "__proto__") (map sender data) ->
  ~ (In undefined (map sender data)
     /\ In (str "undefined") (map sender data)) ->
  map words (senderData (statsOf LocalTZA localeCompare data))
  = map (fun s => VNum (Some (sumZ (map wordsIn
                                        (map message (rowsOf s data))))))
        (uniqueSenders data)
  /\ sumNum (map (fun e => toNumber (words e))
                 (senderData (statsOf LocalTZA localeCompare data)))
     = Some (sumZ (map wordsIn (map message data))).
Proof.
  intros Hp Hu. cbn [senderData statsOf].
  assert (Hnd : NoDup (uniqueSenders data)) by apply newSet_NoDup.
  assert (Hin : forall s, In s (uniqueSenders data) <-> In s (map sender data))
    by (intros s; apply newSet_In).
  assert (Hk : NoDup (map toString (uniqueSenders data))).
  { apply sender_keys_NoDup; [exact Hnd |].
    rewrite !Hin. exact Hu. }
  assert (Hq : ~ In "__proto__" (map toString (uniqueSenders data)))
    by (apply sender_keys_no_proto; rewrite Hin; exact Hp).
  assert (Hw : map words (senderDataOf data)
               = map (fun s => VNum (Some (sumZ (map wordsIn
                                                    (map message
                                                         (rowsOf s data))))))
                     (uniqueSenders data)).
  { unfold senderDataOf. rewrite map_map. cbn [words].
    unfold wordCountBySender.
    rewrite (assign_all_keyed toString
               (fun s => Some (wordCount (map message (rowsOf s data)))));
      [| exact Hk | exact Hq | reflexivity].
    cbn [app]. apply map_ext_in. intros s Hs. unfold getProp.
    rewrite (getOwn_map_keyed toString
               (fun s => Some (wordCount (map message (rowsOf s data)))))
      by assumption.
    rewrite wordCount_sum. reflexivity. }
  split; [exact Hw |].
  rewrite <- (map_map words toNumber), Hw, map_map. cbn [toNumber].
  rewrite (sumNum_Some
             (fun s => sumZ (map wordsIn (map message (rowsOf s data))))).
  f_equal.
  rewrite (map_ext
             (fun s => sumZ (map wordsIn (map message (rowsOf s data))))
             (fun s => sumZ (map (fun r => wordsIn (message r))
                                 (rowsOf s data))))
    by (intros s; rewrite map_map; reflexivity).
  rewrite rowsOf_weighted; [rewrite map_map; reflexivity | exact Hnd |].
  intros r Hr. apply Hin. apply in_map. exact Hr.
Qed.

Lemma senderData_words_witness :
  ~ In (str "__proto__") (map sender withShortLine)
  /\ ~ (In undefined (map sender withShortLine)
        /\ In (str "undefined") (map sender withShortLine))
  /\ In undefined (map sender withShortLine)
  /\ sumNum (map (fun e => toNumber (words e))
                 (senderData (statsOf utcZone byCodeUnit withShortLine)))
     = Some 4.
Proof.
  assert (Hp : ~ In (str "__proto__") (map sender withShortLine)).
  { simpl. intros H.
    repeat (destruct H as [H | H]; [discriminate H |]). exact H. }
  assert (Hu : ~ (In undefined (map sender withShortLine)
                  /\ In (str "undefined") (map sender withShortLine))).
  { simpl. intros [_ H].
    repeat (destruct H as [H | H]; [discriminate H |]). exact H. }
  split; [exact Hp |]. split; [exact Hu |].
  split; [simpl; tauto |].
  rewrite (proj2 (senderData_words utcZone byCodeUnit withShortLine Hp Hu)).
  reflexivity.
Defined.

(** ** More on the weekday averages *)

Lemma toFixed1_at_least_1 (x : Q) : (1 <= x)%Q -> (1 <= toFixed1 x)%Q.
Proof.
  intros H. unfold toFixed1.
  assert (L : (inject_Z 10 <= x * inject_Z 10 + (1 # 2))%Q).
  { change (inject_Z 10) with (10 # 1)%Q. lra. }
  apply Qfloor_resp_le in L. rewrite Qfloor_Z in L.
  unfold Qle. cbn [Qnum Qden]. lia.
Qed.

(** X9: the average of a weekday is 0 when no row has that weekday, and
    at least 1 otherwise: a weekday with messages has no more distinct
    dates than messages. *)
Theorem weekdayData_zero_or_one
  (LocalTZA : Z -> bool -> Z) (localeCompare : string -> string -> Z)
  (data : list chatRow) :
  Forall (fun e =>
            (messagesOn (fst e) data = 0 /\ (snd e == 0)%Q)
            \/ (0 < messagesOn (fst e) data /\ (1 <= snd e)%Q))
         (weekdayData (statsOf LocalTZA localeCompare data)).
Proof.
  cbn [weekdayData statsOf]. rewrite weekdayDataOf_spec.
  apply Forall_forall. intros e He. apply in_map_iff in He.
  destruct He as [day [E _]]. subst e. cbn [fst snd].
  unfold messagesOn, datesOn, average, parseFloat.
  destruct (rowsOn day data) as [| r rows] eqn:R.
  - left. split; reflexivity.
  - right. split; [simpl; lia |].
    set (l := map date (r :: rows)).
    assert (H1 : (1 <= List.length (nodup field_dec l))%nat).
    { assert (Hin : In (date r) (nodup field_dec l))
        by (apply nodup_In; left; reflexivity).
      destruct (nodup field_dec l); [contradiction Hin | simpl; lia]. }
    assert (H2 : (List.length (nodup field_dec l)
                  <= List.length (r :: rows))%nat).
    { rewrite <- (length_map date (r :: rows)).
      apply NoDup_incl_length; [apply NoDup_nodup |].
      intros x Hx. apply nodup_In in Hx. exact Hx. }
    destruct (Nat.ltb_spec 0 (List.length (nodup field_dec l))); [| lia].
    apply binary64_at_least_1, toFixed1_at_least_1, binary64_at_least_1.
    apply Qle_shift_div_l.
    + change 0%Q with (inject_Z 0). rewrite <- Zlt_Qlt. lia.
    + rewrite Qmult_1_l. rewrite <- Zle_Qle. lia.
Qed.

(** ** The first sender *)

Lemma fold_setAdd_prefix (l : list field) :
  forall s, exists t, fold_left setAdd l s = (s ++ t)%list.
Proof.
  induction l as [| x l IH]; intros s; simpl.
  - exists []. rewrite app_nil_r. reflexivity.
  - destruct (IH (setAdd s x)) as [t Ht]. rewrite Ht. unfold setAdd.
    destruct (existsb (strictEq x) s).
    + exists t. reflexivity.
    + exists (x :: t). rewrite <- app_assoc. reflexivity.
Qed.

(** X10: the sender whose messages the chat draws on the left, the sender
    of the first row, is the first entry of the per-sender figures, and
    is in no other entry; a message is drawn on the right exactly when
    its sender is another one. *)
Theorem firstSender_heads_senderData
  (LocalTZA : Z -> bool -> Z) (localeCompare : string -> string -> Z)
  (st : appState) :
  chatData st <> [] ->
  (exists rest,
     map name (senderData (statsOf LocalTZA localeCompare (chatData st)))
     = firstSender st :: rest
     /\ ~ In (firstSender st) rest)
  /\ forall msg, isSentByMe st msg = true <-> sender msg <> firstSender st.
Proof.
  intros Hne. split.
  - cbn [senderData statsOf]. unfold senderDataOf. rewrite map_map.
    cbn [name]. rewrite map_id. unfold firstSender.
    destruct (chatData st) as [| r rows]; [contradiction Hne; reflexivity |].
    pose proof (newSet_NoDup (map sender (r :: rows))) as Hnd.
    unfold uniqueSenders in *. unfold newSet in *. cbn [map fold_left] in *.
    change (setAdd [] (sender r)) with [sender r] in *.
    destruct (fold_setAdd_prefix (map sender rows) [sender r]) as [t Ht].
    rewrite Ht in *. cbn [app] in *. exists t. split; [reflexivity |].
    inversion Hnd. assumption.
  - intros msg. unfold isSentByMe.
    destruct (strictEq_spec (sender msg) (firstSender st)); simpl;
      split; intros H; congruence.
Qed.

Lemma firstSender_heads_senderData_witness :
  chatData (setChatData fourMondays initialState) <> []
  /\ exists rest,
       map name (senderData (statsOf utcZone byCodeUnit fourMondays))
       = str "Ann" :: rest.
Proof.
  assert (Hne : chatData (setChatData fourMondays initialState) <> [])
    by discriminate.
  split; [exact Hne |].
  destruct (firstSender_heads_senderData utcZone byCodeUnit
              (setChatData fourMondays initialState) Hne)
    as [[rest [H _]] _].
  exists rest. exact H.
Defined.

(** ** The search *)

Lemma startsWith_spec (s t : string) :
  startsWith s t = true <-> exists b, s = t ++ b.
Proof.
  revert s. induction t as [| c t IH]; intros s; simpl.
  - destruct s; split; intros _; try reflexivity; eexists; reflexivity.
  - destruct s as [| d s]; simpl.
    + split; [discriminate | intros [b H]; discriminate H].
    + rewrite andb_true_iff, IH. split.
      * intros [E [b H]]. apply Ascii.eqb_eq in E. subst. exists b.
        reflexivity.
      * intros [b H]. inversion H; subst. split;
          [apply Ascii.eqb_refl | exists b; reflexivity].
Qed.

Lemma includesStr_spec (s t : string) :
  includesStr s t = true <-> exists a b, s = a ++ t ++ b.
Proof.
  induction s as [| d s IH].
  - cbn [includesStr]. rewrite orb_false_r, startsWith_spec. split.
    + intros [b H]. exists "", b. exact H.
    + intros [a [b H]]. destruct a; [exists b; exact H |]. discriminate H.
  - cbn [includesStr]. rewrite orb_true_iff, startsWith_spec, IH. split.
    + intros [[b H] | [a [b H]]].
      * exists "", b. exact H.
      * exists (String d a), b. simpl. rewrite H. reflexivity.
    + intros [a [b H]]. destruct a as [| c a].
      * left. exists b. exact H.
      * right. simpl in H. inversion H; subst. exists a, b. reflexivity.
Qed.

Lemma lowerChar_idem (c : ascii) : lowerChar (lowerChar c) = lowerChar c.
Proof.
  destruct c as [[] [] [] [] [] [] [] []]; vm_compute; reflexivity.
Qed.

Lemma toLowerCase_idem (s : string) :
  toLowerCase (toLowerCase s) = toLowerCase s.
Proof.
  induction s as [| c s IH]; simpl; [reflexivity |].
  rewrite lowerChar_idem, IH. reflexivity.
Qed.

Lemma toLowerCase_truthy (s : string) :
  truthyStr (toLowerCase s) = truthyStr s.
Proof. destruct s; reflexivity. Qed.

Lemma filter_all {A : Type} (l : list A) : filter (fun _ => true) l = l.
Proof. induction l as [| x l IH]; simpl; [| rewrite IH]; reflexivity. Qed.

(** X11: the chat shows, in their order, the messages that match the
    search term: all of them when the term is empty, and otherwise those
    whose text is not empty and has the term in it, letter case apart;
    the case of the letters of the term makes no difference. *)
Theorem filteredChatData_spec (st : appState) :
  (searchTerm st = "" -> filteredChatData st = chatData st)
  /\ (exists keep, filteredChatData st = filter keep (chatData st))
  /\ (forall msg,
        In msg (filteredChatData st)
        <-> In msg (chatData st)
            /\ (searchTerm st = ""
                \/ exists m,
                     message msg = str m /\ m <> ""
                     /\ exists a b,
                          toLowerCase m
                          = a ++ toLowerCase (searchTerm st) ++ b))
  /\ forall t,
       filteredChatData (setSearchTerm (toLowerCase t) st)
       = filteredChatData (setSearchTerm t st).
Proof.
  assert (M : forall t msg,
             matches t msg = true
             <-> exists m,
                   message msg = str m /\ m <> ""
                   /\ exists a b, toLowerCase m = a ++ toLowerCase t ++ b).
  { intros t msg. unfold matches.
    rewrite andb_true_iff, includesStr_spec.
    destruct (message msg) as [| m]; cbn [truthyField text].
    - split; [intros [H _]; discriminate H |
              intros [m [E _]]; discriminate E].
    - split.
      + intros [H1 H2]. exists m. split; [reflexivity |].
        split; [destruct m; discriminate | exact H2].
      + intros [m' [E [Hne H2]]]. inversion E; subst m'.
        split; [destruct m; [contradiction Hne |]; reflexivity | exact H2]. }
  unfold filteredChatData. split; [| split; [| split]].
  - intros E. rewrite E. reflexivity.
  - destruct (truthyStr (searchTerm st)
              && (0 <? List.length (chatData st))%nat).
    + exists (matches (searchTerm st)). reflexivity.
    + exists (fun _ => true). rewrite filter_all. reflexivity.
  - intros msg. destruct (searchTerm st) as [| c term] eqn:T.
    + simpl. split; [intros H; split; [exact H | left; reflexivity] |
                     intros [H _]; exact H].
    + cbn [truthyStr andb].
      destruct (chatData st) as [| r rows]; [simpl; tauto |].
      cbn [List.length Nat.ltb Nat.leb]. rewrite filter_In, M.
      split; intros [H1 H2]; (split; [exact H1 |]).
      * right. exact H2.
      * destruct H2 as [H2 | H2]; [discriminate H2 | exact H2].
  - intros t. cbn [searchTerm setSearchTerm chatData].
    rewrite toLowerCase_truthy.
    destruct (truthyStr t && (0 <? List.length (chatData st))%nat);
      [| reflexivity].
    apply filter_ext. intros msg. unfold matches.
    rewrite toLowerCase_idem. reflexivity.
Qed.

Lemma filteredChatData_spec_witness :
  searchTerm (setChatData fourMondays initialState) = ""
  /\ filteredChatData (setChatData fourMondays initialState) = fourMondays.
Proof.
  split; [reflexivity |].
  exact (proj1 (filteredChatData_spec (setChatData fourMondays initialState))
               eq_refl).
Defined.

(** ** The groups of the chat *)

Lemma groupBy_fold (rows : list chatRow) :
  forall o : obj (list chatRow),
    NoDup (map fst o) ->
    NoDup (map fst (fold_left groupStep rows o))
    /\ forall d,
         getOwn (fold_left groupStep rows o) d
         = match getOwn o d, rowsDated d rows with
           | Some g, f => Some (g ++ f)%list
           | None, [] => None
           | None, f => Some f
           end.
Proof.
  induction rows as [| r rows IH]; intros o Hnd.
  - cbn [fold_left]. split; [exact Hnd |]. intros d. unfold rowsDated.
    cbn [filter]. destruct (getOwn o d); [rewrite app_nil_r |]; reflexivity.
  - cbn [fold_left].
    assert (Hnd' : NoDup (map fst (groupStep o r)))
      by (unfold groupStep; cbv zeta; fold (dateName r);
          destruct (getOwn o (dateName r));
          apply setOwn_NoDup; exact Hnd).
    destruct (IH (groupStep o r) Hnd') as [H1 H2].
    split; [exact H1 |]. intros d. rewrite H2. unfold rowsDated.
    cbn [filter]. unfold groupStep. cbv zeta. fold (dateName r).
    destruct (getOwn o (dateName r)) as [g |] eqn:G; rewrite getOwn_setOwn;
      destruct (String.eqb_spec (dateName r) d) as [E | E].
    + subst d. rewrite G. rewrite <- app_assoc. reflexivity.
    + reflexivity.
    + subst d. rewrite G. reflexivity.
    + reflexivity.
Qed.

(** X12: the chat is cut into one group for each date of the messages
    shown, taken by name, each once: the group of a date holds exactly
    the shown messages of that date, in their order, and is never empty;
    and "No messages found" is shown exactly when no message is shown. *)
Theorem chatGroups_partition (st : appState) :
  NoDup (map fst (chatGroups st))
  /\ (forall d msgs,
        In (d, msgs) (chatGroups st)
        <-> msgs = rowsDated d (filteredChatData st) /\ msgs <> [])
  /\ (noMessagesFound st = true <-> filteredChatData st = []).
Proof.
  unfold chatGroups, noMessagesFound, groupedByDate, groupBy_date.
  destruct (groupBy_fold (filteredChatData st) [] (NoDup_nil _)) as [Hnd G].
  set (o := fold_left groupStep (filteredChatData st) []) in *.
  assert (E : forall d msgs,
             In (d, msgs) o
             <-> msgs = rowsDated d (filteredChatData st) /\ msgs <> []).
  { intros d msgs. split.
    - intros H. apply (getOwn_In _ _ _ Hnd) in H. rewrite G in H.
      cbn [getOwn] in H.
      destruct (rowsDated d (filteredChatData st)); inversion H; subst.
      split; [reflexivity | discriminate].
    - intros [H1 H2]. apply getOwn_Some_In. rewrite G. cbn [getOwn].
      subst msgs. destruct (rowsDated d (filteredChatData st));
        [contradiction H2 |]; reflexivity. }
  split; [| split].
  - apply (Permutation_NoDup
             (Permutation_sym (Permutation_map fst (entries_Permutation o)))).
    exact Hnd.
  - intros d msgs. rewrite <- E. split; intros H.
    + apply (Permutation_in _ (entries_Permutation o)). exact H.
    + apply (Permutation_in _ (Permutation_sym (entries_Permutation o))).
      exact H.
  - unfold keys. rewrite length_map.
    rewrite (Permutation_length (entries_Permutation o)).
    rewrite Nat.eqb_eq. split.
    + intros L. destruct (filteredChatData st) as [| r rows] eqn:F;
        [reflexivity |].
      exfalso.
      assert (Hin : In (dateName r, rowsDated (dateName r) (r :: rows)) o).
      { apply E. split; [reflexivity |]. unfold rowsDated. cbn [filter].
        rewrite String.eqb_refl. discriminate. }
      destruct o; [contradiction Hin | discriminate L].
    + intros F. subst o. rewrite F. reflexivity.
Qed.

(** ** The time under a message *)

Lemma string_shape (sep : ascii) (s : string) :
  includes s sep = false
  \/ exists a s', includes a sep = false /\ s = a ++ String sep s'.
Proof.
  induction s as [| c s IH]; [left; reflexivity |].
  cbn [includes]. destruct (Ascii.eqb_spec c sep) as [E | E].
  - subst c. right. exists "", s. split; reflexivity.
  - destruct IH as [IH | [a [s' [Ha Hs]]]].
    + left. exact IH.
    + right. exists (String c a), s'. split.
      * cbn [includes]. destruct (Ascii.eqb_spec c sep); [contradiction |].
        exact Ha.
      * simpl. rewrite Hs. reflexivity.
Qed.

(** X13: the time under a message is the time field cut after its second
    component: [h:m:s] is shown as [h:m], a field without a colon as it
    is; showing is idempotent; and the hour and the minute that
    [parseDate] reads from the shown time are those it reads from the
    field. *)
Theorem displayTime_spec (t : string) :
  (forall h mi rest,
     includes h ":" = false -> includes mi ":" = false ->
     t = h ++ ":" ++ mi ++ ":" ++ rest ->
     displayTime t = h ++ ":" ++ mi)
  /\ (includes t ":" = false -> displayTime t = t)
  /\ displayTime (displayTime t) = displayTime t
  /\ timeOf (displayTime t) = timeOf t.
Proof.
  assert (T : forall a s, truthyStr (a ++ String ":" s) = true)
    by (intros a s; destruct a; reflexivity).
  assert (N : forall s, includes s ":" = false -> displayTime s = s).
  { intros s Hs. unfold displayTime. cbn [truthyField text].
    destruct s as [| c s]; [reflexivity |].
    cbn [truthyStr]. unfold split.
    rewrite (split_from_no_sep_end ":" (String c s) Hs). reflexivity. }
  assert (P : forall a b, includes a ":" = false -> includes b ":" = false ->
                          displayTime (a ++ String ":" b) = a ++ String ":" b
                          /\ timeOf (a ++ String ":" b)
                             = (parseInt a 10, parseInt b 10)).
  { intros a b Ha Hb. unfold displayTime, timeOf.
    cbn [truthyField text]. rewrite T. unfold split.
    rewrite (split_from_no_sep ":" a Ha).
    rewrite (split_from_no_sep_end ":" b Hb). split; reflexivity. }
  assert (L : forall a b s, includes a ":" = false ->
                            includes b ":" = false ->
                            displayTime (a ++ String ":" (b ++ String ":" s))
                            = a ++ String ":" b
                            /\ timeOf (a ++ String ":" (b ++ String ":" s))
                               = (parseInt a 10, parseInt b 10)).
  { intros a b s Ha Hb. unfold displayTime, timeOf.
    cbn [truthyField text]. rewrite T. unfold split.
    rewrite (split_from_no_sep ":" a Ha).
    rewrite (split_from_no_sep ":" b Hb).
    pose proof (split_from_length ":" s "") as Hl.
    split; [reflexivity |].
    cbn [List.length Nat.leb nth]. reflexivity. }
  split; [| split].
  - intros h mi rest Hh Hmi E. subst t. apply (L h mi rest Hh Hmi).
  - apply N.
  - destruct (string_shape ":" t) as [Ht | [a [s [Ha Hs]]]].
    + rewrite !(N t Ht). split; reflexivity.
    + subst t. destruct (string_shape ":" s) as [Hb | [b [s' [Hb Hs']]]].
      * destruct (P a s Ha Hb) as [D1 D2]. rewrite D1, D1.
        split; reflexivity.
      * subst s. destruct (L a b s' Ha Hb) as [D1 D2].
        destruct (P a b Ha Hb) as [D3 D4].
        rewrite D1, D3, D2, D4. split; reflexivity.
Qed.

Lemma displayTime_spec_witness :
  includes "0930" ":" = false
  /\ displayTime "0930" = "0930"
  /\ displayTime "14:30:59" = "14:30".
Proof.
  split; [reflexivity |].
  split.
  - exact (proj1 (proj2 (displayTime_spec "0930")) eq_refl).
  - exact (proj1 (displayTime_spec "14:30:59") "14" "30" "59"
                 eq_refl eq_refl eq_refl).
Defined.

(** ** The drop of files *)

Lemma handleFileUpload_forgets_error
  (LocalTZA : Z -> bool -> Z) (localeCompare : string -> string -> Z)
  (clock : nat -> Z) (ev : upload) (e : string) (st : appState) :
  ev <> NoFile ->
  handleFileUpload LocalTZA localeCompare clock ev (setError e st)
  = handleFileUpload LocalTZA localeCompare clock ev st.
Proof.
  intros H. destruct ev; try reflexivity. contradiction H. reflexivity.
Qed.

Lemma uploadOf_csv (f : file) :
  isCsv f = true ->
  uploadOf [f]
  = match file_reading f with
    | ReadError => ReadFailed
    | Threw msg => ParseThrew msg
    | ParseErr msg => ParseFailed msg
    | Parsed fields data => ParseComplete fields data
    end.
Proof.
  unfold isCsv, uploadOf. intros H.
  destruct (String.eqb (file_type f) "text/csv");
    destruct (endsWith (file_name f) ".csv"); try reflexivity.
  discriminate H.
Qed.

(** X14: a drop uploads the first CSV file among its items and nothing
    else: the state is the one the upload of that file gives from the
    state before the drop, whatever comes before or after it in the drop;
    a drop without a CSV file changes nothing but the error, which it
    sets when the drop has a file. *)
Theorem handleDrop_first_csv
  (LocalTZA : Z -> bool -> Z) (localeCompare : string -> string -> Z)
  (clock : nat -> Z) (items : list dropItem) (st : appState) :
  handleDrop LocalTZA localeCompare clock items st
  = match firstCsv items with
    | Some f =>
        handleFileUpload LocalTZA localeCompare clock
          (match file_reading f with
           | ReadError => ReadFailed
           | Threw msg => ParseThrew msg
           | ParseErr msg => ParseFailed msg
           | Parsed fields data => ParseComplete fields data
           end) st
    | None =>
        if existsb isFileItem items
        then setError "Please upload a CSV file." st
        else st
    end.
Proof.
  revert st. induction items as [| i items IH]; intros st; [reflexivity |].
  destruct i as [f |]; cbn [handleDrop firstCsv existsb isFileItem orb].
  - destruct (isCsv f) eqn:C.
    + rewrite (uploadOf_csv f C). reflexivity.
    + rewrite IH. destruct (firstCsv items) as [g |].
      * apply handleFileUpload_forgets_error.
        destruct (file_reading g); discriminate.
      * destruct (existsb isFileItem items); reflexivity.
  - apply IH.
Qed.

(** ** The check of the file *)

Lemma endsWith_spec (s t : string) :
  endsWith s t = true <-> exists a, s = a ++ t.
Proof.
  induction s as [| c s IH]; cbn [endsWith].
  - rewrite orb_false_r, String.eqb_eq. split.
    + intros H. exists "". exact H.
    + intros [a H]. destruct a; [exact H | discriminate H].
  - rewrite orb_true_iff, String.eqb_eq, IH. split.
    + intros [H | [a H]]; [exists ""; exact H |].
      exists (String c a). simpl. rewrite H. reflexivity.
    + intros [a H]. destruct a as [| d a]; [left; exact H |].
      right. simpl in H. inversion H; subst. exists a. reflexivity.
Qed.

(** X15: of the files chosen only the first is looked at; it is refused,
    with the message to upload a CSV file and the chat and statistics
    untouched, exactly when its type is not [text/csv] and its name does
    not end in [.csv]; a file that passes is read whatever the other of
    the two says. *)
Theorem upload_csv_check
  (LocalTZA : Z -> bool -> Z) (localeCompare : string -> string -> Z)
  (clock : nat -> Z) (f : file) (others : list file) (st : appState) :
  uploadOf (f :: others) = uploadOf [f]
  /\ (uploadOf [f] = NotCsv
      <-> file_type f <> "text/csv"
          /\ ~ exists a, file_name f = a ++ ".csv")
  /\ (uploadOf [f] = NotCsv ->
      let st' := handleFileUpload LocalTZA localeCompare clock
                                  (uploadOf (f :: others)) st in
      error st' = "Please upload a CSV file."
      /\ loading st' = false
      /\ chatData st' = chatData st
      /\ stats st' = stats st).
Proof.
  split; [reflexivity |]. split.
  - unfold uploadOf.
    destruct (String.eqb_spec (file_type f) "text/csv") as [E | E];
      destruct (endsWith (file_name f) ".csv") eqn:W; cbn [negb andb].
    + split; [destruct (file_reading f); discriminate |].
      intros [H _]. contradiction.
    + split; [destruct (file_reading f); discriminate |].
      intros [H _]. contradiction.
    + split; [destruct (file_reading f); discriminate |].
      intros [_ H]. exfalso. apply H. apply endsWith_spec. exact W.
    + split; [| reflexivity]. intros _. split; [exact E |].
      intros H. apply endsWith_spec in H. congruence.
  - intros H st'. subst st'.
    change (uploadOf (f :: others)) with (uploadOf [f]). rewrite H.
    repeat split; reflexivity.
Qed.

Lemma upload_csv_check_witness :
  uploadOf [mkFile "" "CHAT.CSV" (Parsed requiredColumns [])] = NotCsv
  /\ error (handleFileUpload utcZone byCodeUnit (fun _ => 0)
              (uploadOf [mkFile "" "CHAT.CSV" (Parsed requiredColumns [])])
              initialState)
     = "Please upload a CSV file.".
Proof.
  assert (H : uploadOf [mkFile "" "CHAT.CSV" (Parsed requiredColumns [])]
              = NotCsv) by reflexivity.
  split; [exact H |].
  exact (proj1 (proj2 (proj2
           (upload_csv_check utcZone byCodeUnit (fun _ => 0)
              (mkFile "" "CHAT.CSV" (Parsed requiredColumns [])) []
              initialState)) H)).
Defined.

(** ** The words that are counted *)










(** ** Examples of the conditional properties *)

Lemma dailyTimeline_last_30_witness :
  Forall (fun e => sortDate e <> NaN) (dailyBuckets utcZone fourMondays)
  /\ exists older,
       Permutation (older ++ dailyTimelineDataOf utcZone fourMondays)
                   (dailyBuckets utcZone fourMondays)
       /\ List.length (dailyTimelineDataOf utcZone fourMondays) = 3%nat.
Proof.
  assert (Hv : Forall (fun e => sortDate e <> NaN)
                      (dailyBuckets utcZone fourMondays))
    by (repeat constructor; discriminate).
  split; [exact Hv |].
  destruct (proj2 (dailyTimeline_last_30 utcZone fourMondays) Hv)
    as [older [H1 [_ [_ H4]]]].
  exists older. split; [exact H1 |]. rewrite H4. reflexivity.
Defined.

Lemma topWords_spec_witness :
  (forall w, In w (allWords fourMondays) -> inherited w = false)
  /\ forall w c, In (w, c) (topWordsOf fourMondays) ->
                 c = Some (occurrences (allWords fourMondays) w).
Proof.
  assert (Hw : forall w, In w (allWords fourMondays) -> inherited w = false).
  { intros w H. vm_compute in H.
    repeat (destruct H as [H | H]; [subst w; reflexivity |]).
    contradiction. }
  split; [exact Hw |].
  exact (proj2 (proj2 (proj2 (topWords_spec fourMondays) Hw))).
Defined.

Lemma senderData_partition_witness :
  ~ In (str "__proto__") (map sender withShortLine)
  /\ ~ (In undefined (map sender withShortLine)
        /\ In (str "undefined") (map sender withShortLine))
  /\ In undefined (map sender withShortLine)
  /\ sumNum (map (fun e => toNumber (messages e))
                 (senderDataOf withShortLine))
     = Some 5.
Proof.
  assert (Hp : ~ In (str "__proto__") (map sender withShortLine)).
  { simpl. intros H.
    repeat (destruct H as [H | H]; [discriminate H |]). exact H. }
  assert (Hu : ~ (In undefined (map sender withShortLine)
                  /\ In (str "undefined") (map sender withShortLine))).
  { simpl. intros [_ H].
    repeat (destruct H as [H | H]; [discriminate H |]). exact H. }
  split; [exact Hp |]. split; [exact Hu |].
  split; [simpl; tauto |].
  rewrite (proj2 (proj2 (proj2 (proj2
             (senderData_partition withShortLine Hp Hu))))).
  reflexivity.
Defined.

Lemma topPhrases_spec_witness :
  occurrences (allPhrases fourMondays) "hello world" < 3
  /\ ~ In "hello world" (map fst (topPhrasesOf fourMondays)).
Proof.
  assert (H : occurrences (allPhrases fourMondays) "hello world" < 3)
    by (vm_compute; reflexivity).
  split; [exact H |].
  exact (proj2 (proj2 (proj2 (proj2 (topPhrases_spec fourMondays))))
               "hello world" H).
Defined.
